(** * Line grouping, profile fitting and Doppler aggregation

    A shallow embedding of [emission_lines.py], [emission_line.py] and the
    peak-width helper of [spec2flux/spectrum_data.py].

    - Python floats and the entries of the numpy arrays are IEEE-754 binary64
      numbers; they are embedded as Rocq's primitive floats, so a comparison
      or an arithmetic operation below is the one the interpreter performs,
      NaN, infinities and signed zeros included.
    - Python exceptions are values of [exn]; a pure computation that may
      raise returns a [result], and the code that reads or writes the
      module-level lists runs in the state-and-exception monad [M].
    - The nonlinear solver and the user at the figure window are outside the
      program: the solver is a parameter of type [Fitter], the user a list of
      actions, one for each figure shown.

    The definitions come first, in the order of the source; the properties
    follow. *)

From Stdlib Require Import String.
From Stdlib Require Import List ZArith Lia Bool Sorted Permutation.
From Stdlib Require Import Floats Uint63.
Import ListNotations.

Set Warnings "-inexact-float".

Open Scope string_scope.
Open Scope float_scope.
Open Scope list_scope.

(* ================================================================== *)
(** ** Exceptions and fallible computations *)

Inductive exn : Type :=
| IndexError
| ValueError
| OverflowError
| ZeroDivisionError
| AttributeError
| TypeError
| KeyError
| RuntimeError
| AssertionError (msg : string)
| SystemExit (msg : string).

Inductive result (A : Type) : Type :=
| Ok (a : A)
| Raise (e : exn).

Arguments Ok {A} a.
Arguments Raise {A} e.

Definition rbind {A B : Type} (c : result A) (k : A -> result B) : result B :=
  match c with
  | Ok a => k a
  | Raise e => Raise e
  end.

Notation "x <- c ;; k" := (rbind c (fun x => k))
  (at level 61, c at next level, right associativity).
Notation "' pat <- c ;; k" := (rbind c (fun x => match x with pat => k end))
  (at level 61, pat pattern, c at next level, right associativity).

(* ================================================================== *)
(** ** Python built-ins used by the grouping code *)

(** [max(xs)] on a list: the first item, replaced by each later item that
    compares greater; [ValueError] on the empty list. *)
Definition py_max_step (m x : float) : float := if m <? x then x else m.

Definition py_max (xs : list float) : result float :=
  match xs with
  | [] => Raise ValueError
  | x :: rest => Ok (fold_left py_max_step rest x)
  end.

(** A [dict] with string keys.  Python dictionaries iterate in insertion
    order and the fitting loop walks the grouped lines in that order, so the
    dictionary is an association list: assigning to a present key keeps its
    position, assigning to a new key appends. *)
Definition dict (V : Type) : Type := list (string * V).

Fixpoint dict_get {V : Type} (d : dict V) (k : string) : option V :=
  match d with
  | [] => None
  | (k', v) :: rest => if String.eqb k k' then Some v else dict_get rest k
  end.

Fixpoint dict_set {V : Type} (d : dict V) (k : string) (v : V) : dict V :=
  match d with
  | [] => [(k, v)]
  | (k', v') :: rest =>
      if String.eqb k k' then (k', v) :: rest else (k', v') :: dict_set rest k v
  end.

Definition dict_keys {V : Type} (d : dict V) : list string := map fst d.

(* ================================================================== *)
(** ** The rest-line catalog and the line grouper *)

(** One row of [rest_lam_data], after [float(row["Wavelength"])]. *)
Record row : Type := { Ion : string; Wavelength : float }.

Definition group : Type := list float.

Definition tolerance : float := 10.

(** The inner [for group in ion_groups[ion]] loop.  It returns the group
    list after the in-place [append] together with the final value of
    [close_group_found]; the [break] is the branch that does not recurse. *)
Fixpoint scan_groups (groups : list group) (wavelength : float)
  : result (list group * bool) :=
  match groups with
  | [] => Ok ([], false)
  | g :: rest =>
      m <- py_max g ;;
      if abs (m - wavelength) <=? tolerance
      then Ok ((g ++ [wavelength]) :: rest, true)
      else '(rest', found) <- scan_groups rest wavelength ;;
           Ok (g :: rest', found)
  end.

(** The body of the loop over the catalog rows. *)
Definition grouping_row (min_wavelength : float)
    (ion_groups : dict (list group)) (r : row) : result (dict (list group)) :=
  let ion := Ion r in
  let wavelength := Wavelength r in
  if wavelength <? min_wavelength then Ok ion_groups
  else
    match dict_get ion_groups ion with
    | None => Ok (dict_set ion_groups ion [[wavelength]])
    | Some groups =>
        '(groups', close_group_found) <- scan_groups groups wavelength ;;
        if negb close_group_found
        then Ok (dict_set ion_groups ion (groups' ++ [[wavelength]]))
        else Ok (dict_set ion_groups ion groups')
    end.

Fixpoint grouping_loop (min_wavelength : float) (rows : list row)
    (ion_groups : dict (list group)) : result (dict (list group)) :=
  match rows with
  | [] => Ok ion_groups
  | r :: rest =>
      ion_groups' <- grouping_row min_wavelength ion_groups r ;;
      grouping_loop min_wavelength rest ion_groups'
  end.

(** [emission_lines.grouping_emission_lines(min_wavelength, rest_lam_data)]. *)
Definition grouping_emission_lines (min_wavelength : float)
    (rest_lam_data : list row) : result (dict (list group)) :=
  grouping_loop min_wavelength rest_lam_data [].

(* ================================================================== *)
(** ** Window geometry: [peak_width_finder] *)

(** [s[i]] on a sequence. *)
Definition py_index {A : Type} (xs : list A) (i : nat) : result A :=
  match nth_error xs i with
  | Some x => Ok x
  | None => Raise IndexError
  end.

(** [sub in s] on strings. *)
Definition py_in_str (sub s : string) : bool :=
  match String.index 0 sub s with
  | Some _ => true
  | None => false
  end.

(** [math.floor]: the largest integer not above a finite float;
    [ValueError] on NaN and [OverflowError] on an infinity.  A finite float is
    [(-1)^s * m * 2^e], and [Z.shiftl] by a negative amount is the flooring
    division by the power of two. *)
Definition py_floor (x : float) : result Z :=
  match Prim2SF x with
  | S754_nan => Raise ValueError
  | S754_infinity _ => Raise OverflowError
  | S754_zero _ => Ok 0%Z
  | S754_finite s m e => Ok (Z.shiftl (if s then Zneg m else Zpos m) e)
  end.

(** [emission_lines.peak_width_finder(grating, wavelength_data)]. *)
Definition peak_width_finder (grating : string) (wavelength_data : list float)
  : result (float * Z * float) :=
  let peak_width := if py_in_str "L" grating then 5.0 else 0.5 in
  let flux_range := 2 * peak_width in
  w1 <- py_index wavelength_data 1 ;;
  w0 <- py_index wavelength_data 0 ;;
  let angstroms_to_pixels := w1 - w0 in
  peak_width_pixels <- py_floor (peak_width / angstroms_to_pixels) ;;
  Ok (peak_width, peak_width_pixels, flux_range).

Definition PEAK_WIDTH_LOW_RES : float := 5.0.
Definition PEAK_WIDTH_HIGH_RES : float := 0.5.

Module SpectrumData.

(** The attributes of a loaded [SpectrumData] that the core reads. *)
Record t : Type := {
  grating : string;
  resolution : string;
  min_wavelength : float;
  max_wavelength : float;
  wavelength_data : list float;
  flux_data : list float;
  error_data : list float;
  rest_lam_data : list row
}.

(** [SpectrumData.peak_width_finder(self)]. *)
Definition peak_width_finder (self : t) : result (float * Z * float) :=
  let peak_width :=
    if String.eqb (resolution self) "HIGH"
    then PEAK_WIDTH_LOW_RES else PEAK_WIDTH_HIGH_RES in
  let flux_range := 2 * peak_width in
  w1 <- py_index (wavelength_data self) 1 ;;
  w0 <- py_index (wavelength_data self) 0 ;;
  let angstroms_to_pixels := w1 - w0 in
  peak_width_pixels <- py_floor (peak_width / angstroms_to_pixels) ;;
  Ok (peak_width, peak_width_pixels, flux_range).

End SpectrumData.

Module EmissionLines.

Record t : Type := { spectrum : SpectrumData.t }.

(** The inner loop over [ion_groups[ion]] of the method. *)
Fixpoint scan_groups (groups : list group) (wavelength : float)
  : result (list group * bool) :=
  match groups with
  | [] => Ok ([], false)
  | g :: rest =>
      m <- py_max g ;;
      if abs (m - wavelength) <=? 10
      then Ok ((g ++ [wavelength]) :: rest, true)
      else '(rest', found) <- scan_groups rest wavelength ;;
           Ok (g :: rest', found)
  end.

Fixpoint grouping_loop (self : t) (rows : list row)
    (ion_groups : dict (list group)) : result (dict (list group)) :=
  match rows with
  | [] => Ok ion_groups
  | r :: rest =>
      let ion := Ion r in
      let wavelength := Wavelength r in
      if wavelength <? SpectrumData.min_wavelength (spectrum self)
      then grouping_loop self rest ion_groups
      else
        match dict_get ion_groups ion with
        | None =>
            grouping_loop self rest (dict_set ion_groups ion [[wavelength]])
        | Some groups =>
            '(groups', close_group_found) <- scan_groups groups wavelength ;;
            if negb close_group_found
            then grouping_loop self rest
                   (dict_set ion_groups ion (groups' ++ [[wavelength]]))
            else grouping_loop self rest (dict_set ion_groups ion groups')
        end
  end.

(** [EmissionLines.grouping_emission_lines(self)]. *)
Definition grouping_emission_lines (self : t) : result (dict (list group)) :=
  grouping_loop self (SpectrumData.rest_lam_data (spectrum self)) [].

End EmissionLines.

(* ================================================================== *)
(** ** Masks and the profile model *)

(** [(w > lo) & (w < hi)] on a numpy array. *)
Definition np_between (w : list float) (lo hi : float) : list bool :=
  map (fun x => (lo <? x) && (x <? hi)) w.

(** [a[mask]] with a boolean mask: the entries at the true positions;
    [IndexError] when the shapes differ. *)
Fixpoint np_select {A : Type} (mask : list bool) (a : list A) : result (list A) :=
  match mask, a with
  | [], [] => Ok []
  | b :: mask', x :: a' =>
      sel <- np_select mask' a' ;;
      Ok (if b then x :: sel else sel)
  | _, _ => Raise IndexError
  end.

(** [np.max]: the reduction of [np.maximum], which keeps the accumulator when
    it is NaN or not below the next entry; [ValueError] on an empty array. *)
Definition np_maximum (acc x : float) : float :=
  if (x <=? acc) || negb (acc =? acc) then acc else x.

Definition np_max (a : list float) : result float :=
  match a with
  | [] => Raise ValueError
  | x :: rest => Ok (fold_left np_maximum rest x)
  end.

(** The fit mask of a group (the mask of line 117). *)
Definition group_mask_of (w : list float) (g : group) (peak_width : float)
  : result (list bool) :=
  first <- py_index g 0 ;;
  last <- py_index g (length g - 1) ;;
  Ok (np_between w (first - peak_width) (last + peak_width)).

(** The amplitude-seed mask of one rest wavelength (the mask of line 120). *)
Definition wavelength_mask_of (w : list float) (wavelength peak_width : float)
  : list bool :=
  np_between w (wavelength - peak_width / 2) (wavelength + peak_width / 2).

(** The parameters of one [Voigt1D] component. *)
Record Voigt1D : Type := {
  x_0 : float;
  amplitude_L : float;
  fwhm_L : float;
  fwhm_G : float
}.

(** An astropy model: a single profile or the sum of two models, as [+]
    builds it. *)
Inductive Model : Type :=
| Voigt (v : Voigt1D)
| Compound (left right : Model).

Fixpoint submodels (m : Model) : list Voigt1D :=
  match m with
  | Voigt v => [v]
  | Compound l r => submodels l ++ submodels r
  end.

Definition n_submodels (m : Model) : nat := length (submodels m).

(** The loop over the rest wavelengths of a group (lines 118-129). *)
Fixpoint voigt_profiles_loop (w f : list float) (peak_width : float)
    (g : group) : result (list Voigt1D) :=
  match g with
  | [] => Ok []
  | wavelength :: rest =>
      let wavelength_mask := wavelength_mask_of w wavelength peak_width in
      let init_x0 := wavelength in
      window <- np_select wavelength_mask f ;;
      init_amp <- np_max window ;;
      let init_fwhm_g := 0.1 in
      let init_fwhm_l := 0.1 in
      let voigt_profile :=
        {| x_0 := init_x0; amplitude_L := init_amp;
           fwhm_L := init_fwhm_l; fwhm_G := init_fwhm_g |} in
      profiles <- voigt_profiles_loop w f peak_width rest ;;
      Ok (voigt_profile :: profiles)
  end.

(** [composite_model = voigt_profiles[0]], then [+=] every later profile
    (lines 144-146). *)
Definition combine_profiles (voigt_profiles : list Voigt1D) : result Model :=
  first <- py_index voigt_profiles 0 ;;
  Ok (fold_left (fun composite v => Compound composite (Voigt v))
                (tl voigt_profiles) (Voigt first)).

(** The profile model builder: the two steps above in sequence. *)
Definition build_composite_model (w f : list float) (peak_width : float)
    (g : group) : result Model :=
  voigt_profiles <- voigt_profiles_loop w f peak_width g ;;
  combine_profiles voigt_profiles.

(** [model.x_0.value]: only a single profile has a parameter of that name. *)
Definition model_x_0 (m : Model) : result float :=
  match m with
  | Voigt v => Ok (x_0 v)
  | Compound _ _ => Raise AttributeError
  end.

(** [model[i]]: the i-th component of a compound model; a single profile
    is not subscriptable. *)
Definition model_getitem (m : Model) (i : nat) : result Voigt1D :=
  match m with
  | Voigt _ => Raise TypeError
  | Compound _ _ => py_index (submodels m) i
  end.

(* ================================================================== *)
(** ** Module state, the figure window and the key callback *)

(** An instance of the class [emission_line]. *)
Record emission_line : Type := {
  wavelength_group : group;
  ion : string;
  obs_lam : option float;
  flux_mask : list bool;
  noise_bool : option bool;
  blended_bool : bool;
  fitted_model : option Model;
  continuum : option float
}.

(** What the user does with one displayed figure: close the window, or press
    a key ([event.key] is [None] for a key matplotlib cannot name). *)
Inductive ui_action : Type :=
| CloseFigure
| KeyPress (key : option string).

(** The state the code reads and writes: the three module-level lists, the
    [emission_line] instances they share by reference (an instance is named
    by its position in [objects]), the user's actions at the figures still to
    be shown, and the values appended to the Doppler log. *)
Record world : Type := {
  noise_bool_list : list bool;
  doppler_bool_list : list bool;
  objects : list emission_line;
  emission_line_list : list nat;
  key_events : list ui_action;
  doppler_log : list float
}.

Inductive outcome (A : Type) : Type :=
| Returns (a : A) (s : world)
| Raises (e : exn) (s : world).

Arguments Returns {A} a s.
Arguments Raises {A} e s.

Definition M (A : Type) : Type := world -> outcome A.

Definition ret {A : Type} (a : A) : M A := fun s => Returns a s.

Definition raise {A : Type} (e : exn) : M A := fun s => Raises e s.

Definition bind {A B : Type} (c : M A) (k : A -> M B) : M B :=
  fun s =>
    match c s with
    | Returns a s' => k a s'
    | Raises e s' => Raises e s'
    end.

Definition lift {A : Type} (r : result A) : M A :=
  match r with
  | Ok a => ret a
  | Raise e => raise e
  end.

Notation "x <~ c ;; k" := (bind c (fun x => k))
  (at level 61, c at next level, right associativity).
Notation "' pat <~ c ;; k" := (bind c (fun x => match x with pat => k end))
  (at level 61, pat pattern, c at next level, right associativity).

Definition append_noise_bool (b : bool) : M unit := fun s =>
  Returns tt
    {| noise_bool_list := noise_bool_list s ++ [b];
       doppler_bool_list := doppler_bool_list s;
       objects := objects s;
       emission_line_list := emission_line_list s;
       key_events := key_events s;
       doppler_log := doppler_log s |}.

Definition append_doppler_bool (b : bool) : M unit := fun s =>
  Returns tt
    {| noise_bool_list := noise_bool_list s;
       doppler_bool_list := doppler_bool_list s ++ [b];
       objects := objects s;
       emission_line_list := emission_line_list s;
       key_events := key_events s;
       doppler_log := doppler_log s |}.

(** Create an [emission_line] and append it to [emission_line_list]; the
    returned reference is what [group_emission_line_obj] holds. *)
Definition append_emission_line (obj : emission_line) : M nat := fun s =>
  let ref := length (objects s) in
  Returns ref
    {| noise_bool_list := noise_bool_list s;
       doppler_bool_list := doppler_bool_list s;
       objects := objects s ++ [obj];
       emission_line_list := emission_line_list s ++ [ref];
       key_events := key_events s;
       doppler_log := doppler_log s |}.

Fixpoint update_nth {A : Type} (xs : list A) (i : nat) (f : A -> A) : list A :=
  match xs, i with
  | [], _ => []
  | x :: rest, O => f x :: rest
  | x :: rest, S i' => x :: update_nth rest i' f
  end.

(** [obj.update_fitted_model(new_fitted_model)], on the shared instance. *)
Definition update_fitted_model (ref : nat) (new_fitted_model : Model) : M unit :=
  fun s =>
  Returns tt
    {| noise_bool_list := noise_bool_list s;
       doppler_bool_list := doppler_bool_list s;
       objects :=
         update_nth (objects s) ref (fun o =>
           {| wavelength_group := wavelength_group o;
              ion := ion o;
              obs_lam := obs_lam o;
              flux_mask := flux_mask o;
              noise_bool := noise_bool o;
              blended_bool := blended_bool o;
              fitted_model := Some new_fitted_model;
              continuum := continuum o |});
       emission_line_list := emission_line_list s;
       key_events := key_events s;
       doppler_log := doppler_log s |}.

(** The write to [doppler_filename] (the text formatting is not modelled). *)
Definition write_doppler (v : float) : M unit := fun s =>
  Returns tt
    {| noise_bool_list := noise_bool_list s;
       doppler_bool_list := doppler_bool_list s;
       objects := objects s;
       emission_line_list := emission_line_list s;
       key_events := key_events s;
       doppler_log := doppler_log s ++ [v] |}.

Definition valid_keys : list string := ["y"; "n"].

Definition key_in (key : option string) (keys : list string) : bool :=
  match key with
  | Some k => existsb (String.eqb k) keys
  | None => false
  end.

Definition key_is (key : option string) (k : string) : bool :=
  match key with
  | Some k' => String.eqb k' k
  | None => false
  end.

(** [on_key(event, purpose)], with [event.key] as its first argument.  The
    [plt.close()] of the two last branches ends the [plt.show()] that
    delivered the event. *)
Definition on_key (key : option string) (purpose : string) : M unit :=
  if negb (existsb (String.eqb purpose) ["Noise Detection"; "Doppler Calculation"])
  then raise (SystemExit
         "Invalid purpose, select 'Noise Detection' or 'Doppler Calculation'")
  else if negb (key_in key valid_keys)
  then raise (SystemExit "Invalid key input, select 'y' or 'n'")
  else if String.eqb purpose "Noise Detection"
  then append_noise_bool (key_is key "y")
  else if String.eqb purpose "Doppler Calculation"
  then append_doppler_bool (key_is key "y")
  else ret tt.

(** [plt.show()] on a figure whose [key_press_event] is connected to
    [on_key(event, purpose)]: it blocks until the figure is closed, by the
    user or by the callback. *)
Definition plt_show (purpose : string) : M unit := fun s =>
  match key_events s with
  | [] => Returns tt s
  | action :: later =>
      let s' :=
        {| noise_bool_list := noise_bool_list s;
           doppler_bool_list := doppler_bool_list s;
           objects := objects s;
           emission_line_list := emission_line_list s;
           key_events := later;
           doppler_log := doppler_log s |} in
      match action with
      | CloseFigure => Returns tt s'
      | KeyPress key => on_key key purpose s'
      end
  end.

(* ================================================================== *)
(** ** The fitting loop of [doppler_shift_calc] *)

(** [fitting.LevMarLSQFitter()] applied to a model and the masked data: the
    fitted copy of the model, or the exception the solver raised. *)
Definition Fitter : Type := Model -> list float -> list float -> result Model.

(** The local accumulators of [doppler_shift_calc]. *)
Record locals : Type := {
  rest_candidates : list (list float);
  obs_candidates : list (list float);
  emission_line_objs : list nat;
  all_fitted_models : list Model
}.

Definition no_locals : locals :=
  {| rest_candidates := []; obs_candidates := [];
     emission_line_objs := []; all_fitted_models := [] |}.

(** The loop of lines 169-178 that pairs every rest wavelength with the
    fitted centre of its component. *)
Fixpoint candidates_loop (fitted : Model) (len_group i : nat)
    (items : list float) (group_rest_candidates group_obs_candidates : list float)
  : result (list float * list float) :=
  match items with
  | [] => Ok (group_rest_candidates, group_obs_candidates)
  | wavelength :: later =>
      let group_rest_candidates := group_rest_candidates ++ [wavelength] in
      if (len_group =? 1)%nat
      then x <- model_x_0 fitted ;;
           Ok (group_rest_candidates, group_obs_candidates ++ [x])
      else c <- model_getitem fitted i ;;
           candidates_loop fitted len_group (S i) later
             group_rest_candidates (group_obs_candidates ++ [x_0 c])
  end.

(** The body of [for group in grouped_lines[ion]]. *)
Definition process_group (fitter : Fitter) (w f : list float)
    (peak_width : float) (ion_name : string) (g : group) (loc : locals)
  : M locals :=
  group_mask <~ lift (group_mask_of w g peak_width) ;;
  voigt_profiles <~ lift (voigt_profiles_loop w f peak_width g) ;;
  masked_flux <~ lift (np_select group_mask f) ;;
  group_emission_line_obj <~ append_emission_line
    {| wavelength_group := g;
       ion := ion_name;
       obs_lam := None;
       flux_mask := group_mask;
       noise_bool := None;
       blended_bool := (1 <? length masked_flux)%nat;
       fitted_model := None;
       continuum := None |} ;;
  composite_model <~ lift (combine_profiles voigt_profiles) ;;
  w_masked <~ lift (np_select group_mask w) ;;
  f_masked <~ lift (np_select group_mask f) ;;
  match fitter composite_model w_masked f_masked with
  | Raise RuntimeError => ret loc
  | Raise e => raise e
  | Ok fitted =>
      let all_fitted_models' := all_fitted_models loc ++ [fitted] in
      let emission_line_objs' :=
        emission_line_objs loc ++ [group_emission_line_obj] in
      '(group_rest_candidates, group_obs_candidates) <~
         lift (candidates_loop fitted (length g) 0 g [] []) ;;
      _ <~ plt_show "Doppler Calculation" ;;
      ret {| rest_candidates := rest_candidates loc ++ [group_rest_candidates];
             obs_candidates := obs_candidates loc ++ [group_obs_candidates];
             emission_line_objs := emission_line_objs';
             all_fitted_models := all_fitted_models' |}
  end.

Fixpoint groups_loop (fitter : Fitter) (w f : list float) (peak_width : float)
    (ion_name : string) (groups : list group) (loc : locals) : M locals :=
  match groups with
  | [] => ret loc
  | g :: later =>
      loc' <~ process_group fitter w f peak_width ion_name g loc ;;
      groups_loop fitter w f peak_width ion_name later loc'
  end.

Fixpoint ions_loop (fitter : Fitter) (w f : list float) (peak_width : float)
    (grouped_lines : dict (list group)) (ions : list string) (loc : locals)
  : M locals :=
  match ions with
  | [] => ret loc
  | ion_name :: later =>
      match dict_get grouped_lines ion_name with
      | None => raise KeyError
      | Some groups =>
          loc' <~ groups_loop fitter w f peak_width ion_name groups loc ;;
          ions_loop fitter w f peak_width grouped_lines later loc'
      end
  end.

(* ================================================================== *)
(** ** The Doppler aggregation of [doppler_shift_calc] *)

Definition c_km_s : float := 299792.458.

(** Modelled from the spec: the astropy conversion
    [u_obs_lam.to(u.km/u.s, equivalencies=u.doppler_optical(u_rest_lam))],
    which is library code outside the repository.  The optical Doppler
    relation is v = c (obs - rest) / rest, with c in km/s. *)
Definition doppler_optical (rest_lam obs_lam : float) : float :=
  c_km_s * (obs_lam - rest_lam) / rest_lam.

(** [len(xs)] as the float the division converts it to; a length is at most
    [sys.maxsize], below 2^63. *)
Definition py_len_float {A : Type} (xs : list A) : float :=
  of_uint63 (Uint63.of_Z (Z.of_nat (length xs))).

(** [sum(xs)]: the additions start from 0. *)
Definition py_sum (xs : list float) : float := fold_left PrimFloat.add xs 0.

(** [sum(xs)/len(xs)]: with no item it is the integer division 0/0. *)
Definition py_mean (xs : list float) : result float :=
  match xs with
  | [] => Raise ZeroDivisionError
  | _ :: _ => Ok (py_sum xs / py_len_float xs)
  end.

(** The loop of lines 202-205 over the rest wavelengths of group [i]. *)
Fixpoint group_doppler_loop (obs_candidates : list (list float)) (i j : nat)
    (rests : list float) (group_doppler : list float) : result (list float) :=
  match rests with
  | [] => Ok group_doppler
  | rest_wavelength :: later =>
      obs_i <- py_index obs_candidates i ;;
      obs <- py_index obs_i j ;;
      group_doppler_loop obs_candidates i (S j) later
        (group_doppler ++ [doppler_optical rest_wavelength obs])
  end.

(** The loop of lines 195-206 over the classification decisions. *)
Fixpoint decisions_loop (loc : locals) (i : nat) (decisions : list bool)
    (dv : list float) : M (list float) :=
  match decisions with
  | [] => ret dv
  | boolean :: later =>
      if boolean
      then
        obj <~ lift (py_index (emission_line_objs loc) i) ;;
        fitted <~ lift (py_index (all_fitted_models loc) i) ;;
        _ <~ update_fitted_model obj fitted ;;
        rests <~ lift (py_index (rest_candidates loc) i) ;;
        group_doppler <~
          lift (group_doppler_loop (obs_candidates loc) i 0 rests []) ;;
        v <~ lift (py_mean group_doppler) ;;
        decisions_loop loc (S i) later (dv ++ [v])
      else decisions_loop loc (S i) later dv
  end.

(** Lines 190-213: the two assertions, the velocities, their mean, the log. *)
Definition doppler_aggregate (loc : locals) : M float := fun s =>
  let decisions := doppler_bool_list s in
  if negb (0 <? length decisions)%nat
  then Raises (AssertionError
         "You didn't click 'y' and 'n' to choose did you?") s
  else if negb (length decisions =? length (rest_candidates loc))%nat
  then Raises (AssertionError
         "Did you click out of the figure instead of clicking 'y' or 'n'?") s
  else
    (dv <~ decisions_loop loc 0 decisions [] ;;
     doppler_shift <~ lift (py_mean dv) ;;
     _ <~ write_doppler doppler_shift ;;
     ret doppler_shift) s.

(** [doppler_shift_calc(grouped_lines, w, f, flux_range, peak_width,
    doppler_filename)]; the file is the [doppler_log] of the state. *)
Definition doppler_shift_calc (fitter : Fitter)
    (grouped_lines : dict (list group)) (w f : list float)
    (flux_range peak_width : float) : M float :=
  loc <~ ions_loop fitter w f peak_width grouped_lines
           (dict_keys grouped_lines) no_locals ;;
  doppler_aggregate loc.

(* ================================================================== *)
(** ** The grouper as a map from ion to groups *)

(** [max(group)] as a total function: the value [py_max] returns on a
    non-empty group. *)
Definition max_of (g : group) : float :=
  match g with
  | [] => neg_infinity
  | x :: rest => fold_left py_max_step rest x
  end.

(** The test of line 89 on a non-empty group. *)
Definition joins_group (wavelength : float) (g : group) : bool :=
  abs (max_of g - wavelength) <=? 10.

(** Position of the first item that satisfies [p]. *)
Fixpoint first_matching {A : Type} (p : A -> bool) (xs : list A) : option nat :=
  match xs with
  | [] => None
  | x :: rest => if p x then Some O else option_map S (first_matching p rest)
  end.

(** What lines 86-96 do to the groups of the ion of a row. *)
Definition place_in_groups (groups : list group) (wavelength : float)
  : list group :=
  match first_matching (joins_group wavelength) groups with
  | Some i => update_nth groups i (fun g => g ++ [wavelength])
  | None => groups ++ [[wavelength]]
  end.

(** The dictionary of the grouper, as a map from ion to group list, after
    one more catalog row.  An ion without a key maps to the empty list. *)
Definition grouper_map_row (min_wavelength : float)
    (m : string -> list group) (r : row) : string -> list group :=
  if Wavelength r <? min_wavelength then m
  else fun i =>
    if String.eqb i (Ion r) then place_in_groups (m i) (Wavelength r) else m i.

Definition grouper_map (min_wavelength : float) (rows : list row)
  : string -> list group :=
  fold_left (grouper_map_row min_wavelength) rows (fun _ => []).

(* ------------------------------------------------------------------ *)
(** ** The grouping rule in the words of the specification *)

(** The current maximum of a group: its first member that no member of the
    group exceeds. *)
Definition current_maximum (g : group) : float :=
  match find (fun m => forallb (fun x => negb (m <? x)) g) g with
  | Some m => m
  | None => neg_infinity
  end.

(** A wavelength may join a group when it is within the tolerance (10) of
    the group's current maximum. *)
Definition within_tolerance (wavelength : float) (g : group) : bool :=
  abs (current_maximum g - wavelength) <=? 10.

(** Append to the first group within tolerance; with no such group, start a
    new singleton group. *)
Definition place_wavelength (groups : list group) (wavelength : float)
  : list group :=
  match first_matching (within_tolerance wavelength) groups with
  | Some i => update_nth groups i (fun g => g ++ [wavelength])
  | None => groups ++ [[wavelength]]
  end.

(** The mapping from ion to group list after one more catalog row: a row
    below the cutoff is dropped, any other row is placed among the groups of
    its ion.  An ion without a group maps to the empty list. *)
Definition grouping_spec_row (min_wavelength : float)
    (m : string -> list group) (r : row) : string -> list group :=
  if Wavelength r <? min_wavelength then m
  else fun i =>
    if String.eqb i (Ion r) then place_wavelength (m i) (Wavelength r) else m i.

Definition grouping_spec (min_wavelength : float) (rows : list row)
  : string -> list group :=
  fold_left (grouping_spec_row min_wavelength) rows (fun _ => []).

(** A group the rule can take a maximum of without meeting a NaN: a single
    wavelength, or wavelengths that are all numbers. *)
Definition comparable (g : group) : Prop :=
  (exists x, g = [x]) \/ Forall (fun x => is_nan x = false) g.

(** The groups a dictionary holds for an ion ([None] when it has no key). *)
Definition groups_as_entry (groups : list group) : option (list group) :=
  match groups with
  | [] => None
  | _ :: _ => Some groups
  end.

(** Every member after the first was within tolerance of the running
    maximum of the members before it -- the group as it was when the member
    was appended. *)
Definition chain_within_tolerance (g : group) : Prop :=
  forall before y after,
    g = before ++ y :: after -> before <> [] ->
    exists m, py_max before = Ok m /\ (abs (m - y) <=? tolerance) = true.

(** A chain that grew monotonically: every member is above the previous one. *)
Definition grew_monotonically (g : group) : Prop :=
  Sorted (fun a b => (a <? b) = true) g.

(** The raw distance between two wavelengths. *)
Definition distance (x y : float) : float := abs (x - y).

(** Two consecutive members farther apart than the tolerance. *)
Definition consecutive_gap_exceeds (g : group) : Prop :=
  exists before x y after,
    g = before ++ x :: y :: after /\ (distance x y <=? tolerance) = false.

(** A group of the grouper's output for some catalog and cutoff. *)
Definition grouped (g : group) : Prop :=
  exists min_wavelength rows d i groups,
    grouping_emission_lines min_wavelength rows = Ok d /\
    dict_get d i = Some groups /\ In g groups.

(** The dictionary [d] holds the mapping [m]: the same groups for every ion,
    no empty group, no key twice. *)
Definition holds (d : dict (list group)) (m : string -> list group) : Prop :=
  (forall i, dict_get d i = groups_as_entry (m i)) /\
  (forall i, Forall (fun g => g <> []) (m i)) /\
  NoDup (dict_keys d).

(** The wording "consecutive members may be farther apart than the tolerance
    when the chain grew monotonically", as a statement about the grouper. *)
Definition monotone_chain_with_wide_gap : Prop :=
  exists g, grouped g /\ grew_monotonically g /\ consecutive_gap_exceeds g.

(** The catalog of the end-to-end scenario. *)
Definition O_I_catalog : list row :=
  [ {| Ion := "O_I"; Wavelength := 1302.0 |};
    {| Ion := "O_I"; Wavelength := 1304.5 |};
    {| Ion := "O_I"; Wavelength := 1306.0 |} ].

(** A chain whose ends are farther apart than the tolerance. *)
Definition chained_catalog : list row :=
  [ {| Ion := "O_I"; Wavelength := 1302.0 |};
    {| Ion := "O_I"; Wavelength := 1310.0 |};
    {| Ion := "O_I"; Wavelength := 1318.0 |} ].

(** A catalog that is not ascending. *)
Definition unordered_catalog : list row :=
  [ {| Ion := "O_I"; Wavelength := 1300.0 |};
    {| Ion := "O_I"; Wavelength := 1295.0 |};
    {| Ion := "O_I"; Wavelength := 1309.0 |} ].

(* ------------------------------------------------------------------ *)
(** ** The order of the binary64 numbers by their representation *)

(** The place of a number in the order: the class of the number (infinite,
    finite or zero, with its sign), then its exponent, then its mantissa.
    Two numbers compare as their keys do. *)
Definition float_key (x : float) : Z * Z * Z :=
  match Prim2SF x with
  | S754_zero _ => (0, 0, 0)%Z
  | S754_infinity s => (if s then -2 else 2, 0, 0)%Z
  | S754_nan => (0, 0, 0)%Z
  | S754_finite s m e => if s then (-1, - e, Zneg m)%Z else (1, e, Zpos m)%Z
  end.

(** The lexicographic order of the keys. *)
Definition key_lt (p q : Z * Z * Z) : Prop :=
  (fst (fst p) < fst (fst q) \/
   (fst (fst p) = fst (fst q) /\
    (snd (fst p) < snd (fst q) \/
     (snd (fst p) = snd (fst q) /\ snd p < snd q))))%Z.

(* ------------------------------------------------------------------ *)
(** ** Windows and seeds in the words of the specification *)

(** [x] lies in the open interval (lo, hi). *)
Definition in_open_interval (lo hi x : float) : bool := (lo <? x) && (x <? hi).

(** A spectrum sample: a wavelength with the flux observed there. *)
Definition samples (w f : list float) : list (float * float) := combine w f.

(** The samples whose wavelength lies in (lo, hi). *)
Definition samples_within (lo hi : float) (w f : list float)
  : list (float * float) :=
  filter (fun s => in_open_interval lo hi (fst s)) (samples w f).

(** A group spans from its first member to its last: the grouper appends
    in catalog order, which is ascending for every ion. *)
Definition spans (g : group) (w_min w_max : float) : Prop :=
  hd_error g = Some w_min /\ hd_error (rev g) = Some w_max.





(** The component seeded for one rest wavelength. *)
Definition seeded_component (rest amplitude : float) : Voigt1D :=
  {| x_0 := rest; amplitude_L := amplitude; fwhm_L := 0.1; fwhm_G := 0.1 |}.

(** A short spectrum for the examples: eight samples one unit apart. *)
Definition example_w : list float :=
  [1300.0; 1301.0; 1302.0; 1303.0; 1304.0; 1305.0; 1306.0; 1307.0].

Definition example_f : list float := [1.0; 2.0; 5.0; 3.0; 2.0; 4.0; 9.0; 1.0].

Definition example_group : group := [1302.0; 1304.5; 1306.0].

Definition example_spectrum : SpectrumData.t :=
  {| SpectrumData.grating := "G140L";
     SpectrumData.resolution := "HIGH";
     SpectrumData.min_wavelength := 1160.0;
     SpectrumData.max_wavelength := 1700.0;
     SpectrumData.wavelength_data := example_w;
     SpectrumData.flux_data := example_f;
     SpectrumData.error_data := example_f;
     SpectrumData.rest_lam_data := O_I_catalog |}.

(* ------------------------------------------------------------------ *)
(** ** Reading the fitting loop *)

(** What [process_group] computes from the spectrum before it calls the
    fitter: the fit mask, the composite model and the masked data. *)
Definition prepare_group (w f : list float) (peak_width : float) (g : group)
  : result (list bool * Model * list float * list float) :=
  group_mask <- group_mask_of w g peak_width ;;
  composite_model <- build_composite_model w f peak_width g ;;
  w_masked <- np_select group_mask w ;;
  f_masked <- np_select group_mask f ;;
  Ok (group_mask, composite_model, w_masked, f_masked).

(** The record [process_group] creates for a group. *)
Definition new_emission_line (ion_name : string) (g : group)
    (group_mask : list bool) (f_masked : list float) : emission_line :=
  {| wavelength_group := g;
     ion := ion_name;
     obs_lam := None;
     flux_mask := group_mask;
     noise_bool := None;
     blended_bool := (1 <? length f_masked)%nat;
     fitted_model := None;
     continuum := None |}.

(** The state after [emission_line_list.append(obj)]. *)
Definition with_emission_line (s : world) (obj : emission_line) : world :=
  {| noise_bool_list := noise_bool_list s;
     doppler_bool_list := doppler_bool_list s;
     objects := objects s ++ [obj];
     emission_line_list := emission_line_list s ++ [length (objects s)];
     key_events := key_events s;
     doppler_log := doppler_log s |}.

(** The solver fails on the candidate of group [g]. *)
Definition fit_fails (fitter : Fitter) (w f : list float) (peak_width : float)
    (g : group) : Prop :=
  exists group_mask composite_model w_masked f_masked,
    prepare_group w f peak_width g
      = Ok (group_mask, composite_model, w_masked, f_masked) /\
    fitter composite_model w_masked f_masked = Raise RuntimeError.

(** The wording "a candidate whose fit fails is dropped entirely": its
    group leaves no trace in the local accumulators nor in the module-level
    lists. *)
Definition failed_candidate_dropped_entirely : Prop :=
  forall fitter w f peak_width ion_name g loc s,
    fit_fails fitter w f peak_width g ->
    exists s',
      process_group fitter w f peak_width ion_name g loc s = Returns loc s' /\
      doppler_bool_list s' = doppler_bool_list s /\
      noise_bool_list s' = noise_bool_list s /\
      emission_line_list s' = emission_line_list s.

(** A solver that never converges, and one that returns the model as given. *)
Definition never_converges : Fitter := fun _ _ _ => Raise RuntimeError.
Definition fits_as_seeded : Fitter := fun model _ _ => Ok model.

(** A solver that finds every line [d] above its rest wavelength. *)
Fixpoint shift_centres (d : float) (m : Model) : Model :=
  match m with
  | Voigt v =>
      Voigt {| x_0 := x_0 v + d; amplitude_L := amplitude_L v;
               fwhm_L := fwhm_L v; fwhm_G := fwhm_G v |}
  | Compound l r => Compound (shift_centres d l) (shift_centres d r)
  end.

Definition fits_shifted_by (d : float) : Fitter :=
  fun model _ _ => Ok (shift_centres d model).

Definition empty_world (actions : list ui_action) : world :=
  {| noise_bool_list := []; doppler_bool_list := []; objects := [];
     emission_line_list := []; key_events := actions; doppler_log := [] |}.



(** The locals after a classified candidate. *)
Definition with_candidate (loc : locals) (rests obss : list float)
    (obj : nat) (fitted : Model) : locals :=
  {| rest_candidates := rest_candidates loc ++ [rests];
     obs_candidates := obs_candidates loc ++ [obss];
     emission_line_objs := emission_line_objs loc ++ [obj];
     all_fitted_models := all_fitted_models loc ++ [fitted] |}.

(** The state after the next user action was consumed and a decision was
    appended to [doppler_bool_list]. *)
Definition with_decision (s : world) (later : list ui_action) (b : bool)
  : world :=
  {| noise_bool_list := noise_bool_list s;
     doppler_bool_list := doppler_bool_list s ++ [b];
     objects := objects s;
     emission_line_list := emission_line_list s;
     key_events := later;
     doppler_log := doppler_log s |}.

Definition with_key_events (s : world) (later : list ui_action) : world :=
  {| noise_bool_list := noise_bool_list s;
     doppler_bool_list := doppler_bool_list s;
     objects := objects s;
     emission_line_list := emission_line_list s;
     key_events := later;
     doppler_log := doppler_log s |}.

Definition invalid_key_exit : exn :=
  SystemExit "Invalid key input, select 'y' or 'n'".


(* ------------------------------------------------------------------ *)
(** ** The Doppler estimate in the words of the specification *)

(** The sum of values taken in their order.  [values] lists them from the
    last to the first: the sum of no value is 0, and the sum of the values
    up to and including [x] is the sum of the values before [x], plus [x]. *)
Fixpoint sum_from_last (values : list float) : float :=
  match values with
  | [] => 0
  | x :: before => sum_from_last before + x
  end.

Definition sum_in_order (xs : list float) : float := sum_from_last (rev xs).

(** The number of values, as a binary64 number. *)
Definition count_of (xs : list float) : float :=
  of_uint63 (Uint63.of_Z (Z.of_nat (length xs))).

(** The arithmetic mean of values: their sum divided by their number. *)
Definition arithmetic_mean (xs : list float) : float :=
  sum_in_order xs / count_of xs.

(** The velocity of a group: the mean, over its (rest, observed) pairs, of
    the optical Doppler velocity. *)
Definition group_velocity (rests_obss : list float * list float) : float :=
  arithmetic_mean
    (map (fun p => doppler_optical (fst p) (snd p))
         (combine (fst rests_obss) (snd rests_obss))).

(** The (rest, observed) lists of the accepted groups, in processing order. *)
Definition accepted_groups (decisions : list bool)
    (rest obs : list (list float)) : list (list float * list float) :=
  map snd (filter fst (combine decisions (combine rest obs))).

(** What the fitting loop maintains: the four accumulators grow together,
    and every candidate pairs each of its rest wavelengths, of which it has
    at least one, with an observed wavelength. *)
Definition locals_wf (loc : locals) : Prop :=
  length (emission_line_objs loc) = length (rest_candidates loc) /\
  length (all_fitted_models loc) = length (rest_candidates loc) /\
  Forall2 (fun rests obss => rests <> [] /\ length obss = length rests)
          (rest_candidates loc) (obs_candidates loc).

(** Two states that differ at most in the [emission_line] instances. *)
Definition same_lists (s s' : world) : Prop :=
  noise_bool_list s' = noise_bool_list s /\
  doppler_bool_list s' = doppler_bool_list s /\
  emission_line_list s' = emission_line_list s /\
  key_events s' = key_events s /\
  doppler_log s' = doppler_log s /\
  length (objects s') = length (objects s).

(** A wavelength: a positive finite number. *)
Definition is_wavelength (x : float) : bool := (0 <? x) && (x <? infinity).

(** [sys.maxsize], the largest length of a Python list. *)
Definition sys_maxsize : Z := (2 ^ 63 - 1)%Z.

Definition no_decision_error : exn :=
  AssertionError "You didn't click 'y' and 'n' to choose did you?".

Definition decision_count_error : exn :=
  AssertionError
    "Did you click out of the figure instead of clicking 'y' or 'n'?".


(** The end-to-end scenario: the O_I group, found one unit above its rest
    wavelengths and accepted with the key 'y'. *)
Definition scenario_lines : dict (list group) := [("O_I", [example_group])].

Definition scenario_start : world := empty_world [KeyPress (Some "y")].

Definition scenario_loop : outcome locals :=
  ions_loop (fits_shifted_by 1) example_w example_f 2 scenario_lines
    (dict_keys scenario_lines) no_locals scenario_start.

Definition scenario_locals : locals :=
  match scenario_loop with
  | Returns loc _ => loc
  | Raises _ _ => no_locals
  end.

Definition scenario_world : world :=
  match scenario_loop with
  | Returns _ s => s
  | Raises _ s => s
  end.


(** The value a computation returns, or the exception it raises, without
    the final state. *)
Definition value_of {A : Type} (o : outcome A) : result A :=
  match o with
  | Returns a _ => Ok a
  | Raises e _ => Raise e
  end.


(** The catalog of the scenario with its second ion. *)
Definition two_ion_catalog : list row :=
  O_I_catalog ++ [ {| Ion := "C_IV"; Wavelength := 1550.0 |} ].


(* ------------------------------------------------------------------ *)
(** ** The catalog as the grouper reads it *)

(** A row the grouper keeps: its wavelength is not below the cutoff. *)
Definition kept (min_wavelength : float) (r : row) : bool :=
  negb (Wavelength r <? min_wavelength).

(** The wavelengths of the kept rows of an ion, in catalog order. *)
Definition kept_wavelengths (min_wavelength : float) (i : string)
    (rows : list row) : list float :=
  map Wavelength
      (filter (fun r => kept min_wavelength r && String.eqb (Ion r) i) rows).

(** The distinct items of a list, in the order of their first appearance. *)
Definition first_appearances (names : list string) : list string :=
  fold_left (fun seen i => if existsb (String.eqb i) seen then seen
                           else seen ++ [i])
            names [].

(** [xs] is [ys] with some items left out, the others in the same order. *)
Inductive subsequence {A : Type} : list A -> list A -> Prop :=
| subsequence_nil : subsequence [] []
| subsequence_skip (y : A) (xs ys : list A) :
    subsequence xs ys -> subsequence xs (y :: ys)
| subsequence_take (x : A) (xs ys : list A) :
    subsequence xs ys -> subsequence (x :: xs) (x :: ys).


(* ------------------------------------------------------------------ *)
(** ** Shapes of models and final states *)

(** Two models are sums of the same form. *)
Fixpoint same_shape (m m' : Model) : bool :=
  match m, m' with
  | Voigt _, Voigt _ => true
  | Compound l r, Compound l' r' => same_shape l l' && same_shape r r'
  | _, _ => false
  end.

(** The state a computation ends in, whether it returns or raises. *)
Definition final_state {A : Type} (o : outcome A) : world :=
  match o with
  | Returns _ s => s
  | Raises _ s => s
  end.

(** All the groups of a dictionary with their ion, in the order in which the
    fitting loop takes them. *)
Definition all_groups (grouped_lines : dict (list group))
  : list (string * group) :=
  concat (map (fun entry => map (pair (fst entry)) (snd entry)) grouped_lines).


(** A computation keeps the relation [R] between the state it starts in and
    the state it ends in, whether it returns or raises. *)
Definition keeps {A : Type} (R : world -> world -> Prop) (c : M A) : Prop :=
  forall s, R s (final_state (c s)).

(** The fitting loop leaves the noise decisions and the Doppler log alone. *)
Definition same_noise_and_log (s s' : world) : Prop :=
  noise_bool_list s' = noise_bool_list s /\ doppler_log s' = doppler_log s.

(** The lists of the state only grow at their end, the instances are never
    removed, and the user's actions are only taken from the front. *)
Definition only_appends (s s' : world) : Prop :=
  noise_bool_list s' = noise_bool_list s /\
  (exists decisions, doppler_bool_list s' = doppler_bool_list s ++ decisions) /\
  (exists refs, emission_line_list s' = emission_line_list s ++ refs) /\
  (exists values, doppler_log s' = doppler_log s ++ values) /\
  (exists used, key_events s = used ++ key_events s') /\
  (length (objects s) <= length (objects s'))%nat.


(** The record the fitting loop creates for a group of an ion. *)
Definition group_record (w f : list float) (peak_width : float)
    (ion_group : string * group) : result emission_line :=
  '(group_mask, _, _, f_masked) <-
     prepare_group w f peak_width (snd ion_group) ;;
  Ok (new_emission_line (fst ion_group) (snd ion_group) group_mask f_masked).

(** What showing the figure of a candidate does to the state [s1] when it
    returns: no action is left, the user closes the window, or the user
    presses 'y' or 'n'. *)
Definition shown_outcome (s1 s2 : world) : Prop :=
  (key_events s1 = [] /\ s2 = s1) \/
  (exists later,
     key_events s1 = CloseFigure :: later /\ s2 = with_key_events s1 later) \/
  (exists accept later,
     key_events s1 = KeyPress (Some (if accept : bool then "y" else "n")) :: later /\
     s2 = with_decision s1 later accept).

Definition is_key_press (action : ui_action) : bool :=
  match action with
  | KeyPress _ => true
  | CloseFigure => false
  end.


(** The fitting loop created one record for each of the groups [items]. *)
Definition records_created (w f : list float) (peak_width : float)
    (loc : locals) (s : world) (items : list (string * group))
    (loc' : locals) (s' : world) : Prop :=
  exists records,
    Forall2 (fun ion_group record =>
               group_record w f peak_width ion_group = Ok record)
            items records /\
    objects s' = objects s ++ records /\
    emission_line_list s'
      = emission_line_list s ++ seq (length (objects s)) (length items).


(** What a user action at a figure leaves in [doppler_bool_list]: a key
    press that [on_key] accepts leaves one decision, closing the window
    leaves none. *)
Definition decision_of (action : ui_action) : list bool :=
  match action with
  | KeyPress key => [key_is key "y"]
  | CloseFigure => []
  end.

(** The fitting loop showed [shown] figures for the groups [items]: it took
    that many user actions, as far as there were any, and appended their
    decisions. *)
Definition figures_shown (loc : locals) (s : world)
    (items : list (string * group)) (loc' : locals) (s' : world) : Prop :=
  exists shown,
    length (rest_candidates loc') = (length (rest_candidates loc) + shown)%nat /\
    (shown <= length items)%nat /\
    key_events s' = skipn shown (key_events s) /\
    doppler_bool_list s'
      = doppler_bool_list s
        ++ flat_map decision_of (firstn shown (key_events s)).


(** An instance after [update_fitted_model(new_fitted_model)]. *)
Definition with_fitted_model (o : emission_line) (new_fitted_model : Model)
  : emission_line :=
  {| wavelength_group := wavelength_group o;
     ion := ion o;
     obs_lam := obs_lam o;
     flux_mask := flux_mask o;
     noise_bool := noise_bool o;
     blended_bool := blended_bool o;
     fitted_model := Some new_fitted_model;
     continuum := continuum o |}.

(** The instances the fitting loop keeps in [emission_line_objs] for the
    groups [items] are instances it created itself, each one once and in the
    order of their creation. *)
Definition candidates_refer (loc : locals) (s : world)
    (items : list (string * group)) (loc' : locals) (s' : world) : Prop :=
  exists refs,
    emission_line_objs loc' = emission_line_objs loc ++ refs /\
    StronglySorted lt refs /\
    Forall (fun ref => (length (objects s) <= ref < length (objects s'))%nat)
           refs /\
    (length (objects s) <= length (objects s'))%nat.


(* ------------------------------------------------------------------ *)
(** ** The spectrum as [SpectrumData] loads it *)

(** Lines 55-68 of [SpectrumData._load_data(self)], on the three arrays
    [_extract_data] has returned and the catalog [pd.read_csv] has read: the
    wavelength mask of lines 58-61, the catalog of line 64 and the peak width
    of line 68.  [self] carries the attributes that lines 42-50 take from the
    configuration; the value is the object with its arrays and the triple
    ([line_width], [line_width_pixels], [flux_range]).  The smoothing of
    lines 71-72, a scipy filter, is not applied. *)
Definition _load_data (self : SpectrumData.t)
    (wavelength_data flux_data error_data : list float)
    (rest_lam_data : list row)
  : result (SpectrumData.t * (float * Z * float)) :=
  let mask :=
    np_between wavelength_data (SpectrumData.min_wavelength self)
               (SpectrumData.max_wavelength self) in
  masked_wavelength <- np_select mask wavelength_data ;;
  masked_flux <- np_select mask flux_data ;;
  masked_error <- np_select mask error_data ;;
  let self' :=
    {| SpectrumData.grating := SpectrumData.grating self;
       SpectrumData.resolution := SpectrumData.resolution self;
       SpectrumData.min_wavelength := SpectrumData.min_wavelength self;
       SpectrumData.max_wavelength := SpectrumData.max_wavelength self;
       SpectrumData.wavelength_data := masked_wavelength;
       SpectrumData.flux_data := masked_flux;
       SpectrumData.error_data := masked_error;
       SpectrumData.rest_lam_data := rest_lam_data |} in
  widths <- SpectrumData.peak_width_finder self' ;;
  Ok (self', widths).

(** The samples of a spectrum file: wavelength, flux and error. *)
Definition file_samples (wavelength_data flux_data error_data : list float)
  : list (float * (float * float)) :=
  combine wavelength_data (combine flux_data error_data).


(** A spectrum whose first two wavelengths coincide. *)
Definition repeated_w : list float := [1300.0; 1300.0; 1301.0].

Definition repeated_spectrum : SpectrumData.t :=
  {| SpectrumData.grating := "G130M";
     SpectrumData.resolution := "HIGH";
     SpectrumData.min_wavelength := 1200;
     SpectrumData.max_wavelength := 1400;
     SpectrumData.wavelength_data := repeated_w;
     SpectrumData.flux_data := [1; 2; 3];
     SpectrumData.error_data := [0; 0; 0];
     SpectrumData.rest_lam_data := [] |}.


(* ------------------------------------------------------------------ *)
(** ** The class [Emission_Line] and the rows [save_data] writes *)

(** The Python values an attribute of an [Emission_Line] holds here: [None],
    a bool, a float, a str or a list of such values. *)
#[warnings="-register-all"]
Inductive pyval : Type :=
| PyNone
| PyBool (b : bool)
| PyFloat (x : float)
| PyStr (s : string)
| PyList (items : list pyval).

(** [obj.name]: the attributes of an instance are the entries of its
    [__dict__]; a name that was never assigned raises [AttributeError]. *)
Definition getattr (self : dict pyval) (name : string) : result pyval :=
  match dict_get self name with
  | Some v => Ok v
  | None => Raise AttributeError
  end.

(** [xs[i]] with a signed index: a negative index counts from the end. *)
Definition py_getitem_seq {A : Type} (xs : list A) (i : Z) : result A :=
  let n := Z.of_nat (length xs) in
  let i' := if (i <? 0)%Z then (i + n)%Z else i in
  if ((i' <? 0) || (n <=? i'))%Z then Raise IndexError
  else py_index xs (Z.to_nat i').

(** [v[i]]: lists and strings are subscriptable, the other values are not. *)
Definition py_getitem (v : pyval) (i : Z) : result pyval :=
  match v with
  | PyList items => py_getitem_seq items i
  | PyStr s =>
      c <- py_getitem_seq (list_ascii_of_string s) i ;;
      Ok (PyStr (String c EmptyString))
  | PyNone | PyBool _ | PyFloat _ => Raise TypeError
  end.

(** [float(v)]; the parser of strings, [str_to_float], is the built-in's. *)
Definition py_float (str_to_float : string -> result float) (v : pyval)
  : result float :=
  match v with
  | PyFloat x => Ok x
  | PyBool b => Ok (if b then 1 else 0)
  | PyStr s => str_to_float s
  | PyNone | PyList _ => Raise TypeError
  end.

Module Emission_Line.

(** An instance of the class, as its [__dict__]. *)
Definition t : Type := dict pyval.

(** [Emission_Line.__init__]: the nine assignments, in order. *)
Definition init (ion group_lam obs_lam noise_bool blended_bool
    doppler_candidate model_params continuum flux_error : pyval) : t :=
  let self := dict_set [] "ion" ion in
  let self := dict_set self "group_lam" group_lam in
  let self := dict_set self "obs_lam" obs_lam in
  let self := dict_set self "noise_bool" noise_bool in
  let self := dict_set self "blended_bool" blended_bool in
  let self := dict_set self "doppler_candidate" doppler_candidate in
  let self := dict_set self "model_params" model_params in
  let self := dict_set self "continuum" continuum in
  dict_set self "flux_error" flux_error.

Definition update_doppler_candidate (self : t) (is_doppler_candidate : pyval)
  : t :=
  dict_set self "doppler_candidate" is_doppler_candidate.

Definition update_flux_error (self : t) (new_flux new_error : pyval) : t :=
  dict_set self "flux_error" (PyList [new_flux; new_error]).

(** [emission_line_to_dict(self)]: the entries of the dictionary display are
    evaluated from left to right. *)
Definition emission_line_to_dict (str_to_float : string -> result float)
    (self : t) : result (dict pyval) :=
  wavelength_group <- getattr self "wavelength_group" ;;
  ion <- getattr self "ion" ;;
  obs_lam <- getattr self "obs_lam" ;;
  obs_lam <- py_float str_to_float obs_lam ;;
  noise_bool <- getattr self "noise_bool" ;;
  blended_bool <- getattr self "blended_bool" ;;
  continuum <- getattr self "continuum" ;;
  continuum <- py_float str_to_float continuum ;;
  flux_error <- getattr self "flux_error" ;;
  Ok [("wavelength_group", wavelength_group);
      ("ion", ion);
      ("obs_lam", PyFloat obs_lam);
      ("noise_bool", noise_bool);
      ("blended_bool", blended_bool);
      ("doppler_candidate", PyNone);
      ("fitted_model", PyNone);
      ("continuum", PyFloat continuum);
      ("flux_error", flux_error)].

(** The instances the class itself produces: built by the constructor, then
    changed by its two update methods only. *)
Inductive constructed : t -> Prop :=
| constructed_init (ion group_lam obs_lam noise_bool blended_bool
    doppler_candidate model_params continuum flux_error : pyval) :
    constructed (init ion group_lam obs_lam noise_bool blended_bool
                   doppler_candidate model_params continuum flux_error)
| constructed_update_doppler_candidate (self : t) (v : pyval) :
    constructed self -> constructed (update_doppler_candidate self v)
| constructed_update_flux_error (self : t) (new_flux new_error : pyval) :
    constructed self -> constructed (update_flux_error self new_flux new_error).

(** A constructed line whose last flux measurement is ([flux], [error]). *)
Inductive measured : t -> pyval -> pyval -> Prop :=
| measured_update_flux_error (self : t) (flux error : pyval) :
    constructed self -> measured (update_flux_error self flux error) flux error
| measured_update_doppler_candidate (self : t) (flux error v : pyval) :
    measured self flux error ->
    measured (update_doppler_candidate self v) flux error.

End Emission_Line.

(** The dictionary display of [SpectrumData._prepare_data_list], for one
    line. *)
Definition prepare_data_row (line : Emission_Line.t) : result (dict pyval) :=
  ion <- getattr line "ion" ;;
  group_lam <- getattr line "group_lam" ;;
  rest_wavelength <- py_getitem group_lam (-1) ;;
  flux_error <- getattr line "flux_error" ;;
  flux <- py_getitem flux_error 0 ;;
  flux_error <- getattr line "flux_error" ;;
  error <- py_getitem flux_error 1 ;;
  blended_bool <- getattr line "blended_bool" ;;
  Ok [("Ion", ion);
      ("Rest Wavelength", rest_wavelength);
      ("Flux", flux);
      ("Error", error);
      ("Blended Line", blended_bool)].

(** [SpectrumData._prepare_data_list(self, emission_lines)], on
    [emission_lines.line_list]: the list comprehension over the lines. *)
Fixpoint _prepare_data_list (line_list : list Emission_Line.t)
  : result (list (dict pyval)) :=
  match line_list with
  | [] => Ok []
  | line :: later =>
      data <- prepare_data_row line ;;
      rest <- _prepare_data_list later ;;
      Ok (data :: rest)
  end.

(** The attribute names an instance of [Emission_Line] has. *)
Definition Emission_Line_attributes : list string :=
  ["ion"; "group_lam"; "obs_lam"; "noise_bool"; "blended_bool";
   "doppler_candidate"; "model_params"; "continuum"; "flux_error"].

(** What a saved row says of the line it was made from. *)
Definition row_of_line (data : dict pyval) (line : Emission_Line.t) : Prop :=
  dict_keys data
  = ["Ion"; "Rest Wavelength"; "Flux"; "Error"; "Blended Line"] /\
  dict_get data "Ion" = dict_get line "ion" /\
  dict_get data "Blended Line" = dict_get line "blended_bool" /\
  exists group_lam,
    dict_get line "group_lam" = Some (PyList group_lam) /\
    dict_get data "Rest Wavelength" = Some (last group_lam PyNone).

(** A line with a flux measurement and at least one wavelength. *)
Definition measured_line (line : Emission_Line.t) (measurement : pyval * pyval)
  : Prop :=
  Emission_Line.measured line (fst measurement) (snd measurement) /\
  exists group_lam,
    dict_get line "group_lam" = Some (PyList group_lam) /\ group_lam <> [].

(** An O I line as the constructor makes it, not yet measured. *)
Definition example_line : Emission_Line.t :=
  Emission_Line.init (PyStr "O_I") (PyList [PyFloat 1302.0; PyFloat 1304.5])
    PyNone PyNone (PyBool true) PyNone PyNone PyNone PyNone.


(** A catalog with a missing wavelength, which [pd.read_csv] reads as NaN. *)
Definition catalog_with_nan : list row :=
  [ {| Ion := "O_I"; Wavelength := 1302.0 |};
    {| Ion := "O_I"; Wavelength := nan |};
    {| Ion := "O_I"; Wavelength := 1304.0 |} ].

(** The user's actions for two runs in a row, one figure each. *)
Definition two_runs_start : world :=
  empty_world [KeyPress (Some "y"); KeyPress (Some "n")].

Definition first_run : outcome float :=
  doppler_shift_calc (fits_shifted_by 1) scenario_lines example_w example_f
    4 2 two_runs_start.

Definition second_loop : outcome locals :=
  ions_loop (fits_shifted_by 1) example_w example_f 2 scenario_lines
    (dict_keys scenario_lines) no_locals (final_state first_run).


(* ------------------------------------------------------------------ *)
(** ** The floor in the words of the specification *)

(** The integer [k] is not above the number [q].  A finite [q] is 0 or
    (-1)^s m 2^e: with z = (-1)^s m, [k] is not above [q] when k <= z 2^e,
    which for a negative [e] reads k 2^(-e) <= z. *)
Definition not_above (k : Z) (q : float) : Prop :=
  match Prim2SF q with
  | S754_zero _ => (k <= 0)%Z
  | S754_finite s m e =>
      let z := if s then Zneg m else Zpos m in
      if (0 <=? e)%Z then (k <= z * 2 ^ e)%Z else (k * 2 ^ (- e) <= z)%Z
  | S754_infinity s => if s then False else True
  | S754_nan => False
  end.

(** [n] is the floor of [q]: the greatest integer that is not above it. *)
Definition is_floor (n : Z) (q : float) : Prop :=
  forall k, (k <= n)%Z <-> not_above k q.

(* ================================================================== *)
(** * Properties *)

(* ------------------------------------------------------------------ *)
(** ** Dictionaries and lists *)

Lemma dict_get_set {V : Type} (d : dict V) (k k' : string) (v : V) :
  dict_get (dict_set d k v) k' =
  if String.eqb k' k then Some v else dict_get d k'.
Proof.
  induction d as [|[k0 v0] d IH]; simpl.
  - reflexivity.
  - destruct (String.eqb_spec k k0) as [->|Hk]; simpl.
    + destruct (String.eqb k' k0); reflexivity.
    + rewrite IH. destruct (String.eqb_spec k' k0) as [->|Hk'].
      * destruct (String.eqb_spec k0 k); congruence.
      * reflexivity.
Qed.

Lemma dict_keys_set_absent {V : Type} (d : dict V) (k : string) (v : V) :
  dict_get d k = None -> dict_keys (dict_set d k v) = dict_keys d ++ [k].
Proof.
  induction d as [|[k0 v0] d IH]; simpl; intros H.
  - reflexivity.
  - destruct (String.eqb k k0); [discriminate|]. simpl. now rewrite IH.
Qed.

Lemma dict_keys_set_present {V : Type} (d : dict V) (k : string) (v v0 : V) :
  dict_get d k = Some v0 -> dict_keys (dict_set d k v) = dict_keys d.
Proof.
  induction d as [|[k1 v1] d IH]; simpl; intros H.
  - discriminate.
  - destruct (String.eqb k k1); simpl; [reflexivity|]. now rewrite IH.
Qed.

Lemma dict_get_none_not_key {V : Type} (d : dict V) (k : string) :
  dict_get d k = None -> ~ In k (dict_keys d).
Proof.
  induction d as [|[k0 v0] d IH]; simpl; intros H [].
  - subst. now rewrite String.eqb_refl in H.
  - destruct (String.eqb k k0); [discriminate|]. now apply IH.
Qed.

Lemma app_eq_snoc {A : Type} (g before after : list A) (w y : A) :
  g ++ [w] = before ++ y :: after ->
  (before = g /\ y = w /\ after = []) \/
  (exists after', after = after' ++ [w] /\ g = before ++ y :: after').
Proof.
  revert before. induction g as [|x g IH]; intros before H.
  - destruct before as [|b before]; simpl in H.
    + injection H as <- <-. now left.
    + injection H as _ H. destruct before; discriminate.
  - destruct before as [|b before]; simpl in H.
    + injection H as <- H. right. exists g. now split.
    + injection H as <- H. destruct (IH _ H) as [(-> & -> & ->)|(a' & -> & ->)].
      * now left.
      * right. exists a'. now split.
Qed.

(* ------------------------------------------------------------------ *)
(** ** The grouper and its map from ion to groups *)

Lemma py_max_max_of (g : group) :
  g <> [] -> py_max g = Ok (max_of g).
Proof. destruct g; [congruence | reflexivity]. Qed.

Lemma scan_groups_first_matching (groups : list group) (w : float) :
  Forall (fun g => g <> []) groups ->
  scan_groups groups w =
  Ok match first_matching (joins_group w) groups with
     | Some i => (update_nth groups i (fun g => g ++ [w]), true)
     | None => (groups, false)
     end.
Proof.
  induction 1 as [|g groups Hg _ IH]; simpl.
  - reflexivity.
  - rewrite (py_max_max_of g Hg). simpl.
    change (abs (max_of g - w) <=? tolerance)
      with (joins_group w g).
    destruct (joins_group w g).
    + reflexivity.
    + rewrite IH. simpl.
      now destruct (first_matching (joins_group w) groups).
Qed.

Lemma update_nth_nonempty (groups : list group) (i : nat) (w : float) :
  Forall (fun g => g <> []) groups ->
  Forall (fun g => g <> []) (update_nth groups i (fun g => g ++ [w])).
Proof.
  intros H. revert i. induction H as [|g groups Hg Hgs IH]; intros i; simpl.
  - constructor.
  - destruct i; constructor; auto.
    destruct g; discriminate.
Qed.

Lemma place_in_groups_nonempty (groups : list group) (w : float) :
  Forall (fun g => g <> []) groups ->
  Forall (fun g => g <> []) (place_in_groups groups w) /\
  place_in_groups groups w <> [].
Proof.
  intros H. unfold place_in_groups.
  destruct (first_matching (joins_group w) groups) as [i|] eqn:E.
  - split; [now apply update_nth_nonempty|].
    destruct groups; [discriminate|]. now destruct i.
  - split.
    + apply Forall_app. split; [assumption|]. now repeat constructor.
    + now destruct groups.
Qed.

Lemma scan_then_set (d : dict (list group)) (i : string)
    (groups : list group) (w : float) :
  Forall (fun g => g <> []) groups ->
  ('(groups', close_group_found) <- scan_groups groups w ;;
   if negb close_group_found
   then Ok (dict_set d i (groups' ++ [[w]]))
   else Ok (dict_set d i groups'))
  = Ok (dict_set d i (place_in_groups groups w)).
Proof.
  intros H. rewrite (scan_groups_first_matching _ _ H).
  unfold place_in_groups.
  now destruct (first_matching (joins_group w) groups).
Qed.

Lemma groups_as_entry_nonempty (groups : list group) :
  groups <> [] -> groups_as_entry groups = Some groups.
Proof. destruct groups; [congruence | reflexivity]. Qed.

Lemma grouping_row_holds (min_wavelength : float) d m (r : row) :
  holds d m ->
  exists d', grouping_row min_wavelength d r = Ok d' /\
             holds d' (grouper_map_row min_wavelength m r).
Proof.
  intros (Hget & Hne & Hnd).
  unfold grouping_row, grouper_map_row.
  destruct (Wavelength r <? min_wavelength).
  { exists d. now repeat split. }
  pose proof (Hget (Ion r)) as Hion.
  pose proof (place_in_groups_nonempty (m (Ion r)) (Wavelength r) (Hne _))
    as [Hp1 Hp2].
  destruct (dict_get d (Ion r)) as [groups|] eqn:E.
  - assert (groups = m (Ion r)) as ->.
    { destruct (m (Ion r)); simpl in Hion; congruence. }
    rewrite (scan_then_set _ _ _ _ (Hne _)).
    eexists. split; [reflexivity|]. repeat split.
    + intros i. rewrite dict_get_set.
      destruct (String.eqb_spec i (Ion r)) as [->|];
        [now rewrite groups_as_entry_nonempty | apply Hget].
    + intros i. destruct (String.eqb_spec i (Ion r)) as [->|];
        [assumption | apply Hne].
    + now rewrite (dict_keys_set_present _ _ _ _ E).
  - assert (m (Ion r) = []) as Hm.
    { destruct (m (Ion r)); simpl in Hion; congruence. }
    eexists. split; [reflexivity|]. repeat split.
    + intros i. rewrite dict_get_set.
      destruct (String.eqb_spec i (Ion r)) as [->|];
        [now rewrite Hm | apply Hget].
    + intros i. destruct (String.eqb_spec i (Ion r)) as [->|];
        [assumption | apply Hne].
    + rewrite (dict_keys_set_absent _ _ _ E).
      apply NoDup_app; [assumption | repeat constructor; intros [] | ].
      intros x Hx [<-|[]]. now apply (dict_get_none_not_key _ _ E).
Qed.

Lemma grouping_loop_holds (min_wavelength : float) (rows : list row) d m :
  holds d m ->
  exists d', grouping_loop min_wavelength rows d = Ok d' /\
             holds d' (fold_left (grouper_map_row min_wavelength) rows m).
Proof.
  revert d m. induction rows as [|r rows IH]; intros d m H; simpl.
  - now exists d.
  - destruct (grouping_row_holds min_wavelength d m r H) as (d1 & -> & H1).
    simpl. now apply IH.
Qed.

Lemma grouping_emission_lines_holds (min_wavelength : float) (rows : list row) :
  exists d, grouping_emission_lines min_wavelength rows = Ok d /\
            holds d (grouper_map min_wavelength rows).
Proof.
  apply grouping_loop_holds. repeat split; intros; constructor.
Qed.

(* ------------------------------------------------------------------ *)
(** ** The method of [EmissionLines] against the free function *)

Lemma method_scan_groups (groups : list group) (w : float) :
  EmissionLines.scan_groups groups w = scan_groups groups w.
Proof.
  induction groups as [|g groups IH]; simpl.
  - reflexivity.
  - destruct (py_max g) as [m|e]; simpl; [|reflexivity].
    unfold tolerance. destruct (abs (m - w) <=? 10); [reflexivity|].
    now rewrite IH.
Qed.

Lemma method_grouping_loop (self : EmissionLines.t) (rows : list row)
    (d : dict (list group)) :
  EmissionLines.grouping_loop self rows d =
  grouping_loop (SpectrumData.min_wavelength (EmissionLines.spectrum self)) rows d.
Proof.
  revert d. induction rows as [|r rows IH]; intros d; simpl.
  - reflexivity.
  - unfold grouping_row.
    destruct (Wavelength r <? _); simpl; [apply IH|].
    destruct (dict_get d (Ion r)) as [groups|]; simpl; [|apply IH].
    rewrite method_scan_groups.
    destruct (scan_groups groups (Wavelength r)) as [[groups' found]|e]; simpl;
      [|reflexivity].
    destruct found; simpl; apply IH.
Qed.

(* ------------------------------------------------------------------ *)
(** ** Invariants of the groups *)

Section GroupInvariant.

Variable min_wavelength : float.
Variable P : group -> Prop.

Hypothesis P_singleton :
  forall w, (w <? min_wavelength) = false -> P [w].
Hypothesis P_append :
  forall w g, (w <? min_wavelength) = false -> g <> [] -> P g ->
    joins_group w g = true -> P (g ++ [w]).

Lemma update_first_matching_invariant (w : float) (groups : list group) (i : nat) :
  (w <? min_wavelength) = false ->
  Forall (fun g => g <> [] /\ P g) groups ->
  first_matching (joins_group w) groups = Some i ->
  Forall (fun g => g <> [] /\ P g) (update_nth groups i (fun g => g ++ [w])).
Proof.
  intros Hw H. revert i. induction H as [|g groups [Hne Hg] Hgs IH]; intros i; simpl.
  - discriminate.
  - destruct (joins_group w g) eqn:E.
    + intros [= <-]. constructor; [|assumption]. split.
      * destruct g; discriminate.
      * now apply P_append.
    + destruct (first_matching (joins_group w) groups) as [j|];
        [|discriminate].
      intros [= <-]. constructor; [now split | now apply IH].
Qed.

Lemma place_in_groups_invariant (w : float) (groups : list group) :
  (w <? min_wavelength) = false ->
  Forall (fun g => g <> [] /\ P g) groups ->
  Forall (fun g => g <> [] /\ P g) (place_in_groups groups w).
Proof.
  intros Hw H. unfold place_in_groups.
  destruct (first_matching (joins_group w) groups) as [i|] eqn:E.
  - now apply update_first_matching_invariant.
  - apply Forall_app. split; [assumption|].
    constructor; [|constructor]. split; [discriminate | now apply P_singleton].
Qed.

Lemma grouper_map_invariant (rows : list row) (m : string -> list group) :
  (forall i, Forall (fun g => g <> [] /\ P g) (m i)) ->
  forall i, Forall (fun g => g <> [] /\ P g)
              (fold_left (grouper_map_row min_wavelength) rows m i).
Proof.
  revert m. induction rows as [|r rows IH]; intros m Hm; simpl.
  - assumption.
  - apply IH. intros i. unfold grouper_map_row.
    destruct (Wavelength r <? min_wavelength) eqn:E; [apply Hm|].
    destruct (String.eqb i (Ion r)); [|apply Hm].
    now apply place_in_groups_invariant.
Qed.

Lemma grouping_emission_lines_invariant (rows : list row) d i groups g :
  grouping_emission_lines min_wavelength rows = Ok d ->
  dict_get d i = Some groups -> In g groups -> g <> [] /\ P g.
Proof.
  intros Hd Hi Hg.
  destruct (grouping_emission_lines_holds min_wavelength rows)
    as (d' & Hd' & Hget & _).
  rewrite Hd in Hd'. injection Hd' as <-.
  pose proof (grouper_map_invariant rows (fun _ => [])
                (fun _ => Forall_nil _) i) as Hall.
  fold (grouper_map min_wavelength rows) in Hall.
  rewrite Hget in Hi.
  assert (Heq : grouper_map min_wavelength rows i = groups).
  { destruct (grouper_map min_wavelength rows i); simpl in Hi; congruence. }
  rewrite Heq, Forall_forall in Hall. now apply Hall.
Qed.

End GroupInvariant.

Lemma chain_append (g : group) (w : float) :
  g <> [] -> chain_within_tolerance g -> joins_group w g = true ->
  chain_within_tolerance (g ++ [w]).
Proof.
  intros Hne Hg Hw before y after Hsplit Hbefore.
  destruct (app_eq_snoc _ _ _ _ _ Hsplit) as [(-> & -> & _)|(after' & _ & ->)].
  - exists (max_of g). split; [now apply py_max_max_of|].
    exact Hw.
  - now apply (Hg before y after').
Qed.

Lemma chain_singleton (w : float) : chain_within_tolerance [w].
Proof.
  intros before y after Hsplit Hbefore.
  destruct before as [|b before]; [congruence|].
  injection Hsplit as _ H. destruct before; discriminate.
Qed.

Lemma py_max_ascending (before : list float) (x : float) :
  grew_monotonically (before ++ [x]) -> py_max (before ++ [x]) = Ok x.
Proof.
  destruct before as [|b before]; simpl; [reflexivity|].
  revert b. induction before as [|c before IH]; intros b H; simpl.
  - inversion H as [|? ? _ Hrel]; subst. inversion Hrel; subst.
    unfold py_max_step. now replace (b <? x) with true.
  - inversion H as [|? ? Hs Hrel]; subst. inversion Hrel; subst.
    unfold py_max_step at 2. replace (b <? c) with true by easy.
    specialize (IH c Hs). now injection IH as ->.
Qed.

Lemma grew_monotonically_prefix (xs ys : list float) :
  grew_monotonically (xs ++ ys) -> grew_monotonically xs.
Proof.
  induction xs as [|x xs IH]; simpl; intros H.
  - constructor.
  - inversion H as [|? ? Hs Hrel]; subst. constructor; [now apply IH|].
    destruct xs; simpl in *; constructor. now inversion Hrel.
Qed.

(** In a chain that grew monotonically the running maximum is the previous
    member, so consecutive members are within the tolerance. *)
Lemma monotone_chain_consecutive (g : group) :
  chain_within_tolerance g -> grew_monotonically g ->
  ~ consecutive_gap_exceeds g.
Proof.
  intros Hchain Hmono (before & x & y & after & -> & Hgap).
  destruct (Hchain (before ++ [x]) y after) as (m & Hm & Hle).
  - now rewrite <- app_assoc.
  - destruct before; discriminate.
  - rewrite py_max_ascending in Hm.
    + injection Hm as <-. unfold distance in Hgap. congruence.
    + apply (grew_monotonically_prefix _ (y :: after)).
      now rewrite <- app_assoc.
Qed.

Lemma grouped_chain (g : group) : grouped g -> chain_within_tolerance g.
Proof.
  intros (min_wavelength & rows & d & i & groups & Hd & Hi & Hg).
  apply (grouping_emission_lines_invariant min_wavelength chain_within_tolerance)
    with (rows := rows) (d := d) (i := i) (groups := groups); auto.
  - intros w _. apply chain_singleton.
  - intros w g0 _ Hne Hc Hw. now apply chain_append.
Qed.

(* ------------------------------------------------------------------ *)
(** ** The distance between two binary64 numbers *)

Lemma SFabs_binary_round_aux (sx sx' : bool) (mx ex : Z) (lx : location) :
  SFabs (binary_round_aux prec emax sx mx ex lx)
  = SFabs (binary_round_aux prec emax sx' mx ex lx).
Proof.
  unfold binary_round_aux.
  destruct (shr_fexp prec emax mx ex lx) as [mrs' e'].
  destruct (shr_fexp prec emax _ e' loc_Exact) as [mrs'' e''].
  destruct (shr_m mrs''); try reflexivity.
  now destruct (e'' <=? emax - prec)%Z.
Qed.

Lemma SFabs_binary_normalize_opp (z e : Z) :
  SFabs (binary_normalize prec emax (- z) e false)
  = SFabs (binary_normalize prec emax z e false).
Proof.
  destruct z as [|p|p]; simpl; try reflexivity; unfold binary_round;
    destruct (shl_align p e _) as [mz ez]; apply SFabs_binary_round_aux.
Qed.

(** The distance does not depend on the order of its arguments. *)
Lemma distance_sym (x y : float) : distance x y = distance y x.
Proof.
  unfold distance. apply Prim2SF_inj. rewrite !abs_spec, !FloatAxioms.sub_spec.
  unfold SF64sub.
  destruct (Prim2SF x) as [sx|sx| |sx mx ex], (Prim2SF y) as [sy|sy| |sy my ey];
    try (destruct sx, sy; reflexivity); try (destruct sx; reflexivity);
    try (destruct sy; reflexivity); try reflexivity.
  unfold SFsub. rewrite (Z.min_comm ey ex).
  rewrite <- SFabs_binary_normalize_opp. f_equal. f_equal. lia.
Qed.

(* ------------------------------------------------------------------ *)
(** ** The order of the binary64 numbers *)

Lemma is_nan_Prim2SF (x : float) :
  is_nan x = true -> Prim2SF x = S754_nan.
Proof.
  unfold is_nan. rewrite FloatAxioms.eqb_spec. unfold SFeqb.
  destruct (Prim2SF x) as [s|s| |s m e]; simpl; try reflexivity;
    try (destruct s; discriminate).
  rewrite Z.compare_refl, Pos.compare_cont_refl.
  destruct s; discriminate.
Qed.

Lemma float_sub_nan (x y : float) :
  is_nan x || is_nan y = true -> Prim2SF (x - y) = S754_nan.
Proof.
  intros H. rewrite FloatAxioms.sub_spec. unfold SF64sub.
  apply orb_true_iff in H. destruct H as [H|H];
    rewrite (is_nan_Prim2SF _ H).
  - reflexivity.
  - now destruct (Prim2SF x) as [[|]|[|]| |s m e].
Qed.

Lemma tolerance_test_no_nan (m w : float) :
  (abs (m - w) <=? 10) = true -> is_nan m = false /\ is_nan w = false.
Proof.
  intros H.
  destruct (is_nan m || is_nan w) eqn:E.
  - pose proof (float_sub_nan m w E) as Hsub.
    rewrite FloatAxioms.leb_spec, abs_spec, Hsub in H. discriminate.
  - now apply orb_false_iff in E.
Qed.

Lemma is_nan_spec (x : float) :
  is_nan x = match Prim2SF x with S754_nan => true | _ => false end.
Proof.
  unfold is_nan. rewrite FloatAxioms.eqb_spec. unfold SFeqb.
  destruct (Prim2SF x) as [s|s| |s m e]; simpl; try reflexivity;
    try (now destruct s).
  rewrite Z.compare_refl, Pos.compare_cont_refl. now destruct s.
Qed.

Lemma is_finite_spec (x : float) :
  is_finite x
  = match Prim2SF x with
    | S754_zero _ | S754_finite _ _ _ => true
    | _ => false
    end.
Proof.
  unfold is_finite. rewrite is_nan_spec. unfold is_infinity.
  rewrite FloatAxioms.eqb_spec, abs_spec.
  change (Prim2SF infinity) with (S754_infinity false).
  now destruct (Prim2SF x) as [s|s| |s m e].
Qed.

(** [math.floor] returns the floor of a finite number. *)
Lemma py_floor_is_floor (q : float) :
  is_finite q = true -> exists n, py_floor q = Ok n /\ is_floor n q.
Proof.
  rewrite is_finite_spec. unfold py_floor, is_floor, not_above.
  destruct (Prim2SF q) as [s|s| |s m e]; try discriminate; intros _.
  - exists 0%Z. split; [reflexivity|]. intros k. reflexivity.
  - eexists. split; [reflexivity|]. intros k.
    set (z := if s then Z.neg m else Z.pos m).
    destruct (Z.leb_spec 0 e) as [He|He].
    + rewrite Z.shiftl_mul_pow2 by assumption. reflexivity.
    + rewrite <- (Z.opp_involutive e) at 1.
      rewrite Z.shiftl_opp_r, Z.shiftr_div_pow2 by lia.
      assert (Hd : (0 < 2 ^ (- e))%Z) by (apply Z.pow_pos_nonneg; lia).
      split; intros H.
      * pose proof (Z.mul_div_le z _ Hd). nia.
      * apply Z.div_le_lower_bound; [exact Hd | lia].
Qed.

Lemma py_floor_not_finite (q : float) :
  is_finite q = false ->
  py_floor q = Raise (if is_nan q then ValueError else OverflowError).
Proof.
  rewrite is_finite_spec, is_nan_spec. unfold py_floor.
  now destruct (Prim2SF q) as [s|s| |s m e].
Qed.

Lemma Prim2SF_nan_is_nan (x : float) :
  Prim2SF x = S754_nan -> is_nan x = true.
Proof.
  intros H. unfold is_nan. rewrite FloatAxioms.eqb_spec, H. reflexivity.
Qed.

Lemma ltb_key (x y : float) :
  is_nan x = false -> is_nan y = false ->
  (x <? y) = true <-> key_lt (float_key x) (float_key y).
Proof.
  intros Hx Hy. rewrite FloatAxioms.ltb_spec. unfold SFltb, float_key, key_lt.
  destruct (Prim2SF x) as [sx|sx| |sx mx ex] eqn:Ex;
    [| |now rewrite (Prim2SF_nan_is_nan x Ex) in Hx|];
  (destruct (Prim2SF y) as [sy|sy| |sy my ey] eqn:Ey;
    [| |now rewrite (Prim2SF_nan_is_nan y Ey) in Hy|]);
  try destruct sx; try destruct sy; simpl;
  try solve [split; intros; first [discriminate | reflexivity | lia]];
  change (PosDef.Pos.compare_cont Eq mx my) with (Pos.compare mx my);
  destruct (Z.compare_spec ex ey); destruct (Pos.compare_spec mx my); simpl;
  split; intros; first [discriminate | reflexivity | lia].
Qed.

Lemma leb_key (x y : float) :
  is_nan x = false -> is_nan y = false ->
  (x <=? y) = true <-> ~ key_lt (float_key y) (float_key x).
Proof.
  intros Hx Hy. rewrite FloatAxioms.leb_spec. unfold SFleb, float_key, key_lt.
  destruct (Prim2SF x) as [sx|sx| |sx mx ex] eqn:Ex;
    [| |now rewrite (Prim2SF_nan_is_nan x Ex) in Hx|];
  (destruct (Prim2SF y) as [sy|sy| |sy my ey] eqn:Ey;
    [| |now rewrite (Prim2SF_nan_is_nan y Ey) in Hy|]);
  try destruct sx; try destruct sy; simpl;
  try solve [split; intros; first [discriminate | reflexivity | lia]];
  change (PosDef.Pos.compare_cont Eq mx my) with (Pos.compare mx my);
  destruct (Z.compare_spec ex ey); destruct (Pos.compare_spec mx my); simpl;
  split; intros; first [discriminate | reflexivity | lia].
Qed.

Lemma ltb_not_nan (x y : float) :
  (x <? y) = true -> is_nan x = false /\ is_nan y = false.
Proof.
  rewrite FloatAxioms.ltb_spec. unfold SFltb, is_nan.
  rewrite !FloatAxioms.eqb_spec. unfold SFeqb.
  destruct (Prim2SF x) as [sx|sx| |sx mx ex], (Prim2SF y) as [sy|sy| |sy my ey];
    simpl; try discriminate; intros _;
    rewrite ?Z.compare_refl, ?Pos.compare_cont_refl;
    repeat match goal with s : bool |- _ => destruct s end; split; reflexivity.
Qed.


Lemma ltb_irrefl (x : float) : (x <? x) = false.
Proof.
  destruct (x <? x) eqn:E; [|reflexivity].
  destruct (ltb_not_nan _ _ E) as [Hx _].
  apply (ltb_key x x Hx Hx) in E. unfold key_lt in E. lia.
Qed.

Lemma ltb_trans (x y z : float) :
  (x <? y) = true -> (y <? z) = true -> (x <? z) = true.
Proof.
  intros Hxy Hyz.
  destruct (ltb_not_nan _ _ Hxy) as [Hx Hy].
  destruct (ltb_not_nan _ _ Hyz) as [_ Hz].
  apply (ltb_key x y Hx Hy) in Hxy. apply (ltb_key y z Hy Hz) in Hyz.
  apply (ltb_key x z Hx Hz). unfold key_lt in *. lia.
Qed.

(** [<?] is the strict part of a total preorder on the numbers. *)
Lemma ltb_cotrans (x y z : float) :
  is_nan y = false ->
  (x <? z) = true -> (x <? y) = false -> (y <? z) = true.
Proof.
  intros Hy Hxz Hxy.
  destruct (ltb_not_nan _ _ Hxz) as [Hx Hz].
  apply (ltb_key x z Hx Hz) in Hxz.
  apply (ltb_key y z Hy Hz).
  assert (Hn : ~ key_lt (float_key x) (float_key y)).
  { intros H. apply (ltb_key x y Hx Hy) in H. congruence. }
  unfold key_lt in *. lia.
Qed.

Lemma ltb_leb (x y : float) : (x <? y) = true -> (x <=? y) = true.
Proof.
  intros H. destruct (ltb_not_nan _ _ H) as [Hx Hy].
  apply (ltb_key x y Hx Hy) in H. apply (leb_key x y Hx Hy).
  unfold key_lt in *. lia.
Qed.

Lemma leb_refl (x : float) : is_nan x = false -> (x <=? x) = true.
Proof.
  intros Hx. apply (leb_key x x Hx Hx). unfold key_lt. lia.
Qed.



Lemma leb_ltb (x y : float) :
  is_nan x = false -> is_nan y = false ->
  (x <=? y) = negb (y <? x).
Proof.
  intros Hx Hy.
  destruct (y <? x) eqn:E; simpl.
  - apply (ltb_key y x Hy Hx) in E.
    destruct (x <=? y) eqn:E'; [|reflexivity].
    apply (leb_key x y Hx Hy) in E'. contradiction.
  - apply (leb_key x y Hx Hy). intros H.
    apply (ltb_key y x Hy Hx) in H. congruence.
Qed.

(* ------------------------------------------------------------------ *)
(** ** The maximum of Python against the current maximum *)

(** Python's [max] keeps the first of the greatest members: in the members
    read so far every member before the kept one is below it, and no member
    after it is above it. *)
Lemma fold_py_max_step_first_greatest (rest before after : list float)
    (m : float) :
  Forall (fun x => is_nan x = false) (before ++ m :: after ++ rest) ->
  Forall (fun z => (z <? m) = true) before ->
  Forall (fun z => (m <? z) = false) after ->
  exists before' after',
    before ++ m :: after ++ rest
    = before' ++ fold_left py_max_step rest m :: after' /\
    Forall (fun z => (z <? fold_left py_max_step rest m) = true) before' /\
    Forall (fun z => (fold_left py_max_step rest m <? z) = false) after'.
Proof.
  revert before after m.
  induction rest as [|x rest IH]; intros before after m Hnan Hb Ha.
  - exists before, after. rewrite app_nil_r. now repeat split.
  - simpl. change (py_max_step m x) with (if m <? x then x else m).
    assert (Hx : is_nan x = false).
    { rewrite Forall_forall in Hnan. apply Hnan.
      apply in_or_app. right. right. apply in_or_app. right. now left. }
    destruct (m <? x) eqn:E.
    + destruct (IH (before ++ m :: after) [] x) as (b' & a' & Heq & Hb' & Ha').
      * rewrite <- app_assoc. exact Hnan.
      * apply Forall_app. split; [|constructor; [exact E|]].
        -- eapply Forall_impl; [|exact Hb]. intros z Hz.
           now apply (ltb_trans z m x).
        -- rewrite Forall_forall in Ha, Hnan |- *. intros z Hz.
           apply (ltb_cotrans m z x); auto.
           apply Hnan. apply in_or_app. right. right.
           apply in_or_app. now left.
      * constructor.
      * exists b', a'. split; [|now split].
        rewrite <- Heq, <- app_assoc. reflexivity.
    + assert (Hlist : (after ++ [x]) ++ rest = after ++ x :: rest)
        by (now rewrite <- app_assoc).
      destruct (IH before (after ++ [x]) m) as (b' & a' & Heq & Hb' & Ha').
      * now rewrite Hlist.
      * exact Hb.
      * apply Forall_app. split; [exact Ha | now repeat constructor].
      * exists b', a'. split; [|now split].
        now rewrite <- Heq, Hlist.
Qed.

Lemma find_first_passing {A : Type} (test : A -> bool) (before after : list A)
    (m : A) :
  Forall (fun z => test z = false) before -> test m = true ->
  find test (before ++ m :: after) = Some m.
Proof.
  intros Hb Hm. induction Hb as [|z l Hz _ IH]; simpl.
  - now rewrite Hm.
  - now rewrite Hz.
Qed.

Lemma find_first_greatest (before after : list float) (m : float) :
  Forall (fun z => (z <? m) = true) before ->
  Forall (fun z => (m <? z) = false) after ->
  current_maximum (before ++ m :: after) = m.
Proof.
  intros Hb Ha. unfold current_maximum.
  rewrite find_first_passing; [reflexivity| |].
  - eapply Forall_impl; [|exact Hb]. intros z Hz.
    apply not_true_is_false. intros Hall.
    rewrite forallb_forall in Hall.
    assert (Hm : In m (before ++ m :: after))
      by (apply in_or_app; right; now left).
    specialize (Hall m Hm). now rewrite Hz in Hall.
  - apply forallb_forall. intros x Hx.
    apply in_app_or in Hx. destruct Hx as [Hx|[<-|Hx]].
    + rewrite Forall_forall in Hb. specialize (Hb x Hx).
      destruct (m <? x) eqn:E; [|reflexivity].
      pose proof (ltb_trans _ _ _ E Hb) as Hmm.
      now rewrite ltb_irrefl in Hmm.
    + now rewrite ltb_irrefl.
    + rewrite Forall_forall in Ha. now rewrite (Ha x Hx).
Qed.

(** On a group without a NaN, and on a single wavelength, [max(group)] is
    the current maximum. *)
Lemma max_of_current_maximum (g : group) :
  g <> [] -> comparable g -> max_of g = current_maximum g.
Proof.
  intros Hne [[x ->]|Hnan].
  - unfold current_maximum. simpl. now rewrite ltb_irrefl.
  - destruct g as [|x rest]; [contradiction|]. simpl.
    destruct (fold_py_max_step_first_greatest rest [] [] x Hnan
                (Forall_nil _) (Forall_nil _)) as (b & a & Heq & Hb & Ha).
    simpl in Heq. rewrite Heq. symmetry.
    now apply find_first_greatest.
Qed.

(** The current maximum of numbers is one of them and is not below any of
    them. *)
Lemma current_maximum_greatest (g : group) :
  g <> [] -> Forall (fun x => is_nan x = false) g ->
  In (current_maximum g) g /\
  Forall (fun x => (x <=? current_maximum g) = true) g.
Proof.
  intros Hne Hnan. destruct g as [|x rest]; [contradiction|].
  destruct (fold_py_max_step_first_greatest rest [] [] x Hnan
              (Forall_nil _) (Forall_nil _)) as (b & a & Heq & Hb & Ha).
  simpl in Heq. rewrite Heq in Hnan |- *.
  rewrite (find_first_greatest b a _ Hb Ha).
  set (m := fold_left py_max_step rest x) in *.
  assert (Hm : is_nan m = false).
  { rewrite Forall_forall in Hnan. apply Hnan.
    apply in_or_app. right. now left. }
  split; [apply in_or_app; right; now left|].
  apply Forall_app. split; [|constructor].
  - eapply Forall_impl; [|exact Hb]. intros z Hz. now apply ltb_leb.
  - now apply leb_refl.
  - rewrite Forall_forall in Ha, Hnan |- *. intros z Hz.
    rewrite leb_ltb; [now rewrite (Ha z Hz) | | exact Hm].
    apply Hnan. apply in_or_app. right. now right.
Qed.

Lemma first_matching_ext {A : Type} (p q : A -> bool) (xs : list A) :
  Forall (fun x => p x = q x) xs -> first_matching p xs = first_matching q xs.
Proof.
  induction 1 as [|x xs Hx _ IH]; simpl; [reflexivity|].
  now rewrite Hx, IH.
Qed.

Lemma place_wavelength_place_in_groups (groups : list group) (w : float) :
  Forall (fun g => g <> [] /\ comparable g) groups ->
  place_wavelength groups w = place_in_groups groups w.
Proof.
  intros H. unfold place_wavelength, place_in_groups.
  rewrite (first_matching_ext (within_tolerance w) (joins_group w)).
  - reflexivity.
  - eapply Forall_impl; [|exact H]. intros g [Hne Hc].
    unfold within_tolerance, joins_group.
    now rewrite (max_of_current_maximum g Hne Hc).
Qed.

(** The groups of the grouper can all be compared: a NaN stays alone. *)
Lemma grouper_map_comparable (min_wavelength : float) (rows : list row)
    (m : string -> list group) :
  (forall i, Forall (fun g => g <> [] /\ comparable g) (m i)) ->
  forall i, Forall (fun g => g <> [] /\ comparable g)
              (fold_left (grouper_map_row min_wavelength) rows m i).
Proof.
  apply grouper_map_invariant.
  - intros w _. left. now exists w.
  - intros w g _ Hne Hc Hjoin. right.
    unfold joins_group in Hjoin.
    destruct (tolerance_test_no_nan _ _ Hjoin) as [Hm Hw].
    apply Forall_app. split; [|now repeat constructor].
    destruct Hc as [[x ->]|Hc]; [|exact Hc].
    now repeat constructor.
Qed.

(** The rule of the specification and the map of the grouper are one. *)
Lemma grouping_spec_grouper_map (min_wavelength : float) (rows : list row) :
  forall i, grouping_spec min_wavelength rows i
            = grouper_map min_wavelength rows i.
Proof.
  unfold grouping_spec, grouper_map.
  assert (H : forall m m',
            (forall i, m i = m' i) ->
            (forall i, Forall (fun g => g <> [] /\ comparable g) (m' i)) ->
            forall i,
              fold_left (grouping_spec_row min_wavelength) rows m i
              = fold_left (grouper_map_row min_wavelength) rows m' i).
  { induction rows as [|r rows IH]; intros m m' Heq Hc i; simpl.
    - apply Heq.
    - apply IH.
      + intros j. unfold grouping_spec_row, grouper_map_row.
        destruct (Wavelength r <? min_wavelength); [apply Heq|].
        destruct (String.eqb j (Ion r)); [|apply Heq].
        rewrite Heq. apply place_wavelength_place_in_groups, Hc.
      + intros j.
        exact (grouper_map_comparable min_wavelength [r] m' Hc j). }
  apply H; [reflexivity | constructor].
Qed.

(* ------------------------------------------------------------------ *)
(** ** The claims about the line grouper *)

(** C1.  For every catalog, read in its order, and every cutoff, the grouper
    returns the dictionary of the rule of the specification: a row whose
    wavelength is not below the cutoff is appended to the first group of its
    ion whose current maximum m has |m - wavelength| <= 10, and with no such
    group -- always when the ion has no group yet -- a new singleton group is
    appended to the groups of that ion.  The current maximum of the rule is
    defined without Python's [max]: it is the first member of the group that
    no member exceeds, and for a group of numbers it is a member that is not
    below any member.  Both implementations do so, and the catalog O_I
    1302.0, 1304.5, 1306.0 gives the one group [1302.0; 1304.5; 1306.0], also
    when the cutoff is 1302.0 itself.  The catalogs 1302, 1310, 1318 (where
    the maximum is not the first member) and 1300, 1295, 1309 (where it is
    not the last) give one group each. *)
Theorem grouping_emission_lines_spec :
  (forall min_wavelength rows,
     exists d,
       grouping_emission_lines min_wavelength rows = Ok d /\
       NoDup (dict_keys d) /\
       forall i, dict_get d i =
                 groups_as_entry (grouping_spec min_wavelength rows i)) /\
  (forall self,
     exists d,
       EmissionLines.grouping_emission_lines self = Ok d /\
       NoDup (dict_keys d) /\
       forall i, dict_get d i =
                 groups_as_entry
                   (grouping_spec
                      (SpectrumData.min_wavelength (EmissionLines.spectrum self))
                      (SpectrumData.rest_lam_data (EmissionLines.spectrum self))
                      i)) /\
  (forall w, place_wavelength [] w = [[w]]) /\
  (forall g, g <> [] -> Forall (fun x => is_nan x = false) g ->
     In (current_maximum g) g /\
     Forall (fun x => (x <=? current_maximum g) = true) g) /\
  grouping_emission_lines 0 O_I_catalog
    = Ok [("O_I", [[1302.0; 1304.5; 1306.0]])] /\
  grouping_emission_lines 1302.0 O_I_catalog
    = Ok [("O_I", [[1302.0; 1304.5; 1306.0]])] /\
  grouping_emission_lines 0 chained_catalog
    = Ok [("O_I", [[1302.0; 1310.0; 1318.0]])] /\
  grouping_emission_lines 0 unordered_catalog
    = Ok [("O_I", [[1300.0; 1295.0; 1309.0]])].
Proof.
  split; [|split; [|split; [|split; [|split; [|split; [|split]]]]]].
  - intros min_wavelength rows.
    destruct (grouping_emission_lines_holds min_wavelength rows)
      as (d & Hd & Hget & _ & Hnd).
    exists d. split; [exact Hd|]. split; [exact Hnd|].
    intros i. now rewrite grouping_spec_grouper_map.
  - intros self. unfold EmissionLines.grouping_emission_lines.
    rewrite method_grouping_loop.
    destruct (grouping_emission_lines_holds
                (SpectrumData.min_wavelength (EmissionLines.spectrum self))
                (SpectrumData.rest_lam_data (EmissionLines.spectrum self)))
      as (d & Hd & Hget & _ & Hnd).
    exists d. split; [exact Hd|]. split; [exact Hnd|].
    intros i. now rewrite grouping_spec_grouper_map.
  - reflexivity.
  - exact current_maximum_greatest.
  - reflexivity.
  - reflexivity.
  - reflexivity.
  - reflexivity.
Qed.

(** C10.  The free function [grouping_emission_lines(min_wavelength,
    rest_lam_data)] and the method [EmissionLines.grouping_emission_lines],
    which reads the same two fields from its spectrum, return the same
    dictionary for every catalog and cutoff. *)
Theorem grouping_implementations_agree (self : EmissionLines.t) :
  EmissionLines.grouping_emission_lines self =
  grouping_emission_lines
    (SpectrumData.min_wavelength (EmissionLines.spectrum self))
    (SpectrumData.rest_lam_data (EmissionLines.spectrum self)).
Proof.
  unfold EmissionLines.grouping_emission_lines, grouping_emission_lines.
  apply method_grouping_loop.
Qed.

Lemma grouped_example (min_wavelength : float) (rows : list row)
    (i : string) (g : group) :
  grouping_emission_lines min_wavelength rows = Ok [(i, [g])] -> grouped g.
Proof.
  intros H. exists min_wavelength, rows, [(i, [g])], i, [g].
  split; [assumption|]. simpl. rewrite String.eqb_refl. split; [reflexivity|].
  now left.
Qed.

(** C9, as worded, fails: a chain that grew monotonically never has two
    consecutive members farther apart than the tolerance, because the running
    maximum at an insertion is then the previous member.  So it is for the
    chain 1302, 1310, 1318, and for every other. *)
Lemma monotone_chain_has_no_wide_gap :
  (grouping_emission_lines 0 chained_catalog
     = Ok [("O_I", [[1302.0; 1310.0; 1318.0]])] /\
   grew_monotonically [1302.0; 1310.0; 1318.0] /\
   ~ consecutive_gap_exceeds [1302.0; 1310.0; 1318.0]) /\
  ~ monotone_chain_with_wide_gap.
Proof.
  assert (Hno : ~ monotone_chain_with_wide_gap).
  { intros (g & Hg & Hmono & Hgap).
    apply (monotone_chain_consecutive g); auto using grouped_chain. }
  assert (Hmono : grew_monotonically [1302.0; 1310.0; 1318.0])
    by repeat constructor.
  repeat split; auto.
  intros Hgap. apply Hno. exists [1302.0; 1310.0; 1318.0].
  repeat split; auto.
  now apply (grouped_example 0 chained_catalog "O_I").
Qed.

(** C9, amended.  In every output of the grouper (a) no group holds a
    wavelength below the cutoff and (b) every member of a group after the
    first was within the tolerance of the running maximum of the members
    before it.  In a chain that grew monotonically, consecutive members are
    therefore within the tolerance of each other; it is the ends of such a
    chain that may be farther apart (1302 and 1318 below), and consecutive
    members only in a catalog that is not ascending (1295 and 1309 below).
    The distance is the same in either direction. *)
Theorem grouping_chain_invariants :
  (forall min_wavelength rows d i groups g x,
     grouping_emission_lines min_wavelength rows = Ok d ->
     dict_get d i = Some groups -> In g groups -> In x g ->
     (x <? min_wavelength) = false) /\
  (forall g, grouped g -> chain_within_tolerance g) /\
  (forall g, grouped g -> grew_monotonically g -> ~ consecutive_gap_exceeds g) /\
  (grouped [1302.0; 1310.0; 1318.0] /\
   grew_monotonically [1302.0; 1310.0; 1318.0] /\
   (distance 1302.0 1318.0 <=? tolerance) = false) /\
  (grouped [1300.0; 1295.0; 1309.0] /\
   consecutive_gap_exceeds [1300.0; 1295.0; 1309.0]) /\
  (forall x y, distance x y = distance y x).
Proof.
  split; [|split; [|split; [|split; [|split]]]]; [| | | | |exact distance_sym].
  - intros min_wavelength rows d i groups g x Hd Hi Hg Hx.
    destruct (grouping_emission_lines_invariant min_wavelength
                (Forall (fun x => (x <? min_wavelength) = false)))
      with (rows := rows) (d := d) (i := i) (groups := groups) (g := g)
      as [_ Hall]; auto.
    + intros w g0 Hw _ Hall _. apply Forall_app. auto.
    + rewrite Forall_forall in Hall. now apply Hall.
  - exact grouped_chain.
  - intros g Hg Hmono. apply monotone_chain_consecutive; auto using grouped_chain.
  - split; [|split].
    + now apply (grouped_example 0 chained_catalog "O_I").
    + repeat constructor.
    + reflexivity.
  - split.
    + now apply (grouped_example 0 unordered_catalog "O_I").
    + exists [1300.0], 1295.0, 1309.0, []. now split.
Qed.

(* ------------------------------------------------------------------ *)
(** ** Masks, windows and the profile model *)

Lemma np_select_between (lo hi : float) (w : list float) {A : Type} (a : list A) :
  length a = length w ->
  np_select (np_between w lo hi) a =
  Ok (map snd (filter (fun s => in_open_interval lo hi (fst s)) (combine w a))).
Proof.
  revert a. induction w as [|x w IH]; intros [|y a] Hlen; try discriminate.
  - reflexivity.
  - simpl. rewrite IH by (simpl in Hlen; lia). simpl.
    unfold in_open_interval. now destruct ((lo <? x) && (x <? hi)).
Qed.

Lemma np_select_between_self (lo hi : float) (w : list float) :
  np_select (np_between w lo hi) w = Ok (filter (in_open_interval lo hi) w).
Proof.
  unfold np_between. induction w as [|x w IH]; simpl.
  - reflexivity.
  - rewrite IH. simpl.
    unfold in_open_interval. now destruct ((lo <? x) && (x <? hi)).
Qed.

Lemma np_select_between_samples (lo hi : float) (w f : list float) :
  length f = length w ->
  np_select (np_between w lo hi) (samples w f) = Ok (samples_within lo hi w f).
Proof.
  unfold samples_within, samples.
  revert f. induction w as [|x w IH]; intros [|y f] Hlen; try discriminate.
  - reflexivity.
  - simpl. rewrite IH by (simpl in Hlen; lia). simpl.
    unfold in_open_interval. now destruct ((lo <? x) && (x <? hi)).
Qed.

Lemma nth_error_between (lo hi : float) (w : list float) (i : nat) (x : float) :
  nth_error w i = Some x ->
  nth_error (np_between w lo hi) i = Some (in_open_interval lo hi x).
Proof.
  intros H. unfold np_between. now rewrite nth_error_map, H.
Qed.

Lemma hd_error_rev_last {A : Type} (xs : list A) (x : A) :
  hd_error (rev xs) = Some x -> nth_error xs (length xs - 1) = Some x.
Proof.
  intros H. destruct (rev xs) as [|y ys] eqn:E; [discriminate|].
  injection H as ->.
  assert (xs = rev ys ++ [x]) as ->.
  { rewrite <- (rev_involutive xs), E. reflexivity. }
  rewrite length_app, nth_error_app2; simpl; [|lia].
  now replace (length (rev ys) + 1 - 1 - length (rev ys))%nat with O by lia.
Qed.

Lemma group_mask_of_spans (w : list float) (g : group) (lo hi pw : float) :
  spans g lo hi ->
  group_mask_of w g pw = Ok (np_between w (lo - pw) (hi + pw)).
Proof.
  intros [Hlo Hhi]. unfold group_mask_of, py_index.
  rewrite (hd_error_rev_last _ _ Hhi).
  destruct g; [discriminate|]. injection Hlo as ->. reflexivity.
Qed.

(** In an ascending group the first member is at most, and the last member
    at least, every other member. *)
Lemma ascending_group_bounds (g : group) (lo hi : float) :
  StronglySorted (fun a b => (a <=? b) = true) g -> spans g lo hi ->
  exists middle,
    (g = [lo] /\ hi = lo \/ g = lo :: middle ++ [hi]) /\
    Forall (fun x => (lo <=? x) = true /\ (x <=? hi) = true) middle /\
    (g <> [lo] -> (lo <=? hi) = true).
Proof.
  intros Hs [Hlo Hhi]. destruct g as [|x g]; [discriminate|].
  injection Hlo as ->.
  destruct (rev g) as [|y ys] eqn:E.
  - apply (f_equal (@rev float)) in E. rewrite rev_involutive in E. subst g.
    simpl in Hhi. injection Hhi as <-. exists []. split; [now left|].
    split; [constructor | simpl; congruence].
  - simpl in Hhi. rewrite E in Hhi. simpl in Hhi. injection Hhi as ->.
    assert (g = rev ys ++ [hi]) as ->.
    { rewrite <- (rev_involutive g), E. reflexivity. }
    exists (rev ys). split; [now right|].
    inversion Hs as [|? ? Hs' Hall]; subst.
    rewrite Forall_app in Hall. destruct Hall as [Hmid Hlast].
    split.
    + clear E Hs. induction (rev ys) as [|z zs IH]; [constructor|].
      inversion Hmid; subst. inversion Hs' as [|? ? Hs'' Hz]; subst.
      rewrite Forall_app in Hz. destruct Hz as [_ Hz].
      constructor; [split; [assumption | now inversion Hz] | now apply IH].
    + intros _. now inversion Hlast.
Qed.








Lemma submodels_fold (vs : list Voigt1D) (m : Model) :
  submodels (fold_left (fun composite v => Compound composite (Voigt v)) vs m)
  = submodels m ++ vs.
Proof.
  revert m. induction vs as [|v vs IH]; intros m; simpl.
  - now rewrite app_nil_r.
  - rewrite IH. simpl. now rewrite <- app_assoc.
Qed.

Lemma combine_profiles_submodels (vs : list Voigt1D) :
  vs <> [] ->
  exists model, combine_profiles vs = Ok model /\ submodels model = vs /\
                (forall v, vs = [v] -> model = Voigt v).
Proof.
  destruct vs as [|v vs]; [congruence|]. intros _.
  eexists. split; [reflexivity|]. split.
  - simpl. now rewrite submodels_fold.
  - intros v' [= <- ->]. reflexivity.
Qed.

(** C7.  For a group that spans the rest wavelengths from w_min to w_max,
    the fit mask selects exactly the samples whose wavelength lies in the
    open interval (w_min - half_width, w_max + half_width), and the seed mask
    of each rest wavelength of the group selects exactly the samples in
    (rest - half_width/2, rest + half_width/2).  The span of a group is from
    its first to its last member, which in an ascending group are its least
    and its greatest. *)
Theorem fit_masks_select_open_intervals (w f : list float) (g : group)
    (w_min w_max half_width : float) :
  length f = length w ->
  spans g w_min w_max ->
  (exists group_mask,
     group_mask_of w g half_width = Ok group_mask /\
     np_select group_mask (samples w f)
       = Ok (samples_within (w_min - half_width) (w_max + half_width) w f) /\
     np_select group_mask w
       = Ok (filter (in_open_interval (w_min - half_width) (w_max + half_width)) w) /\
     np_select group_mask f
       = Ok (map snd (samples_within (w_min - half_width) (w_max + half_width) w f)) /\
     forall i x, nth_error w i = Some x ->
       nth_error group_mask i
         = Some (in_open_interval (w_min - half_width) (w_max + half_width) x)) /\
  (forall rest, In rest g ->
     np_select (wavelength_mask_of w rest half_width) (samples w f)
       = Ok (samples_within (rest - half_width / 2) (rest + half_width / 2) w f) /\
     np_select (wavelength_mask_of w rest half_width) f
       = Ok (map snd (samples_within (rest - half_width / 2)
                                     (rest + half_width / 2) w f)) /\
     forall i x, nth_error w i = Some x ->
       nth_error (wavelength_mask_of w rest half_width) i
         = Some (in_open_interval (rest - half_width / 2)
                                  (rest + half_width / 2) x)) /\
  (StronglySorted (fun a b => (a <=? b) = true) g ->
   exists middle,
     (g = [w_min] /\ w_max = w_min \/ g = w_min :: middle ++ [w_max]) /\
     Forall (fun x => (w_min <=? x) = true /\ (x <=? w_max) = true) middle /\
     (g <> [w_min] -> (w_min <=? w_max) = true)).
Proof.
  intros Hlen Hspan. split; [|split];
    [| |intros Hsorted; now apply ascending_group_bounds].
  - exists (np_between w (w_min - half_width) (w_max + half_width)).
    split; [now apply group_mask_of_spans|].
    split; [now apply np_select_between_samples|].
    split; [apply np_select_between_self|].
    split; [now apply np_select_between|].
    intros i x. apply nth_error_between.
  - intros rest _. unfold wavelength_mask_of.
    split; [now apply np_select_between_samples|].
    split; [now apply np_select_between|].
    intros i x. apply nth_error_between.
Qed.

Lemma fit_masks_select_open_intervals_witness :
  (exists group_mask,
     group_mask_of example_w example_group 1 = Ok group_mask /\
     np_select group_mask (samples example_w example_f)
       = Ok (samples_within (1302.0 - 1) (1306.0 + 1) example_w example_f) /\
     np_select group_mask example_w
       = Ok (filter (in_open_interval (1302.0 - 1) (1306.0 + 1)) example_w) /\
     np_select group_mask example_f
       = Ok (map snd (samples_within (1302.0 - 1) (1306.0 + 1)
                        example_w example_f)) /\
     forall i x, nth_error example_w i = Some x ->
       nth_error group_mask i
         = Some (in_open_interval (1302.0 - 1) (1306.0 + 1) x)) /\
  (forall rest, In rest example_group ->
     np_select (wavelength_mask_of example_w rest 1) (samples example_w example_f)
       = Ok (samples_within (rest - 1 / 2) (rest + 1 / 2) example_w example_f) /\
     np_select (wavelength_mask_of example_w rest 1) example_f
       = Ok (map snd (samples_within (rest - 1 / 2) (rest + 1 / 2)
                        example_w example_f)) /\
     forall i x, nth_error example_w i = Some x ->
       nth_error (wavelength_mask_of example_w rest 1) i
         = Some (in_open_interval (rest - 1 / 2) (rest + 1 / 2) x)) /\
  (StronglySorted (fun a b => (a <=? b) = true) example_group ->
   exists middle,
     (example_group = [1302.0] /\ 1306.0 = 1302.0 \/
      example_group = 1302.0 :: middle ++ [1306.0]) /\
     Forall (fun x => (1302.0 <=? x) = true /\ (x <=? 1306.0) = true) middle /\
     (example_group <> [1302.0] -> (1302.0 <=? 1306.0) = true)).
Proof.
  apply (fit_masks_select_open_intervals example_w example_f example_group
           1302.0 1306.0 1).
  - reflexivity.
  - split; reflexivity.
Defined.

(** C8, as worded, fails: two samples are not enough for the window builder
    to return.  When the first two wavelengths coincide the step is 0, the
    quotient is infinite and [math.floor] raises [OverflowError], in both
    implementations. *)
Lemma peak_width_finder_needs_a_finite_quotient :
  (2 <= length repeated_w)%nat /\
  SpectrumData.wavelength_data repeated_spectrum = repeated_w /\
  peak_width_finder "G130M" repeated_w = Raise OverflowError /\
  peak_width_finder "G140L" repeated_w = Raise OverflowError /\
  SpectrumData.peak_width_finder repeated_spectrum = Raise OverflowError.
Proof. repeat split; vm_compute; try reflexivity. lia. Qed.

(** C8, amended.  For every grating or resolution class and every wavelength
    array with at least two samples, the half-width is one of the two
    constants -- 5.0 when the grating holds the letter L (for the method:
    when the resolution is 'HIGH'), else 0.5 -- and the quotient of the
    half-width by the first wavelength step
    [wavelength_data[1] - wavelength_data[0]] decides the outcome.  When the
    quotient is a finite number the builder returns the half-width, the
    floor of the quotient -- the greatest integer not above it -- and a flux
    range of 2 times the half-width.  When it is not (a zero step, a NaN)
    the builder raises what [math.floor] raises and returns nothing.  Both
    implementations do so. *)
Theorem peak_width_finder_spec (grating : string) (self : SpectrumData.t)
    (wavelength_data : list float) :
  (2 <= length wavelength_data)%nat ->
  SpectrumData.wavelength_data self = wavelength_data ->
  exists half_width half_width' step,
    step = nth 1 wavelength_data 0 - nth 0 wavelength_data 0 /\
    half_width = (if py_in_str "L" grating then 5.0 else 0.5) /\
    half_width'
    = (if String.eqb (SpectrumData.resolution self) "HIGH" then 5.0 else 0.5) /\
    (is_finite (half_width / step) = true ->
     exists pixels,
       peak_width_finder grating wavelength_data
       = Ok (half_width, pixels, 2 * half_width) /\
       is_floor pixels (half_width / step)) /\
    (is_finite (half_width / step) = false ->
     peak_width_finder grating wavelength_data
     = Raise (if is_nan (half_width / step)
              then ValueError else OverflowError)) /\
    (is_finite (half_width' / step) = true ->
     exists pixels,
       SpectrumData.peak_width_finder self
       = Ok (half_width', pixels, 2 * half_width') /\
       is_floor pixels (half_width' / step)) /\
    (is_finite (half_width' / step) = false ->
     SpectrumData.peak_width_finder self
     = Raise (if is_nan (half_width' / step)
              then ValueError else OverflowError)).
Proof.
  intros Hlen Hself.
  destruct wavelength_data as [|w0 [|w1 later]]; simpl in Hlen; try lia.
  exists (if py_in_str "L" grating then 5.0 else 0.5).
  exists (if String.eqb (SpectrumData.resolution self) "HIGH" then 5.0 else 0.5).
  exists (w1 - w0).
  split; [reflexivity|]. split; [reflexivity|]. split; [reflexivity|].
  unfold SpectrumData.peak_width_finder, peak_width_finder,
    PEAK_WIDTH_LOW_RES, PEAK_WIDTH_HIGH_RES.
  rewrite Hself. simpl.
  repeat split.
  - intros Hfin. destruct (py_floor_is_floor _ Hfin) as (n & -> & Hn).
    now exists n.
  - intros Hfin. now rewrite (py_floor_not_finite _ Hfin).
  - intros Hfin. destruct (py_floor_is_floor _ Hfin) as (n & -> & Hn).
    now exists n.
  - intros Hfin. now rewrite (py_floor_not_finite _ Hfin).
Qed.

Lemma peak_width_finder_spec_witness :
  exists pixels,
    SpectrumData.peak_width_finder example_spectrum
    = Ok (5.0, pixels, 2 * 5.0) /\
    is_floor pixels (5.0 / (1301.0 - 1300.0)).
Proof.
  destruct (peak_width_finder_spec "G130M" example_spectrum example_w)
    as (half_width & half_width' & step & -> & -> & -> & _ & _ & Hreturns & _).
  - simpl. lia.
  - reflexivity.
  - apply Hreturns. reflexivity.
Defined.




(* ------------------------------------------------------------------ *)
(** ** The fitting loop *)

Lemma voigt_profiles_loop_length (w f : list float) (pw : float) (g : group)
    (vs : list Voigt1D) :
  voigt_profiles_loop w f pw g = Ok vs -> length vs = length g.
Proof.
  revert vs. induction g as [|x g IH]; simpl; intros vs H.
  - now injection H as <-.
  - destruct (np_select _ f) as [window|]; simpl in H; [|discriminate].
    destruct (np_max window); simpl in H; [|discriminate].
    destruct (voigt_profiles_loop w f pw g) as [vs'|]; simpl in H;
      [|discriminate].
    injection H as <-. simpl. now rewrite (IH vs').
Qed.

Lemma group_mask_of_between (w : list float) (g : group) (pw : float)
    (mask : list bool) :
  group_mask_of w g pw = Ok mask ->
  g <> [] /\ exists lo hi, mask = np_between w lo hi.
Proof.
  unfold group_mask_of. destruct g as [|x g]; [discriminate|]. simpl.
  destruct (py_index (x :: g) (length g - 0)) as [y|]; simpl; [|discriminate].
  intros [= <-]. split; [discriminate | eauto].
Qed.

(** [process_group], case by case. *)
Lemma process_group_cases (fitter : Fitter) (w f : list float) (pw : float)
    (ion_name : string) (g : group) (loc : locals) (s : world) :
  process_group fitter w f pw ion_name g loc s =
  match prepare_group w f pw g with
  | Raise e => Raises e s
  | Ok (group_mask, composite_model, w_masked, f_masked) =>
      let s1 := with_emission_line s
                  (new_emission_line ion_name g group_mask f_masked) in
      match fitter composite_model w_masked f_masked with
      | Raise RuntimeError => Returns loc s1
      | Raise e => Raises e s1
      | Ok fitted =>
          match candidates_loop fitted (length g) 0 g [] [] with
          | Raise e => Raises e s1
          | Ok (group_rest_candidates, group_obs_candidates) =>
              match plt_show "Doppler Calculation" s1 with
              | Raises e s2 => Raises e s2
              | Returns _ s2 =>
                  Returns
                    {| rest_candidates :=
                         rest_candidates loc ++ [group_rest_candidates];
                       obs_candidates :=
                         obs_candidates loc ++ [group_obs_candidates];
                       emission_line_objs :=
                         emission_line_objs loc ++ [length (objects s)];
                       all_fitted_models := all_fitted_models loc ++ [fitted] |}
                    s2
              end
          end
      end
  end.
Proof.
  unfold process_group, prepare_group, build_composite_model, bind.
  destruct (group_mask_of w g pw) as [mask|e] eqn:Hmask; simpl; [|reflexivity].
  destruct (group_mask_of_between _ _ _ _ Hmask) as (Hne & lo & hi & ->).
  destruct (voigt_profiles_loop w f pw g) as [vs|e] eqn:Hvs; simpl;
    [|reflexivity].
  rewrite np_select_between_self. simpl.
  destruct (combine_profiles_submodels vs) as (model & -> & _).
  { apply voigt_profiles_loop_length in Hvs. destruct vs, g; simpl in *;
      congruence. }
  simpl.
  destruct (np_select (np_between w lo hi) f) as [mf|e]; simpl; [|reflexivity].
  unfold with_emission_line, new_emission_line.
  destruct (fitter model _ mf) as [fitted|e]; [|now destruct e].
  destruct (candidates_loop fitted (length g) 0 g [] []) as [[gr go]|e]; simpl;
    [|reflexivity].
  now destruct (plt_show "Doppler Calculation" _).
Qed.

Lemma groups_loop_step (fitter : Fitter) (w f : list float) (pw : float)
    (ion_name : string) (g : group) (later : list group) (loc loc' : locals)
    (s s' : world) :
  process_group fitter w f pw ion_name g loc s = Returns loc' s' ->
  groups_loop fitter w f pw ion_name (g :: later) loc s
  = groups_loop fitter w f pw ion_name later loc' s'.
Proof. intros H. simpl. unfold bind. now rewrite H. Qed.


Lemma ions_loop_raises (fitter : Fitter) (w f : list float) (pw : float)
    (grouped_lines : dict (list group)) (ion_name : string)
    (groups : list group) (ions : list string) (loc : locals)
    (s s' : world) (e : exn) :
  dict_get grouped_lines ion_name = Some groups ->
  groups_loop fitter w f pw ion_name groups loc s = Raises e s' ->
  ions_loop fitter w f pw grouped_lines (ion_name :: ions) loc s = Raises e s'.
Proof. intros Hget H. simpl. rewrite Hget. unfold bind. now rewrite H. Qed.

(** The Doppler estimate depends on the accumulators of the fitting loop and
    on the decision list only. *)
Lemma decisions_loop_value (loc : locals) (decisions : list bool) :
  forall i dv s s',
    value_of (decisions_loop loc i decisions dv s)
    = value_of (decisions_loop loc i decisions dv s').
Proof.
  induction decisions as [|b ds IH]; intros i dv s s'; simpl; [reflexivity|].
  destruct b; [|apply IH].
  unfold bind.
  destruct (py_index (emission_line_objs loc) i) as [obj|]; [|reflexivity].
  destruct (py_index (all_fitted_models loc) i) as [fm|]; [|reflexivity].
  simpl.
  destruct (py_index (rest_candidates loc) i) as [r|]; [|reflexivity].
  simpl.
  destruct (group_doppler_loop (obs_candidates loc) i 0 r []) as [gd|];
    [|reflexivity].
  simpl. destruct (py_mean gd) as [v|]; [|reflexivity].
  simpl. apply IH.
Qed.

Lemma doppler_aggregate_value (loc : locals) (s s' : world) :
  doppler_bool_list s' = doppler_bool_list s ->
  value_of (doppler_aggregate loc s') = value_of (doppler_aggregate loc s).
Proof.
  intros H. unfold doppler_aggregate. rewrite H.
  destruct (negb (0 <? length (doppler_bool_list s))%nat); [reflexivity|].
  destruct (negb (length (doppler_bool_list s)
                  =? length (rest_candidates loc))%nat); [reflexivity|].
  unfold bind.
  pose proof (decisions_loop_value loc (doppler_bool_list s) 0 [] s' s) as Hv.
  destruct (decisions_loop loc 0 (doppler_bool_list s) [] s') as [dv1 s1|e1 s1],
           (decisions_loop loc 0 (doppler_bool_list s) [] s) as [dv2 s2|e2 s2];
    simpl in Hv; try discriminate; injection Hv as ->; [|reflexivity].
  now destruct (py_mean dv2).
Qed.


(** C5, as worded, fails: the record of a candidate is appended to
    [emission_line_list] before the fit is tried, and it stays there when the
    solver fails.  So it does for the example group under a solver that never
    converges. *)
Lemma failed_candidate_stays_listed :
  (fit_fails never_converges example_w example_f 2 example_group /\
   exists s',
     process_group never_converges example_w example_f 2 "O_I" example_group
       no_locals (empty_world []) = Returns no_locals s' /\
     emission_line_list (empty_world []) = [] /\
     emission_line_list s' = [O] /\
     option_map wavelength_group (nth_error (objects s') 0) = Some example_group /\
     option_map fitted_model (nth_error (objects s') 0) = Some None) /\
  ~ failed_candidate_dropped_entirely.
Proof.
  assert (Hfail : fit_fails never_converges example_w example_f 2 example_group).
  { unfold fit_fails. do 4 eexists. split; reflexivity. }
  split.
  - split; [exact Hfail|]. eexists. split; [vm_compute; reflexivity|].
    repeat split.
  - intros H.
    destruct (H never_converges example_w example_f 2 "O_I" example_group
                no_locals (empty_world []) Hfail) as (s' & Hrun & _ & _ & Hlist).
    vm_compute in Hrun. injection Hrun as <-. discriminate Hlist.
Qed.

(** C5, amended.  When the solver fails on a candidate, the candidate adds
    no rest or observed wavelengths and no fitted model to the accumulators
    of the fitting loop, no figure is shown and no decision is recorded for
    it, and the loop goes on with the next group; nothing is retried.  Its
    record, created before the fit with no fitted model and no observed
    wavelength, stays in [emission_line_list]; the Doppler estimate does not
    read it. *)
Theorem failed_fit_skips_candidate (fitter : Fitter) (w f : list float)
    (peak_width : float) (ion_name : string) (g : group) (loc : locals)
    (s : world) :
  fit_fails fitter w f peak_width g ->
  exists record,
    process_group fitter w f peak_width ion_name g loc s
      = Returns loc (with_emission_line s record) /\
    wavelength_group record = g /\
    ion record = ion_name /\
    fitted_model record = None /\
    obs_lam record = None /\
    doppler_bool_list (with_emission_line s record) = doppler_bool_list s /\
    noise_bool_list (with_emission_line s record) = noise_bool_list s /\
    key_events (with_emission_line s record) = key_events s /\
    doppler_log (with_emission_line s record) = doppler_log s /\
    emission_line_list (with_emission_line s record)
      = emission_line_list s ++ [length (objects s)] /\
    (forall later,
       groups_loop fitter w f peak_width ion_name (g :: later) loc s
       = groups_loop fitter w f peak_width ion_name later loc
           (with_emission_line s record)) /\
    (forall loc',
       value_of (doppler_aggregate loc' (with_emission_line s record))
       = value_of (doppler_aggregate loc' s)).
Proof.
  intros (mask & composite & mw & mf & Hprep & Hfit).
  exists (new_emission_line ion_name g mask mf).
  assert (Hrun : process_group fitter w f peak_width ion_name g loc s
                 = Returns loc (with_emission_line s
                                  (new_emission_line ion_name g mask mf))).
  { rewrite process_group_cases, Hprep. simpl. now rewrite Hfit. }
  split; [exact Hrun|]. repeat split.
  - intros later. now apply groups_loop_step.
  - intros loc'. now apply doppler_aggregate_value.
Qed.

Lemma failed_fit_skips_candidate_witness :
  exists record,
    process_group never_converges example_w example_f 2 "O_I" example_group
      no_locals (empty_world [KeyPress (Some "y")])
      = Returns no_locals
          (with_emission_line (empty_world [KeyPress (Some "y")]) record) /\
    wavelength_group record = example_group /\
    ion record = "O_I" /\
    fitted_model record = None /\
    obs_lam record = None /\
    doppler_bool_list
      (with_emission_line (empty_world [KeyPress (Some "y")]) record) = [] /\
    noise_bool_list
      (with_emission_line (empty_world [KeyPress (Some "y")]) record) = [] /\
    key_events
      (with_emission_line (empty_world [KeyPress (Some "y")]) record)
      = [KeyPress (Some "y")] /\
    doppler_log
      (with_emission_line (empty_world [KeyPress (Some "y")]) record) = [] /\
    emission_line_list
      (with_emission_line (empty_world [KeyPress (Some "y")]) record)
      = [] ++ [O] /\
    (forall later,
       groups_loop never_converges example_w example_f 2 "O_I"
         (example_group :: later) no_locals (empty_world [KeyPress (Some "y")])
       = groups_loop never_converges example_w example_f 2 "O_I" later no_locals
           (with_emission_line (empty_world [KeyPress (Some "y")]) record)) /\
    (forall loc',
       value_of (doppler_aggregate loc'
                   (with_emission_line (empty_world [KeyPress (Some "y")])
                      record))
       = value_of (doppler_aggregate loc' (empty_world [KeyPress (Some "y")]))).
Proof.
  apply (failed_fit_skips_candidate never_converges example_w example_f 2
           "O_I" example_group no_locals (empty_world [KeyPress (Some "y")])).
  unfold fit_fails. do 4 eexists. split; reflexivity.
Defined.

(* ------------------------------------------------------------------ *)
(** ** The key callback *)




(* ------------------------------------------------------------------ *)
(** ** The Doppler aggregation *)

(** Python's [sum] adds from the left, starting from 0: its value on a
    sequence that ends with [x] is its value on the sequence before [x],
    plus [x]. *)
Lemma py_sum_sum_in_order (xs : list float) : py_sum xs = sum_in_order xs.
Proof.
  unfold py_sum, sum_in_order.
  induction xs as [|x xs IH] using rev_ind; [reflexivity|].
  rewrite fold_left_app, rev_unit. simpl. now rewrite IH.
Qed.

Lemma arithmetic_mean_py (xs : list float) :
  arithmetic_mean xs = py_sum xs / py_len_float xs.
Proof.
  unfold arithmetic_mean. now rewrite py_sum_sum_in_order.
Qed.

Lemma py_mean_arithmetic_mean (xs : list float) :
  xs <> [] -> py_mean xs = Ok (arithmetic_mean xs).
Proof.
  intros H. rewrite arithmetic_mean_py. destruct xs; [contradiction|].
  reflexivity.
Qed.

Lemma same_lists_refl (s : world) : same_lists s s.
Proof. now repeat split. Qed.

Lemma same_lists_trans (s1 s2 s3 : world) :
  same_lists s1 s2 -> same_lists s2 s3 -> same_lists s1 s3.
Proof.
  intros (A1 & A2 & A3 & A4 & A5 & A6) (B1 & B2 & B3 & B4 & B5 & B6).
  repeat split; congruence.
Qed.

Lemma update_nth_length {A : Type} (xs : list A) (i : nat) (f : A -> A) :
  length (update_nth xs i f) = length xs.
Proof.
  revert i. induction xs as [|x xs IH]; intros [|i]; simpl; auto.
Qed.

Lemma update_fitted_model_same_lists (ref : nat) (m : Model) (s : world) :
  exists s', update_fitted_model ref m s = Returns tt s' /\ same_lists s s'.
Proof.
  eexists. split; [reflexivity|]. repeat split. simpl. apply update_nth_length.
Qed.



Lemma candidates_loop_pairs (fitted : Model) (n : nat) (items : list float) :
  forall i ra oa r o,
    candidates_loop fitted n i items ra oa = Ok (r, o) ->
    (n = 1%nat -> (length items <= 1)%nat) ->
    length oa = length ra ->
    r = ra ++ items /\ length o = length r.
Proof.
  induction items as [|x items IH]; intros i ra oa r o H Hn Hlen; simpl in H.
  - injection H as <- <-. now rewrite app_nil_r.
  - destruct (Nat.eqb_spec n 1) as [->|Hne].
    + destruct (model_x_0 fitted) as [c|]; simpl in H; [|discriminate].
      injection H as <- <-.
      assert (items = []) as ->.
      { specialize (Hn eq_refl). simpl in Hn. destruct items; simpl in *;
          [reflexivity | lia]. }
      split; [reflexivity|]. rewrite !length_app. simpl. lia.
    + destruct (model_getitem fitted i) as [c|]; simpl in H; [|discriminate].
      apply IH in H.
      * destruct H as [-> Hl]. split; [now rewrite <- app_assoc | exact Hl].
      * congruence.
      * rewrite !length_app. simpl. lia.
Qed.

Lemma prepare_group_nonempty (w f : list float) (pw : float) (g : group) x :
  prepare_group w f pw g = Ok x -> g <> [].
Proof.
  unfold prepare_group. destruct (group_mask_of w g pw) eqn:E; [|discriminate].
  intros _. now destruct (group_mask_of_between _ _ _ _ E).
Qed.

Lemma process_group_wf (fitter : Fitter) (w f : list float) (pw : float)
    (ion_name : string) (g : group) (loc loc' : locals) (s s' : world) :
  locals_wf loc ->
  process_group fitter w f pw ion_name g loc s = Returns loc' s' ->
  locals_wf loc'.
Proof.
  intros Hwf. rewrite process_group_cases.
  destruct (prepare_group w f pw g) as [[[[mask composite] mw] mf]|] eqn:Hprep;
    [|discriminate].
  cbv zeta.
  destruct (fitter composite mw mf) as [fitted|e].
  - destruct (candidates_loop fitted (length g) 0 g [] []) as [[r o]|] eqn:Hc;
      [|discriminate].
    destruct (plt_show "Doppler Calculation" _); [|discriminate].
    intros [= <- _].
    destruct (candidates_loop_pairs _ _ _ _ _ _ _ _ Hc) as [-> Hlen];
      [lia | reflexivity |].
    destruct Hwf as (H1 & H2 & H3). unfold locals_wf. simpl.
    rewrite !length_app. simpl. repeat split; try lia.
    apply Forall2_app; [assumption|]. constructor; [|constructor].
    split; [|assumption]. simpl. now apply (prepare_group_nonempty _ _ _ _ _ Hprep).
  - destruct e; try discriminate. now intros [= <- _].
Qed.

Lemma groups_loop_wf (fitter : Fitter) (w f : list float) (pw : float)
    (ion_name : string) (groups : list group) :
  forall loc loc' s s',
    locals_wf loc ->
    groups_loop fitter w f pw ion_name groups loc s = Returns loc' s' ->
    locals_wf loc'.
Proof.
  induction groups as [|g groups IH]; intros loc loc' s s' Hwf; simpl.
  - now intros [= <- _].
  - unfold bind.
    destruct (process_group fitter w f pw ion_name g loc s) as [loc1 s1|] eqn:E;
      [|discriminate].
    apply IH. now apply (process_group_wf _ _ _ _ _ _ _ _ _ _ Hwf E).
Qed.

Lemma ions_loop_wf (fitter : Fitter) (w f : list float) (pw : float)
    (grouped_lines : dict (list group)) (ions : list string) :
  forall loc loc' s s',
    locals_wf loc ->
    ions_loop fitter w f pw grouped_lines ions loc s = Returns loc' s' ->
    locals_wf loc'.
Proof.
  induction ions as [|i ions IH]; intros loc loc' s s' Hwf; simpl.
  - now intros [= <- _].
  - destruct (dict_get grouped_lines i) as [groups|]; [|discriminate].
    unfold bind.
    destruct (groups_loop fitter w f pw i groups loc s) as [loc1 s1|] eqn:E;
      [|discriminate].
    apply IH. now apply (groups_loop_wf _ _ _ _ _ _ _ _ _ _ Hwf E).
Qed.

Lemma no_locals_wf : locals_wf no_locals.
Proof. repeat split. constructor. Qed.

Lemma skipn_nth_error {A : Type} (xs : list A) (i : nat) (x : A) :
  nth_error xs i = Some x -> skipn i xs = x :: skipn (S i) xs.
Proof.
  revert i. induction xs as [|y xs IH]; intros [|i]; simpl; try discriminate.
  - now intros [= ->].
  - intros H. now rewrite (IH i H).
Qed.

Lemma nth_error_in_range {A : Type} (xs : list A) (i : nat) :
  (i < length xs)%nat -> exists x, nth_error xs i = Some x.
Proof.
  intros H. destruct (nth_error xs i) eqn:E; [eauto|].
  apply nth_error_None in E. lia.
Qed.

Lemma Forall2_nth_error {A B : Type} (R : A -> B -> Prop) (xs : list A)
    (ys : list B) (i : nat) (x : A) :
  Forall2 R xs ys -> nth_error xs i = Some x ->
  exists y, nth_error ys i = Some y /\ R x y.
Proof.
  intros H. revert i. induction H as [|a b xs ys Hab _ IH]; intros [|i]; simpl;
    try discriminate.
  - intros [= ->]. eauto.
  - apply IH.
Qed.

Lemma group_doppler_loop_pairs (obs : list (list float)) (i : nat)
    (obs_i : list float) (rests : list float) :
  nth_error obs i = Some obs_i ->
  forall j group_doppler,
    (j + length rests <= length obs_i)%nat ->
    group_doppler_loop obs i j rests group_doppler
    = Ok (group_doppler ++
          map (fun p => doppler_optical (fst p) (snd p))
              (combine rests (skipn j obs_i))).
Proof.
  intros Hobs. induction rests as [|r rests IH]; intros j gd Hlen; simpl.
  - now rewrite app_nil_r.
  - unfold py_index. rewrite Hobs. simpl.
    destruct (nth_error_in_range obs_i j) as [o Ho]; [simpl in Hlen; lia|].
    rewrite Ho. simpl. rewrite IH by (simpl in Hlen; lia).
    rewrite (skipn_nth_error _ _ _ Ho). simpl. now rewrite <- app_assoc.
Qed.

Lemma decisions_loop_velocities (loc : locals) :
  locals_wf loc ->
  forall decisions i dv s,
    (i + length decisions)%nat = length (rest_candidates loc) ->
    exists s',
      decisions_loop loc i decisions dv s
      = Returns (dv ++ map group_velocity
                         (accepted_groups decisions
                            (skipn i (rest_candidates loc))
                            (skipn i (obs_candidates loc)))) s' /\
      same_lists s s'.
Proof.
  intros (Hobjs & Hmodels & Hpairs).
  induction decisions as [|b ds IH]; intros i dv s Hlen.
  - exists s. split; [|apply same_lists_refl]. simpl.
    unfold accepted_groups. simpl. now rewrite app_nil_r.
  - simpl in Hlen.
    destruct (nth_error_in_range (rest_candidates loc) i) as [r Hr]; [lia|].
    destruct (Forall2_nth_error _ _ _ _ _ Hpairs Hr) as (o & Ho & Hne & Hlo).
    assert (Hacc : forall b',
      accepted_groups (b' :: ds) (skipn i (rest_candidates loc))
                      (skipn i (obs_candidates loc))
      = (if b' then [(r, o)] else []) ++
        accepted_groups ds (skipn (S i) (rest_candidates loc))
                        (skipn (S i) (obs_candidates loc))).
    { intros b'. unfold accepted_groups.
      rewrite (skipn_nth_error _ _ _ Hr), (skipn_nth_error _ _ _ Ho).
      simpl. now destruct b'. }
    rewrite Hacc. destruct b.
    + destruct (nth_error_in_range (emission_line_objs loc) i) as [obj Hobj];
        [lia|].
      destruct (nth_error_in_range (all_fitted_models loc) i) as [fm Hfm];
        [lia|].
      destruct (update_fitted_model_same_lists obj fm s) as (s1 & Hs1 & Hsame).
      destruct (IH (S i) (dv ++ [group_velocity (r, o)]) s1) as (s' & Hrun & Hs');
        [lia|].
      exists s'. split; [|now apply (same_lists_trans _ s1)].
      cbn [decisions_loop]. unfold bind, py_index.
      rewrite Hobj, Hfm. cbn [lift ret]. rewrite Hs1, Hr. cbn [lift ret].
      rewrite (group_doppler_loop_pairs _ _ _ _ Ho) by (simpl; lia).
      cbn [lift ret app skipn].
      assert (Hmean : py_mean (map (fun p => doppler_optical (fst p) (snd p))
                                   (combine r o))
                      = Ok (group_velocity (r, o))).
      { unfold group_velocity. simpl fst. simpl snd.
        apply py_mean_arithmetic_mean.
        destruct r as [|r0 r]; [congruence|]. destruct o as [|o0 o];
          discriminate. }
      rewrite Hmean. cbn [lift ret]. rewrite Hrun.
      simpl. now rewrite <- app_assoc.
    + destruct (IH (S i) dv s) as (s' & Hrun & Hs'); [lia|].
      exists s'. split; [|assumption]. cbn [decisions_loop]. now rewrite Hrun.
Qed.

(* ------------------------------------------------------------------ *)
(** ** Binary64 facts behind a zero Doppler shift *)

Lemma is_wavelength_finite (x : float) :
  is_wavelength x = true -> exists m e, Prim2SF x = S754_finite false m e.
Proof.
  unfold is_wavelength. rewrite !FloatAxioms.ltb_spec.
  change (Prim2SF 0) with (S754_zero false).
  change (Prim2SF infinity) with (S754_infinity false).
  destruct (Prim2SF x) as [s|[|]| |[|] m e]; simpl; try discriminate.
  intros _. eauto.
Qed.

Lemma float_sub_diag (x : float) (s : bool) (m : positive) (e : Z) :
  Prim2SF x = S754_finite s m e -> x - x = 0.
Proof.
  intros H. apply Prim2SF_inj. rewrite FloatAxioms.sub_spec, H.
  unfold SF64sub, SFsub. rewrite Z.sub_diag. reflexivity.
Qed.

Lemma float_zero_div (y : float) :
  (exists m e, Prim2SF y = S754_finite false m e) \/
  Prim2SF y = S754_infinity false ->
  0 / y = 0.
Proof.
  intros H. apply Prim2SF_inj. rewrite FloatAxioms.div_spec.
  change (Prim2SF 0) with (S754_zero false).
  destruct H as [(m & e & ->)| ->]; reflexivity.
Qed.

Lemma digits2_pos_log2 (p : positive) :
  Zpos (digits2_pos p) = (Z.log2 (Zpos p) + 1)%Z.
Proof.
  assert (H : digits2_pos p = Pos.size p) by (induction p; simpl; congruence).
  rewrite H. destruct p; simpl; lia.
Qed.

Lemma shr_1_m (mrs : shr_record) :
  (0 <= shr_m mrs)%Z -> shr_m (shr_1 mrs) = Z.div2 (shr_m mrs).
Proof.
  destruct mrs as [m r s]. simpl. destruct m as [|[p|p|]|p]; simpl; try reflexivity.
  all: lia.
Qed.

Lemma iter_shr_1_m (p : positive) : forall mrs,
  (0 <= shr_m mrs)%Z ->
  shr_m (iter_pos shr_1 p mrs) = Z.shiftr (shr_m mrs) (Zpos p).
Proof.
  induction p as [p IH|p IH|]; intros mrs H; simpl iter_pos.
  - assert (H1 : (0 <= shr_m (shr_1 mrs))%Z)
      by (rewrite shr_1_m by assumption; apply Z.div2_nonneg; assumption).
    assert (H2 : (0 <= shr_m (iter_pos shr_1 p (shr_1 mrs)))%Z)
      by (rewrite IH by assumption; apply Z.shiftr_nonneg; assumption).
    rewrite IH, IH, shr_1_m by assumption.
    rewrite Z.div2_spec, !Z.shiftr_shiftr by lia. f_equal. lia.
  - assert (H2 : (0 <= shr_m (iter_pos shr_1 p mrs))%Z)
      by (rewrite IH by assumption; apply Z.shiftr_nonneg; assumption).
    rewrite IH, IH by assumption.
    rewrite !Z.shiftr_shiftr by lia. f_equal. lia.
  - rewrite shr_1_m by assumption. apply Z.div2_spec.
Qed.

Lemma shr_record_of_loc_m (m : Z) (l : location) :
  shr_m (shr_record_of_loc m l) = m.
Proof. destruct l as [|[| |]]; reflexivity. Qed.

Lemma shr_fexp_pos (m e : Z) (l : location) :
  (0 < m)%Z -> (SpecFloat.emin prec emax < Zdigits2 m + e)%Z ->
  (0 < shr_m (fst (shr_fexp prec emax m e l)))%Z /\
  (SpecFloat.emin prec emax <= snd (shr_fexp prec emax m e l))%Z.
Proof.
  intros Hm He. unfold shr_fexp, shr.
  destruct m as [|p|p]; try lia. simpl Zdigits2 in *.
  rewrite digits2_pos_log2 in *.
  assert (Hp : (0 < prec)%Z) by reflexivity.
  remember (fexp prec emax (Z.log2 (Z.pos p) + 1 + e) - e)%Z as n eqn:En.
  unfold fexp in En.
  destruct n as [|q|q]; simpl fst; simpl snd; rewrite ?shr_record_of_loc_m.
  - lia.
  - rewrite iter_shr_1_m by (rewrite shr_record_of_loc_m; lia).
    rewrite shr_record_of_loc_m. split; [|lia].
    assert (H0 : (0 <= Z.shiftr (Z.pos p) (Z.pos q))%Z)
      by (apply Z.shiftr_nonneg; lia).
    assert (H1 : Z.shiftr (Z.pos p) (Z.pos q) <> 0%Z).
    { rewrite Z.shiftr_eq_0_iff. lia. }
    lia.
  - lia.
Qed.

Lemma round_nearest_even_ge (m : Z) (l : location) :
  (m <= round_nearest_even m l)%Z.
Proof.
  destruct l as [|[| |]]; simpl; try lia. destruct (Z.even m); lia.
Qed.

Lemma Zdigits2_pos (m : Z) : (0 < m)%Z -> (0 < Zdigits2 m)%Z.
Proof. destruct m; simpl; lia. Qed.

Lemma binary_round_aux_pos (sx : bool) (mx ex : Z) (lx : location) :
  (0 < mx)%Z -> (SpecFloat.emin prec emax < Zdigits2 mx + ex)%Z ->
  (exists m e, binary_round_aux prec emax sx mx ex lx = S754_finite sx m e) \/
  binary_round_aux prec emax sx mx ex lx = S754_infinity sx.
Proof.
  intros Hm He. unfold binary_round_aux.
  destruct (shr_fexp_pos mx ex lx Hm He) as [H1 H2].
  destruct (shr_fexp prec emax mx ex lx) as [mrs' e']. simpl in H1, H2.
  pose proof (round_nearest_even_ge (shr_m mrs') (loc_of_shr_record mrs')) as Hr.
  set (m1 := round_nearest_even (shr_m mrs') (loc_of_shr_record mrs')) in *.
  assert (Hm1 : (0 < m1)%Z) by lia.
  destruct (shr_fexp_pos m1 e' loc_Exact Hm1) as [H3 _].
  { pose proof (Zdigits2_pos m1 Hm1). lia. }
  destruct (shr_fexp prec emax m1 e' loc_Exact) as [mrs'' e'']. simpl in H3.
  destruct (shr_m mrs'') as [|m|m]; try lia.
  destruct (e'' <=? emax - prec)%Z; eauto.
Qed.

Lemma binary_normalize_pos (n : Z) :
  (0 < n)%Z ->
  (exists m e, binary_normalize prec emax n 0 false = S754_finite false m e) \/
  binary_normalize prec emax n 0 false = S754_infinity false.
Proof.
  intros Hn. destruct n as [|p|p]; try lia. simpl binary_normalize.
  unfold binary_round.
  destruct (shl_align p 0 (fexp prec emax (Z.pos (digits2_pos p) + 0)))
    as [mz ez] eqn:E.
  apply binary_round_aux_pos; [lia|].
  unfold shl_align in E.
  destruct (fexp prec emax (Z.pos (digits2_pos p) + 0) - 0)%Z eqn:F;
    injection E as <- <-; simpl Zdigits2; try (unfold SpecFloat.emin, prec, emax; lia).
  unfold fexp in *. lia.
Qed.

Lemma zero_div_len {A : Type} (xs : list A) :
  xs <> [] -> (Z.of_nat (length xs) <= sys_maxsize)%Z ->
  0 / py_len_float xs = 0.
Proof.
  intros Hne Hmax. apply float_zero_div. unfold py_len_float.
  rewrite of_uint63_spec, Uint63.of_Z_spec.
  rewrite Z.mod_small.
  - apply binary_normalize_pos. destruct xs; [congruence | simpl; lia].
  - unfold sys_maxsize in Hmax. change wB with (2 ^ 63)%Z. lia.
Qed.

Lemma doppler_optical_at_rest (r : float) :
  is_wavelength r = true -> doppler_optical r r = 0.
Proof.
  intros H. destruct (is_wavelength_finite r H) as (m & e & Hr).
  unfold doppler_optical. rewrite (float_sub_diag r false m e Hr).
  change (c_km_s * 0) with 0. apply float_zero_div. eauto.
Qed.

Lemma py_sum_zeros (xs : list float) :
  Forall (fun x => x = 0) xs -> py_sum xs = 0.
Proof.
  unfold py_sum. induction 1 as [|x xs -> _ IH]; simpl; [reflexivity|].
  exact IH.
Qed.

Lemma arithmetic_mean_zeros (xs : list float) :
  xs <> [] -> (Z.of_nat (length xs) <= sys_maxsize)%Z ->
  Forall (fun x => x = 0) xs -> arithmetic_mean xs = 0.
Proof.
  intros Hne Hmax Hall. rewrite arithmetic_mean_py.
  rewrite (py_sum_zeros xs Hall). now apply zero_div_len.
Qed.

Lemma group_velocity_at_rest (rests : list float) :
  rests <> [] -> (Z.of_nat (length rests) <= sys_maxsize)%Z ->
  Forall (fun r => is_wavelength r = true) rests ->
  group_velocity (rests, rests) = 0.
Proof.
  intros Hne Hmax Hall. unfold group_velocity. simpl fst. simpl snd.
  apply arithmetic_mean_zeros.
  - destruct rests; [congruence | discriminate].
  - rewrite length_map, length_combine. lia.
  - clear Hne Hmax. induction Hall as [|r rests Hr _ IH]; simpl; constructor.
    + simpl. now apply doppler_optical_at_rest.
    + exact IH.
Qed.

Lemma accepted_groups_in (decisions : list bool) (rest obs : list (list float))
    (p : list float * list float) :
  In p (accepted_groups decisions rest obs) -> In p (combine rest obs).
Proof.
  unfold accepted_groups. rewrite in_map_iff.
  intros ([b q] & <- & Hq). apply filter_In in Hq. destruct Hq as [Hq _].
  now apply in_combine_r in Hq.
Qed.

Lemma accepted_groups_length (decisions : list bool)
    (rest obs : list (list float)) :
  (length (accepted_groups decisions rest obs) <= length decisions)%nat.
Proof.
  unfold accepted_groups. rewrite length_map.
  etransitivity; [apply filter_length_le|].
  rewrite length_combine. lia.
Qed.

Lemma accepted_groups_nonempty (decisions : list bool) :
  In true decisions ->
  forall rest obs : list (list float),
    length rest = length decisions -> length obs = length decisions ->
    accepted_groups decisions rest obs <> [].
Proof.
  induction decisions as [|b ds IH]; intros Hin rest obs Hr Ho; [destruct Hin|].
  destruct rest as [|r rest]; [discriminate|].
  destruct obs as [|o obs]; [discriminate|].
  unfold accepted_groups. simpl. destruct b; simpl; [discriminate|].
  destruct Hin as [|Hin]; [discriminate|].
  apply (IH Hin rest obs); simpl in *; lia.
Qed.

Lemma Forall2_in_combine {A B : Type} (R : A -> B -> Prop) (xs : list A)
    (ys : list B) (x : A) (y : B) :
  Forall2 R xs ys -> In (x, y) (combine xs ys) -> R x y.
Proof.
  induction 1 as [|a b xs ys Hab _ IH]; simpl; [intros []|].
  intros [[= -> ->]|H]; auto.
Qed.

(** The aggregation on the accumulators of a completed fitting loop. *)
Lemma doppler_aggregate_mean (loc : locals) (s : world) :
  locals_wf loc ->
  length (doppler_bool_list s) = length (rest_candidates loc) ->
  In true (doppler_bool_list s) ->
  exists s',
    doppler_aggregate loc s
    = Returns (arithmetic_mean
                 (map group_velocity
                      (accepted_groups (doppler_bool_list s)
                         (rest_candidates loc) (obs_candidates loc)))) s' /\
    doppler_log s' =
      doppler_log s ++
      [arithmetic_mean
         (map group_velocity
              (accepted_groups (doppler_bool_list s)
                 (rest_candidates loc) (obs_candidates loc)))] /\
    doppler_bool_list s' = doppler_bool_list s.
Proof.
  intros Hwf Hlen Hin.
  destruct (decisions_loop_velocities loc Hwf (doppler_bool_list s) 0 [] s)
    as (s1 & Hrun & Hsame); [simpl; lia|].
  simpl skipn in Hrun. simpl app in Hrun.
  pose proof (accepted_groups_nonempty _ Hin (rest_candidates loc)
                (obs_candidates loc)) as Hne.
  destruct Hwf as (_ & _ & Hpairs).
  specialize (Hne (eq_sym Hlen)).
  rewrite <- (Forall2_length Hpairs) in Hne. specialize (Hne (eq_sym Hlen)).
  unfold doppler_aggregate.
  destruct (doppler_bool_list s) as [|b ds] eqn:E; [destruct Hin|].
  change (0 <? length (b :: ds))%nat with true.
  rewrite Hlen, Nat.eqb_refl. simpl negb. cbv iota.
  unfold bind. rewrite Hrun.
  destruct (map group_velocity _) as [|v vs] eqn:Ev.
  { now apply map_eq_nil in Ev. }
  destruct Hsame as (_ & Hd & _ & _ & Hlog & _).
  rewrite (py_mean_arithmetic_mean (v :: vs)) by discriminate.
  eexists. split; [reflexivity|]. simpl. rewrite Hlog, Hd. now split.
Qed.

(** C2.  In a run whose fitting loop completes with as many decisions as
    fitted candidates, at least one of them an accept, the estimator returns
    (and logs) the arithmetic mean of the accepted groups' velocities, the
    velocity of a group being the arithmetic mean, over its (rest, observed)
    wavelength pairs, of the optical Doppler velocity c (obs - rest) / rest.
    The mean of the statement is defined without the code's [sum] and
    [len]: the sum of the values, each added in its turn to the sum of those
    before it, divided by their number.  If in every accepted group each
    observed wavelength equals its rest wavelength -- a positive finite
    number -- the Doppler shift is exactly 0 (list lengths are at most
    [sys.maxsize], as in every Python run). *)
Theorem doppler_shift_is_mean_of_group_means (fitter : Fitter)
    (grouped_lines : dict (list group)) (w f : list float)
    (flux_range peak_width : float) (s s1 : world) (loc : locals) :
  ions_loop fitter w f peak_width grouped_lines (dict_keys grouped_lines)
    no_locals s = Returns loc s1 ->
  length (doppler_bool_list s1) = length (rest_candidates loc) ->
  In true (doppler_bool_list s1) ->
  exists s2,
    doppler_shift_calc fitter grouped_lines w f flux_range peak_width s
    = Returns (arithmetic_mean
                 (map group_velocity
                      (accepted_groups (doppler_bool_list s1)
                         (rest_candidates loc) (obs_candidates loc)))) s2 /\
    doppler_log s2 =
      doppler_log s1 ++
      [arithmetic_mean
         (map group_velocity
              (accepted_groups (doppler_bool_list s1)
                 (rest_candidates loc) (obs_candidates loc)))] /\
    ((Z.of_nat (length (doppler_bool_list s1)) <= sys_maxsize)%Z ->
     (forall rests obss,
        In (rests, obss)
           (accepted_groups (doppler_bool_list s1)
              (rest_candidates loc) (obs_candidates loc)) ->
        obss = rests /\
        Forall (fun r => is_wavelength r = true) rests /\
        (Z.of_nat (length rests) <= sys_maxsize)%Z) ->
     arithmetic_mean
       (map group_velocity
            (accepted_groups (doppler_bool_list s1)
               (rest_candidates loc) (obs_candidates loc))) = 0).
Proof.
  intros Hloop Hlen Hin.
  pose proof (ions_loop_wf _ _ _ _ _ _ _ _ _ _ no_locals_wf Hloop) as Hwf.
  destruct (doppler_aggregate_mean loc s1 Hwf Hlen Hin) as (s2 & Hrun & Hlog & _).
  exists s2. split; [|split; [exact Hlog|]].
  - unfold doppler_shift_calc, bind. now rewrite Hloop.
  - intros Hmax Hrest.
    set (groups := accepted_groups (doppler_bool_list s1)
                     (rest_candidates loc) (obs_candidates loc)) in *.
    apply arithmetic_mean_zeros.
    + intros Hnil. apply map_eq_nil in Hnil.
      destruct Hwf as (_ & _ & Hpairs).
      apply (accepted_groups_nonempty _ Hin (rest_candidates loc)
               (obs_candidates loc)); auto.
      rewrite <- (Forall2_length Hpairs). auto.
    + rewrite length_map.
      pose proof (accepted_groups_length (doppler_bool_list s1)
                    (rest_candidates loc) (obs_candidates loc)).
      fold groups in H. lia.
    + apply Forall_map, Forall_forall. intros [rests obss] Hg.
      destruct (Hrest rests obss Hg) as (-> & Hall & Hsize).
      apply group_velocity_at_rest; auto.
      destruct Hwf as (_ & _ & Hpairs).
      apply accepted_groups_in in Hg.
      now destruct (Forall2_in_combine _ _ _ _ _ Hpairs Hg).
Qed.

Lemma doppler_shift_is_mean_of_group_means_witness :
  exists s2,
    doppler_shift_calc (fits_shifted_by 1) scenario_lines example_w example_f
      4 2 scenario_start
    = Returns (arithmetic_mean
                 (map group_velocity
                      (accepted_groups (doppler_bool_list scenario_world)
                         (rest_candidates scenario_locals)
                         (obs_candidates scenario_locals)))) s2 /\
    doppler_log s2 =
      doppler_log scenario_world ++
      [arithmetic_mean
         (map group_velocity
              (accepted_groups (doppler_bool_list scenario_world)
                 (rest_candidates scenario_locals)
                 (obs_candidates scenario_locals)))] /\
    ((Z.of_nat (length (doppler_bool_list scenario_world)) <= sys_maxsize)%Z ->
     (forall rests obss,
        In (rests, obss)
           (accepted_groups (doppler_bool_list scenario_world)
              (rest_candidates scenario_locals)
              (obs_candidates scenario_locals)) ->
        obss = rests /\
        Forall (fun r => is_wavelength r = true) rests /\
        (Z.of_nat (length rests) <= sys_maxsize)%Z) ->
     arithmetic_mean
       (map group_velocity
            (accepted_groups (doppler_bool_list scenario_world)
               (rest_candidates scenario_locals)
               (obs_candidates scenario_locals))) = 0).
Proof.
  apply (doppler_shift_is_mean_of_group_means (fits_shifted_by 1)
           scenario_lines example_w example_f 4 2 scenario_start
           scenario_world scenario_locals).
  - vm_compute. reflexivity.
  - reflexivity.
  - left. reflexivity.
Defined.

(** The scenario, evaluated: the accepted group is the three rest lines with
    the centres found one unit above them; its velocity is the mean of the
    three conversions, and with this one group accepted the Doppler shift is
    that velocity. *)
Example scenario_doppler_shift :
  accepted_groups (doppler_bool_list scenario_world)
    (rest_candidates scenario_locals) (obs_candidates scenario_locals)
  = [([1302.0; 1304.5; 1306.0], [1303.0; 1305.5; 1307.0])] /\
  group_velocity ([1302.0; 1304.5; 1306.0], [1303.0; 1305.5; 1307.0])
  = (0 + doppler_optical 1302.0 1303.0 + doppler_optical 1304.5 1305.5
       + doppler_optical 1306.0 1307.0) / 3 /\
  arithmetic_mean
    [group_velocity ([1302.0; 1304.5; 1306.0], [1303.0; 1305.5; 1307.0])]
  = group_velocity ([1302.0; 1304.5; 1306.0], [1303.0; 1305.5; 1307.0]) /\
  exists s2,
    doppler_shift_calc (fits_shifted_by 1) scenario_lines example_w example_f
      4 2 scenario_start
    = Returns (group_velocity ([1302.0; 1304.5; 1306.0],
                               [1303.0; 1305.5; 1307.0])) s2.
Proof.
  repeat split; try (vm_compute; reflexivity).
  eexists. vm_compute. reflexivity.
Qed.

(** A solver that finds every line at its rest wavelength gives the shift 0;
    a run with only rejects, or with the window closed, gives no shift. *)
Example scenario_at_rest :
  (exists s2,
     doppler_shift_calc fits_as_seeded scenario_lines example_w example_f
       4 2 scenario_start = Returns 0 s2) /\
  (exists s2,
     doppler_shift_calc fits_as_seeded scenario_lines example_w example_f
       4 2 (empty_world [KeyPress (Some "n")]) = Raises ZeroDivisionError s2) /\
  (exists s2,
     doppler_shift_calc fits_as_seeded scenario_lines example_w example_f
       4 2 (empty_world [CloseFigure]) = Raises no_decision_error s2) /\
  (exists s2,
     doppler_shift_calc fits_as_seeded scenario_lines example_w example_f
       4 2 (empty_world [KeyPress (Some "q")]) = Raises invalid_key_exit s2).
Proof.
  repeat split; eexists; vm_compute; reflexivity.
Qed.

(* ------------------------------------------------------------------ *)
(** ** Evaluations *)

(** The grouper on the scenario with its second ion, with a cutoff that drops
    the first row, and on a line more than the tolerance above the group. *)
Example grouping_examples :
  grouping_emission_lines 1160.0 two_ion_catalog
    = Ok [("O_I", [[1302.0; 1304.5; 1306.0]]); ("C_IV", [[1550.0]])] /\
  grouping_emission_lines 1303.0 two_ion_catalog
    = Ok [("O_I", [[1304.5; 1306.0]]); ("C_IV", [[1550.0]])] /\
  grouping_emission_lines 1160.0
    (O_I_catalog ++ [ {| Ion := "O_I"; Wavelength := 1316.5 |};
                      {| Ion := "O_I"; Wavelength := 1312.0 |} ])
    = Ok [("O_I", [[1302.0; 1304.5; 1306.0; 1312.0]; [1316.5]])] /\
  EmissionLines.grouping_emission_lines
    {| EmissionLines.spectrum := example_spectrum |}
    = Ok [("O_I", [[1302.0; 1304.5; 1306.0]])].
Proof. repeat split; vm_compute; reflexivity. Qed.

(** The window builder: both constants, a step that does not divide the
    half-width, and the inputs on which it raises. *)
Example peak_width_finder_examples :
  peak_width_finder "G140L" [1300.0; 1300.5] = Ok (5.0, 10%Z, 10.0) /\
  peak_width_finder "G130M" [1300.0; 1300.5] = Ok (0.5, 1%Z, 1.0) /\
  peak_width_finder "G140L" [1300.0; 1300.75; 1301.5] = Ok (5.0, 6%Z, 10.0) /\
  SpectrumData.peak_width_finder example_spectrum = Ok (5.0, 5%Z, 10.0) /\
  peak_width_finder "G140L" [1300.0; 1300.0] = Raise OverflowError /\
  peak_width_finder "G140L" [1300.0] = Raise IndexError.
Proof. repeat split; vm_compute; reflexivity. Qed.

(** The model builder on the example group, and on a line whose seed window
    holds no sample. *)
Example build_composite_model_examples :
  build_composite_model example_w example_f 2 example_group
    = Ok (Compound (Compound (Voigt (seeded_component 1302.0 5.0))
                             (Voigt (seeded_component 1304.5 4.0)))
                   (Voigt (seeded_component 1306.0 9.0))) /\
  build_composite_model example_w example_f 2 [1304.5]
    = Ok (Voigt (seeded_component 1304.5 4.0)) /\
  build_composite_model example_w example_f 2 [1400.0] = Raise ValueError.
Proof. repeat split; vm_compute; reflexivity. Qed.

(* ================================================================== *)
(** * Further properties of the code *)

(* ------------------------------------------------------------------ *)
(** ** The grouper: keys, conservation, order *)

Lemma dict_get_some_key {V : Type} (d : dict V) (k : string) (v : V) :
  dict_get d k = Some v -> In k (dict_keys d).
Proof.
  induction d as [|[k0 v0] d IH]; simpl; [discriminate|].
  destruct (String.eqb_spec k k0) as [->|_]; auto.
Qed.

Lemma existsb_keys {V : Type} (d : dict V) (k : string) :
  existsb (String.eqb k) (dict_keys d) =
  match dict_get d k with Some _ => true | None => false end.
Proof.
  induction d as [|[k0 v0] d IH]; simpl; [reflexivity|].
  destruct (String.eqb k k0); [reflexivity | exact IH].
Qed.

Lemma grouping_row_keys (min_wavelength : float) d d' (r : row) :
  Forall (fun gs => Forall (fun g : group => g <> []) gs) (map snd d) ->
  grouping_row min_wavelength d r = Ok d' ->
  dict_keys d' =
  (if kept min_wavelength r
   then if existsb (String.eqb (Ion r)) (dict_keys d) then dict_keys d
        else dict_keys d ++ [Ion r]
   else dict_keys d).
Proof.
  intros Hne. unfold grouping_row, kept.
  destruct (Wavelength r <? min_wavelength); simpl; [now intros [= <-]|].
  rewrite existsb_keys.
  destruct (dict_get d (Ion r)) as [groups|] eqn:E.
  - destruct (scan_groups groups (Wavelength r)) as [[groups' found]|];
      simpl; [|discriminate].
    destruct found; simpl; intros [= <-];
      now rewrite (dict_keys_set_present _ _ _ _ E).
  - intros [= <-]. now apply dict_keys_set_absent.
Qed.

Lemma holds_nonempty_values d m :
  holds d m ->
  Forall (fun gs => Forall (fun g : group => g <> []) gs) (map snd d).
Proof.
  intros (Hget & Hne & Hnd). apply Forall_forall. intros gs Hin.
  apply in_map_iff in Hin. destruct Hin as ([k v] & <- & Hin). simpl.
  assert (Hk : dict_get d k = Some v).
  { clear Hget Hne. induction d as [|[k0 v0] d IH]; [destruct Hin|].
    simpl in Hnd. inversion Hnd as [|? ? Hnotin Hnd']; subst.
    destruct Hin as [[= -> ->]|Hin]; simpl.
    - now rewrite String.eqb_refl.
    - destruct (String.eqb_spec k k0) as [->|_]; [|now apply IH].
      exfalso. apply Hnotin. apply in_map_iff. now exists (k0, v). }
  rewrite Hget in Hk. specialize (Hne k).
  destruct (m k); simpl in Hk; [discriminate|]. now injection Hk as <-.
Qed.

Lemma grouping_loop_keys (min_wavelength : float) (rows : list row) :
  forall d m d',
    holds d m ->
    grouping_loop min_wavelength rows d = Ok d' ->
    dict_keys d' =
    fold_left (fun seen i => if existsb (String.eqb i) seen then seen
                             else seen ++ [i])
              (map Ion (filter (kept min_wavelength) rows)) (dict_keys d).
Proof.
  induction rows as [|r rows IH]; intros d m d' Hd; simpl.
  - now intros [= <-].
  - destruct (grouping_row_holds min_wavelength d m r Hd) as (d1 & Hrow & Hd1).
    rewrite Hrow. simpl. intros Hloop.
    rewrite (IH d1 _ d' Hd1 Hloop).
    rewrite (grouping_row_keys min_wavelength d d1 r
               (holds_nonempty_values d m Hd) Hrow).
    now destruct (kept min_wavelength r).
Qed.

(** X1.  The keys of the grouper's dictionary are the ions of the kept rows,
    each once, in the order in which the catalog first names them: the order
    in which the fitting loop then shows the candidates. *)
Theorem grouping_keys_in_order_of_appearance (min_wavelength : float)
    (rows : list row) :
  exists d,
    grouping_emission_lines min_wavelength rows = Ok d /\
    dict_keys d
    = first_appearances (map Ion (filter (kept min_wavelength) rows)).
Proof.
  destruct (grouping_emission_lines_holds min_wavelength rows) as (d & Hd & _).
  exists d. split; [exact Hd|].
  apply (grouping_loop_keys min_wavelength rows [] (fun _ => [])); auto.
  repeat split; intros; constructor.
Qed.

Lemma update_nth_concat (groups : list group) (i : nat) (w : float) :
  (i < length groups)%nat ->
  Permutation (concat (update_nth groups i (fun g => g ++ [w])))
              (concat groups ++ [w]).
Proof.
  revert i. induction groups as [|g groups IH]; intros i Hi; simpl in *; [lia|].
  destruct i as [|i]; simpl.
  - rewrite <- !app_assoc. apply Permutation_app_head, Permutation_app_comm.
  - rewrite <- app_assoc. apply Permutation_app_head, IH. lia.
Qed.

Lemma first_matching_bound {A : Type} (p : A -> bool) (xs : list A) (i : nat) :
  first_matching p xs = Some i -> (i < length xs)%nat.
Proof.
  revert i. induction xs as [|x xs IH]; intros i; simpl; [discriminate|].
  destruct (p x); [intros [= <-]; lia|].
  destruct (first_matching p xs) as [j|]; [|discriminate].
  intros [= <-]. specialize (IH j eq_refl). lia.
Qed.

Lemma place_in_groups_concat (groups : list group) (w : float) :
  Permutation (concat (place_in_groups groups w)) (concat groups ++ [w]).
Proof.
  unfold place_in_groups.
  destruct (first_matching (joins_group w) groups) as [i|] eqn:E.
  - apply update_nth_concat. now apply (first_matching_bound _ _ _ E).
  - rewrite concat_app. reflexivity.
Qed.

Lemma kept_wavelengths_cons (min_wavelength : float) (i : string) (r : row)
    (rows : list row) :
  kept_wavelengths min_wavelength i (r :: rows) =
  (if kept min_wavelength r && String.eqb (Ion r) i then [Wavelength r] else [])
  ++ kept_wavelengths min_wavelength i rows.
Proof.
  unfold kept_wavelengths. simpl.
  now destruct (kept min_wavelength r && String.eqb (Ion r) i).
Qed.

Lemma grouper_map_concat (min_wavelength : float) (rows : list row) :
  forall m i,
    Permutation
      (concat (fold_left (grouper_map_row min_wavelength) rows m i))
      (concat (m i) ++ kept_wavelengths min_wavelength i rows).
Proof.
  induction rows as [|r rows IH]; intros m i; simpl.
  - unfold kept_wavelengths. simpl. now rewrite app_nil_r.
  - rewrite IH, kept_wavelengths_cons. unfold grouper_map_row, kept.
    destruct (Wavelength r <? min_wavelength); simpl; [reflexivity|].
    rewrite (String.eqb_sym (Ion r) i).
    destruct (String.eqb i (Ion r)); simpl; [|reflexivity].
    rewrite place_in_groups_concat. now rewrite <- app_assoc.
Qed.

(** X2.  The grouper neither loses nor repeats a line: for every ion, the
    members of its groups together are exactly the wavelengths of its kept
    rows (and an ion without a kept row has no key). *)
Theorem grouping_conserves_lines (min_wavelength : float) (rows : list row) :
  exists d,
    grouping_emission_lines min_wavelength rows = Ok d /\
    forall i,
      Permutation
        (concat (match dict_get d i with Some groups => groups | None => [] end))
        (kept_wavelengths min_wavelength i rows) /\
      (dict_get d i = None <-> kept_wavelengths min_wavelength i rows = []).
Proof.
  destruct (grouping_emission_lines_holds min_wavelength rows)
    as (d & Hd & Hget & Hne & _).
  exists d. split; [exact Hd|]. intros i.
  pose proof (grouper_map_concat min_wavelength rows (fun _ => []) i) as Hp.
  fold (grouper_map min_wavelength rows) in Hp. simpl in Hp.
  rewrite Hget. specialize (Hne i).
  destruct (grouper_map min_wavelength rows i) as [|g gs] eqn:E; simpl in *.
  - split; [exact Hp|]. split; [intros _|reflexivity].
    now apply Permutation_nil in Hp.
  - split; [exact Hp|]. split; [discriminate|]. intros Hk. rewrite Hk in Hp.
    apply Permutation_sym, Permutation_nil in Hp.
    inversion Hne as [|? ? Hg _]; subst. destruct g; [congruence|discriminate].
Qed.

Lemma subsequence_nil_l {A : Type} (ys : list A) : subsequence [] ys.
Proof. induction ys; constructor; assumption. Qed.

Lemma subsequence_app_r {A : Type} (xs ys : list A) (w : A) :
  subsequence xs ys -> subsequence xs (ys ++ [w]).
Proof.
  induction 1; simpl.
  - apply subsequence_nil_l.
  - now apply subsequence_skip.
  - now apply subsequence_take.
Qed.

Lemma subsequence_snoc {A : Type} (xs ys : list A) (w : A) :
  subsequence xs ys -> subsequence (xs ++ [w]) (ys ++ [w]).
Proof.
  induction 1; simpl.
  - apply subsequence_take, subsequence_nil.
  - now apply subsequence_skip.
  - now apply subsequence_take.
Qed.

Lemma subsequence_Forall {A : Type} (P : A -> Prop) (xs ys : list A) :
  subsequence xs ys -> Forall P ys -> Forall P xs.
Proof.
  induction 1 as [|y xs ys Hsub IH|x xs ys Hsub IH]; intros Hall; auto;
    inversion Hall; subst; auto.
Qed.

Lemma subsequence_StronglySorted {A : Type} (R : A -> A -> Prop)
    (xs ys : list A) :
  subsequence xs ys -> StronglySorted R ys -> StronglySorted R xs.
Proof.
  induction 1 as [|y xs ys Hsub IH|x xs ys Hsub IH]; intros Hs.
  - constructor.
  - inversion Hs; subst. auto.
  - inversion Hs as [|? ? Hs' Hall]; subst. constructor; auto.
    now apply (subsequence_Forall _ xs ys).
Qed.

Lemma update_nth_in (groups : list group) (i : nat) (w : float) (g : group) :
  In g (update_nth groups i (fun g => g ++ [w])) ->
  In g groups \/ exists g0, In g0 groups /\ g = g0 ++ [w].
Proof.
  revert i. induction groups as [|g1 groups IH]; intros i; simpl; [intros []|].
  destruct i as [|i]; simpl.
  - intros [<-|H]; [right; exists g1; auto | auto].
  - intros [<-|H]; [auto|].
    destruct (IH i H) as [H'|(g0 & H0 & ->)]; [auto|].
    right. exists g0. auto.
Qed.

Lemma place_in_groups_in (groups : list group) (w : float) (g : group) :
  In g (place_in_groups groups w) ->
  In g groups \/ g = [w] \/ exists g0, In g0 groups /\ g = g0 ++ [w].
Proof.
  unfold place_in_groups.
  destruct (first_matching (joins_group w) groups) as [i|].
  - intros H. destruct (update_nth_in _ _ _ _ H) as [H'|H']; auto.
  - intros H. apply in_app_or in H. destruct H as [H|[<-|[]]]; auto.
Qed.

Lemma grouper_map_subsequence (min_wavelength : float) (rows : list row) :
  forall (m : string -> list group) (seen : string -> list float),
    (forall i g, In g (m i) -> subsequence g (seen i)) ->
    forall i g,
      In g (fold_left (grouper_map_row min_wavelength) rows m i) ->
      subsequence g (seen i ++ kept_wavelengths min_wavelength i rows).
Proof.
  induction rows as [|r rows IH]; intros m seen Hm i g; simpl.
  - unfold kept_wavelengths. simpl. rewrite app_nil_r. apply Hm.
  - intros Hg. rewrite kept_wavelengths_cons, app_assoc.
    apply (IH (grouper_map_row min_wavelength m r)
              (fun j => seen j ++
                 if kept min_wavelength r && String.eqb (Ion r) j
                 then [Wavelength r] else [])); [|exact Hg].
    clear Hg g i. intros i g. unfold grouper_map_row, kept.
    destruct (Wavelength r <? min_wavelength); simpl.
    { rewrite app_nil_r. apply Hm. }
    rewrite (String.eqb_sym (Ion r) i).
    destruct (String.eqb i (Ion r)).
    + intros Hg.
      destruct (place_in_groups_in _ _ _ Hg) as [H|[->|(g0 & H0 & ->)]].
      * apply subsequence_app_r. now apply Hm.
      * apply (subsequence_snoc [] (seen i)), subsequence_nil_l.
      * apply subsequence_snoc. now apply Hm.
    + rewrite app_nil_r. apply Hm.
Qed.

(** X3.  The grouper keeps the catalog order: every group is a subsequence
    of the kept wavelengths of its ion.  So when these are ascending -- the
    precondition the docstring states -- every group is ascending, and the
    [group[0]] and [group[-1]] of the fit mask are its least and greatest
    members. *)
Theorem grouping_keeps_catalog_order (min_wavelength : float)
    (rows : list row) (d : dict (list group)) (i : string)
    (groups : list group) (g : group) :
  grouping_emission_lines min_wavelength rows = Ok d ->
  dict_get d i = Some groups ->
  In g groups ->
  subsequence g (kept_wavelengths min_wavelength i rows) /\
  (forall R : float -> float -> Prop,
     StronglySorted R (kept_wavelengths min_wavelength i rows) ->
     StronglySorted R g) /\
  (StronglySorted (fun a b => (a <? b) = true)
     (kept_wavelengths min_wavelength i rows) ->
   grew_monotonically g).
Proof.
  intros Hd Hi Hg.
  destruct (grouping_emission_lines_holds min_wavelength rows)
    as (d' & Hd' & Hget & _).
  rewrite Hd in Hd'. injection Hd' as <-.
  assert (Hsub : subsequence g (kept_wavelengths min_wavelength i rows)).
  { apply (grouper_map_subsequence min_wavelength rows (fun _ => [])
             (fun _ => [])); [intros ? ? []|].
    fold (grouper_map min_wavelength rows).
    rewrite Hget in Hi.
    destruct (grouper_map min_wavelength rows i); simpl in Hi;
      [discriminate|]. now injection Hi as ->. }
  split; [exact Hsub|]. split.
  - intros R. now apply subsequence_StronglySorted.
  - intros Hs. apply StronglySorted_Sorted.
    now apply (subsequence_StronglySorted _ _ _ Hsub).
Qed.

Lemma grouping_keeps_catalog_order_witness :
  subsequence [1302.0; 1304.5; 1306.0]
              (kept_wavelengths 1160.0 "O_I" two_ion_catalog) /\
  (forall R : float -> float -> Prop,
     StronglySorted R (kept_wavelengths 1160.0 "O_I" two_ion_catalog) ->
     StronglySorted R [1302.0; 1304.5; 1306.0]) /\
  (StronglySorted (fun a b => (a <? b) = true)
     (kept_wavelengths 1160.0 "O_I" two_ion_catalog) ->
   grew_monotonically [1302.0; 1304.5; 1306.0]).
Proof.
  apply (grouping_keeps_catalog_order 1160.0 two_ion_catalog
           [("O_I", [[1302.0; 1304.5; 1306.0]]); ("C_IV", [[1550.0]])]
           "O_I" [[1302.0; 1304.5; 1306.0]]).
  - vm_compute. reflexivity.
  - reflexivity.
  - left. reflexivity.
Defined.

Lemma grouper_map_own_rows (min_wavelength : float) (i : string)
    (rows : list row) :
  forall m m' : string -> list group,
    m i = m' i ->
    fold_left (grouper_map_row min_wavelength) rows m i
    = fold_left (grouper_map_row min_wavelength)
                (filter (fun r => String.eqb (Ion r) i) rows) m' i.
Proof.
  induction rows as [|r rows IH]; intros m m' Hm; simpl; [exact Hm|].
  destruct (String.eqb_spec (Ion r) i) as [Heq|Hne]; simpl.
  - apply IH. unfold grouper_map_row.
    destruct (Wavelength r <? min_wavelength); [exact Hm|].
    rewrite <- Heq, String.eqb_refl. now rewrite <- Heq in Hm; rewrite Hm.
  - apply IH. unfold grouper_map_row.
    destruct (Wavelength r <? min_wavelength); [exact Hm|].
    destruct (String.eqb_spec i (Ion r)); [congruence | exact Hm].
Qed.

(** X4.  The ions do not interact: the groups the grouper gives an ion are
    those it gives it when the catalog holds the rows of that ion alone. *)
Theorem grouping_ions_independent (min_wavelength : float) (rows : list row)
    (i : string) :
  exists d d_i,
    grouping_emission_lines min_wavelength rows = Ok d /\
    grouping_emission_lines min_wavelength
      (filter (fun r => String.eqb (Ion r) i) rows) = Ok d_i /\
    dict_get d i = dict_get d_i i.
Proof.
  destruct (grouping_emission_lines_holds min_wavelength rows)
    as (d & Hd & Hget & _).
  destruct (grouping_emission_lines_holds min_wavelength
              (filter (fun r => String.eqb (Ion r) i) rows))
    as (d_i & Hd_i & Hget_i & _).
  exists d, d_i. split; [exact Hd|]. split; [exact Hd_i|].
  rewrite Hget, Hget_i. f_equal. unfold grouper_map.
  now apply grouper_map_own_rows.
Qed.

(* ------------------------------------------------------------------ *)
(** ** The observed wavelengths of a fitted candidate *)

Lemma same_shape_submodels (m m' : Model) :
  same_shape m m' = true -> n_submodels m = n_submodels m'.
Proof.
  unfold n_submodels. revert m'.
  induction m as [v|l IHl r IHr]; intros [v'|l' r']; simpl; try discriminate.
  - reflexivity.
  - intros H. apply andb_prop in H. destruct H as [Hl Hr].
    rewrite !length_app. now rewrite (IHl l' Hl), (IHr r' Hr).
Qed.

Lemma fold_compound_is_compound (vs : list Voigt1D) (l r : Model) :
  exists l' r',
    fold_left (fun composite v => Compound composite (Voigt v)) vs
              (Compound l r) = Compound l' r'.
Proof.
  revert l r. induction vs as [|v vs IH]; intros l r; simpl; eauto.
Qed.

Lemma build_composite_model_shape (w f : list float) (pw : float) (g : group)
    (composite : Model) :
  build_composite_model w f pw g = Ok composite ->
  n_submodels composite = length g /\
  match composite with
  | Voigt _ => length g = 1%nat
  | Compound _ _ => (2 <= length g)%nat
  end.
Proof.
  unfold build_composite_model.
  destruct (voigt_profiles_loop w f pw g) as [vs|] eqn:Hvs; simpl;
    [|discriminate].
  apply voigt_profiles_loop_length in Hvs.
  destruct vs as [|v vs]; [discriminate|]. unfold combine_profiles. simpl.
  intros [= <-]. unfold n_submodels. rewrite submodels_fold. simpl.
  split; [simpl in Hvs; lia|].
  destruct vs as [|v' vs]; simpl in *; [lia|].
  destruct (fold_compound_is_compound vs (Voigt v) (Voigt v')) as (l' & r' & ->).
  lia.
Qed.

Lemma candidates_loop_compound (l r : Model) (n : nat) (items : list float) :
  n <> 1%nat ->
  forall i ra oa,
    (i + length items <= n_submodels (Compound l r))%nat ->
    candidates_loop (Compound l r) n i items ra oa
    = Ok (ra ++ items,
          oa ++ map x_0 (firstn (length items)
                           (skipn i (submodels (Compound l r))))).
Proof.
  intros Hn. induction items as [|x items IH]; intros i ra oa Hlen.
  - simpl. now rewrite !app_nil_r.
  - cbn [candidates_loop]. apply Nat.eqb_neq in Hn. rewrite Hn.
    unfold model_getitem, py_index.
    destruct (nth_error_in_range (submodels (Compound l r)) i) as [c Hc].
    { unfold n_submodels in Hlen. simpl in Hlen. simpl. lia. }
    rewrite Hc. cbn [rbind].
    rewrite IH by (simpl in Hlen; lia).
    rewrite (skipn_nth_error _ _ _ Hc). simpl.
    now rewrite <- !app_assoc.
Qed.

(** X5.  When the solver returns a model of the shape of the composite
    model it was given, the candidate pairs every rest wavelength of the
    group, in order, with the fitted centre of its own component. *)
Theorem observed_wavelengths_are_fitted_centres (w f : list float)
    (peak_width : float) (g : group) (composite fitted : Model) :
  build_composite_model w f peak_width g = Ok composite ->
  same_shape fitted composite = true ->
  candidates_loop fitted (length g) 0 g [] []
  = Ok (g, map x_0 (submodels fitted)) /\
  length (submodels fitted) = length g.
Proof.
  intros Hbuild Hshape.
  destruct (build_composite_model_shape _ _ _ _ _ Hbuild) as [Hn Hform].
  pose proof (same_shape_submodels _ _ Hshape) as Hsame.
  split; [|unfold n_submodels in *; congruence].
  destruct fitted as [v|l r], composite as [v'|l' r']; try discriminate.
  - destruct g as [|x [|y g]]; simpl in Hform; try lia. reflexivity.
  - rewrite candidates_loop_compound; [|lia|lia].
    change (skipn 0 (submodels (Compound l r)))
      with (submodels (Compound l r)).
    rewrite firstn_all2; [reflexivity|].
    unfold n_submodels in *. lia.
Qed.

Lemma observed_wavelengths_are_fitted_centres_witness :
  candidates_loop
    (shift_centres 1
       (Compound (Compound (Voigt (seeded_component 1302.0 5.0))
                           (Voigt (seeded_component 1304.5 4.0)))
                 (Voigt (seeded_component 1306.0 9.0))))
    (length example_group) 0 example_group [] []
  = Ok (example_group,
        map x_0
          (submodels
             (shift_centres 1
                (Compound (Compound (Voigt (seeded_component 1302.0 5.0))
                                    (Voigt (seeded_component 1304.5 4.0)))
                          (Voigt (seeded_component 1306.0 9.0)))))) /\
  length
    (submodels
       (shift_centres 1
          (Compound (Compound (Voigt (seeded_component 1302.0 5.0))
                              (Voigt (seeded_component 1304.5 4.0)))
                    (Voigt (seeded_component 1306.0 9.0)))))
  = length example_group.
Proof.
  apply (observed_wavelengths_are_fitted_centres example_w example_f 2
           example_group
           (Compound (Compound (Voigt (seeded_component 1302.0 5.0))
                               (Voigt (seeded_component 1304.5 4.0)))
                     (Voigt (seeded_component 1306.0 9.0)))).
  - vm_compute. reflexivity.
  - reflexivity.
Defined.

Lemma candidates_loop_short (l r : Model) (n : nat) (items : list float) :
  n <> 1%nat ->
  forall i ra oa,
    (i <= n_submodels (Compound l r))%nat ->
    (n_submodels (Compound l r) < i + length items)%nat ->
    candidates_loop (Compound l r) n i items ra oa = Raise IndexError.
Proof.
  intros Hn. induction items as [|x items IH]; intros i ra oa Hi Hlen.
  - simpl in Hlen. lia.
  - cbn [candidates_loop]. apply Nat.eqb_neq in Hn. rewrite Hn.
    unfold model_getitem, py_index.
    destruct (nth_error (submodels (Compound l r)) i) as [c|] eqn:Hc.
    + cbn [rbind]. apply IH.
      * assert (H : nth_error (submodels (Compound l r)) i <> None) by congruence.
        apply nth_error_Some in H. unfold n_submodels. lia.
      * simpl in Hlen. lia.
    + reflexivity.
Qed.

(** X6.  A fitted model of another shape than the group makes the candidate
    raise instead of pairing wavelengths wrongly: a sum for a single line
    has no parameter [x_0], a single profile for several lines cannot be
    subscripted, and a sum with fewer components than lines runs out of
    components. *)
Theorem fitted_model_of_wrong_shape_raises :
  (forall l r wavelength,
     candidates_loop (Compound l r) (length [wavelength]) 0 [wavelength] [] []
     = Raise AttributeError) /\
  (forall v g, (2 <= length g)%nat ->
     candidates_loop (Voigt v) (length g) 0 g [] [] = Raise TypeError) /\
  (forall l r g, (2 <= length g)%nat ->
     (n_submodels (Compound l r) < length g)%nat ->
     candidates_loop (Compound l r) (length g) 0 g [] [] = Raise IndexError).
Proof.
  split; [|split].
  - reflexivity.
  - intros v [|x [|y g]] Hlen; simpl in Hlen; try lia. reflexivity.
  - intros l r g Hlen Hshort. apply candidates_loop_short; lia.
Qed.

(* ------------------------------------------------------------------ *)
(** ** What a run leaves alone *)

Section Frame.

Variable R : world -> world -> Prop.

Hypothesis R_refl : forall s, R s s.
Hypothesis R_trans : forall s1 s2 s3, R s1 s2 -> R s2 s3 -> R s1 s3.

Hypothesis R_append_emission_line :
  forall obj, keeps R (append_emission_line obj).
Hypothesis R_append_doppler_bool :
  forall b, keeps R (append_doppler_bool b).
Hypothesis R_key_events :
  forall s action later,
    key_events s = action :: later -> R s (with_key_events s later).

Lemma keeps_ret {A : Type} (a : A) : keeps R (ret a).
Proof. intros s. apply R_refl. Qed.

Lemma keeps_raise {A : Type} (e : exn) : keeps R (@raise A e).
Proof. intros s. apply R_refl. Qed.

Lemma keeps_lift {A : Type} (r : result A) : keeps R (lift r).
Proof. destruct r; [apply keeps_ret | apply keeps_raise]. Qed.

Lemma keeps_bind {A B : Type} (c : M A) (k : A -> M B) :
  keeps R c -> (forall a, keeps R (k a)) -> keeps R (bind c k).
Proof.
  intros Hc Hk s. unfold bind. specialize (Hc s).
  destruct (c s) as [a s1|e s1]; simpl in *; [|exact Hc].
  apply (R_trans _ s1); [exact Hc | apply Hk].
Qed.

Lemma keeps_on_key_doppler (key : option string) :
  keeps R (on_key key "Doppler Calculation").
Proof.
  unfold on_key. simpl.
  destruct (negb (key_in key valid_keys)); [apply keeps_raise|].
  apply R_append_doppler_bool.
Qed.

Lemma keeps_plt_show : keeps R (plt_show "Doppler Calculation").
Proof.
  intros s. unfold plt_show.
  destruct (key_events s) as [|[|key] later] eqn:E; simpl.
  - apply R_refl.
  - apply (R_key_events s _ later E).
  - apply (R_trans _ (with_key_events s later));
      [apply (R_key_events s _ later E)|].
    apply keeps_on_key_doppler.
Qed.

Lemma keeps_process_group (fitter : Fitter) (w f : list float) (pw : float)
    (ion_name : string) (g : group) (loc : locals) :
  keeps R (process_group fitter w f pw ion_name g loc).
Proof.
  unfold process_group.
  apply keeps_bind; [apply keeps_lift | intros mask].
  apply keeps_bind; [apply keeps_lift | intros vps].
  apply keeps_bind; [apply keeps_lift | intros mf0].
  apply keeps_bind; [apply R_append_emission_line | intros ref].
  apply keeps_bind; [apply keeps_lift | intros composite].
  apply keeps_bind; [apply keeps_lift | intros mw].
  apply keeps_bind; [apply keeps_lift | intros mf].
  destruct (fitter composite mw mf) as [fitted|e].
  - apply keeps_bind; [apply keeps_lift | intros [gr go]].
    apply keeps_bind; [apply keeps_plt_show | intros _]. apply keeps_ret.
  - destruct e; try apply keeps_raise. apply keeps_ret.
Qed.

Lemma keeps_groups_loop (fitter : Fitter) (w f : list float) (pw : float)
    (ion_name : string) (groups : list group) :
  forall loc, keeps R (groups_loop fitter w f pw ion_name groups loc).
Proof.
  induction groups as [|g groups IH]; intros loc; simpl.
  - apply keeps_ret.
  - apply keeps_bind; [apply keeps_process_group | intros loc'; apply IH].
Qed.

Lemma keeps_ions_loop (fitter : Fitter) (w f : list float) (pw : float)
    (grouped_lines : dict (list group)) (ions : list string) :
  forall loc, keeps R (ions_loop fitter w f pw grouped_lines ions loc).
Proof.
  induction ions as [|i ions IH]; intros loc; simpl.
  - apply keeps_ret.
  - destruct (dict_get grouped_lines i) as [groups|]; [|apply keeps_raise].
    apply keeps_bind; [apply keeps_groups_loop | intros loc'; apply IH].
Qed.

Hypothesis R_update_fitted_model :
  forall ref m, keeps R (update_fitted_model ref m).

Lemma keeps_decisions_loop (loc : locals) (decisions : list bool) :
  forall i dv, keeps R (decisions_loop loc i decisions dv).
Proof.
  induction decisions as [|b ds IH]; intros i dv; simpl.
  - apply keeps_ret.
  - destruct b; [|apply IH].
    apply keeps_bind; [apply keeps_lift | intros obj].
    apply keeps_bind; [apply keeps_lift | intros fm].
    apply keeps_bind; [apply R_update_fitted_model | intros _].
    apply keeps_bind; [apply keeps_lift | intros rests].
    apply keeps_bind; [apply keeps_lift | intros gd].
    apply keeps_bind; [apply keeps_lift | intros v]. apply IH.
Qed.

Hypothesis R_write_doppler : forall v, keeps R (write_doppler v).

Lemma keeps_doppler_aggregate (loc : locals) : keeps R (doppler_aggregate loc).
Proof.
  intros s. unfold doppler_aggregate.
  destruct (negb (0 <? length (doppler_bool_list s))%nat); [apply R_refl|].
  destruct (negb (length (doppler_bool_list s)
                  =? length (rest_candidates loc))%nat); [apply R_refl|].
  assert (H : forall decisions,
             keeps R (dv <~ decisions_loop loc 0 decisions [] ;;
                      doppler_shift <~ lift (py_mean dv) ;;
                      _ <~ write_doppler doppler_shift ;; ret doppler_shift)).
  { intros decisions.
    apply keeps_bind; [apply keeps_decisions_loop | intros dv].
    apply keeps_bind; [apply keeps_lift | intros v].
    apply keeps_bind; [apply R_write_doppler | intros _]. apply keeps_ret. }
  apply (H (doppler_bool_list s) s).
Qed.

Lemma keeps_doppler_shift_calc (fitter : Fitter)
    (grouped_lines : dict (list group)) (w f : list float)
    (flux_range peak_width : float) :
  keeps R (doppler_shift_calc fitter grouped_lines w f flux_range peak_width).
Proof.
  unfold doppler_shift_calc.
  apply keeps_bind; [apply keeps_ions_loop | apply keeps_doppler_aggregate].
Qed.

End Frame.

Lemma same_noise_and_log_refl (s : world) : same_noise_and_log s s.
Proof. now split. Qed.

Lemma same_noise_and_log_trans (s1 s2 s3 : world) :
  same_noise_and_log s1 s2 -> same_noise_and_log s2 s3 ->
  same_noise_and_log s1 s3.
Proof. intros [A1 A2] [B1 B2]. split; congruence. Qed.

Lemma only_appends_refl (s : world) : only_appends s s.
Proof.
  repeat split; try (exists []; now rewrite ?app_nil_r); auto.
Qed.

Lemma only_appends_trans (s1 s2 s3 : world) :
  only_appends s1 s2 -> only_appends s2 s3 -> only_appends s1 s3.
Proof.
  intros (A1 & (d1 & A2) & (r1 & A3) & (v1 & A4) & (u1 & A5) & A6)
         (B1 & (d2 & B2) & (r2 & B3) & (v2 & B4) & (u2 & B5) & B6).
  repeat split.
  - congruence.
  - exists (d1 ++ d2). now rewrite B2, A2, app_assoc.
  - exists (r1 ++ r2). now rewrite B3, A3, app_assoc.
  - exists (v1 ++ v2). now rewrite B4, A4, app_assoc.
  - exists (u1 ++ u2). now rewrite A5, B5, app_assoc.
  - lia.
Qed.

Ltac solve_only_appends :=
  simpl; repeat split; simpl;
  try reflexivity;
  try (exists []; rewrite ?app_nil_r; reflexivity);
  try (eexists; reflexivity);
  try (rewrite ?length_app, ?update_nth_length; simpl; lia).

(** X7.  Whatever the solver and the user do, and whether the run returns
    or raises, [doppler_shift_calc] never touches [noise_bool_list], never
    removes or rewrites an entry of [doppler_bool_list],
    [emission_line_list] or the Doppler log (they only grow at the end),
    never deletes an instance, and takes the user's actions in order. *)
Theorem run_only_appends (fitter : Fitter) (grouped_lines : dict (list group))
    (w f : list float) (flux_range peak_width : float) (s : world) :
  only_appends s
    (final_state
       (doppler_shift_calc fitter grouped_lines w f flux_range peak_width s)).
Proof.
  apply (keeps_doppler_shift_calc only_appends only_appends_refl
           only_appends_trans).
  - intros obj s0. solve_only_appends.
  - intros b s0. solve_only_appends.
  - intros s0 action later E. solve_only_appends. now exists [action].
  - intros ref m s0. solve_only_appends.
  - intros v s0. solve_only_appends.
Qed.

Lemma fitting_loop_same_noise_and_log (fitter : Fitter) (w f : list float)
    (pw : float) (grouped_lines : dict (list group)) (ions : list string)
    (loc : locals) :
  keeps same_noise_and_log
    (ions_loop fitter w f pw grouped_lines ions loc).
Proof.
  apply (keeps_ions_loop same_noise_and_log same_noise_and_log_refl
           same_noise_and_log_trans).
  - intros obj s. now split.
  - intros b s. now split.
  - intros s action later _. now split.
Qed.

Lemma decisions_loop_same_noise_and_log (loc : locals) (decisions : list bool)
    (i : nat) (dv : list float) :
  keeps same_noise_and_log (decisions_loop loc i decisions dv).
Proof.
  apply (keeps_decisions_loop same_noise_and_log same_noise_and_log_refl
           same_noise_and_log_trans).
  intros ref m s. now split.
Qed.

(** X8.  The Doppler log receives exactly one value, the shift the run
    returns, and only when the run returns: a run that raises -- in the
    fitting loop, at a key press, at an assertion or in a mean -- leaves the
    log as it was. *)
Theorem doppler_log_gets_the_returned_shift (fitter : Fitter)
    (grouped_lines : dict (list group)) (w f : list float)
    (flux_range peak_width : float) (s : world) :
  match doppler_shift_calc fitter grouped_lines w f flux_range peak_width s with
  | Returns doppler_shift s' => doppler_log s' = doppler_log s ++ [doppler_shift]
  | Raises _ s' => doppler_log s' = doppler_log s
  end.
Proof.
  unfold doppler_shift_calc, bind.
  pose proof (fitting_loop_same_noise_and_log fitter w f peak_width
                grouped_lines (dict_keys grouped_lines) no_locals s) as [_ H1].
  destruct (ions_loop _ _ _ _ _ _ _ s) as [loc s1|e s1]; simpl in H1;
    [|exact H1].
  unfold doppler_aggregate.
  destruct (negb (0 <? length (doppler_bool_list s1))%nat); [exact H1|].
  destruct (negb (length (doppler_bool_list s1)
                  =? length (rest_candidates loc))%nat); [exact H1|].
  unfold bind.
  pose proof (decisions_loop_same_noise_and_log loc (doppler_bool_list s1)
                0 [] s1) as [_ H2].
  destruct (decisions_loop loc 0 (doppler_bool_list s1) [] s1) as [dv s2|e s2];
    simpl in H2; [|congruence].
  destruct (py_mean dv) as [v|e]; simpl; congruence.
Qed.

(* ------------------------------------------------------------------ *)
(** ** Invariants of a fitting loop that returns *)

Lemma key_in_valid_keys_cases (key : option string) :
  key_in key valid_keys = true ->
  exists accept : bool, key = Some (if accept then "y" else "n").
Proof.
  destruct key as [k|]; [|discriminate]. simpl.
  destruct (String.eqb_spec k "y") as [->|_]; [now exists true|].
  destruct (String.eqb_spec k "n") as [->|_]; [now exists false|].
  discriminate.
Qed.

Lemma plt_show_returns (s1 s2 : world) :
  plt_show "Doppler Calculation" s1 = Returns tt s2 -> shown_outcome s1 s2.
Proof.
  unfold plt_show, shown_outcome.
  destruct (key_events s1) as [|[|key] later] eqn:E.
  - intros [= <-]. now left.
  - intros [= <-]. right. left. now exists later.
  - unfold on_key. simpl.
    destruct (key_in key valid_keys) eqn:Hkey; simpl; [|discriminate].
    destruct (key_in_valid_keys_cases key Hkey) as [accept ->].
    intros H. right. right. exists accept, later. split; [reflexivity|].
    destruct accept; simpl in H; now injection H as <-.
Qed.

(** A [process_group] that returns, case by case. *)
Lemma process_group_returns (fitter : Fitter) (w f : list float) (pw : float)
    (ion_name : string) (g : group) (loc loc' : locals) (s s' : world) :
  process_group fitter w f pw ion_name g loc s = Returns loc' s' ->
  exists record,
    group_record w f pw (ion_name, g) = Ok record /\
    ((loc' = loc /\ s' = with_emission_line s record) \/
     (exists fitted rests obss,
        candidates_loop fitted (length g) 0 g [] [] = Ok (rests, obss) /\
        loc' = with_candidate loc rests obss (length (objects s)) fitted /\
        shown_outcome (with_emission_line s record) s')).
Proof.
  rewrite process_group_cases. unfold group_record. simpl.
  destruct (prepare_group w f pw g) as [[[[mask composite] mw] mf]|];
    [|discriminate].
  cbv zeta. simpl. intros H.
  exists (new_emission_line ion_name g mask mf). split; [reflexivity|].
  destruct (fitter composite mw mf) as [fitted|e].
  - destruct (candidates_loop fitted (length g) 0 g [] []) as [[r o]|] eqn:Hc;
      [|discriminate].
    destruct (plt_show "Doppler Calculation" _) as [[] s2|] eqn:Hshow;
      [|discriminate].
    injection H as <- <-. right. exists fitted, r, o.
    split; [exact Hc|]. split; [reflexivity|].
    now apply plt_show_returns.
  - destruct e; try discriminate. injection H as <- <-. now left.
Qed.

Lemma dict_get_app_new {V : Type} (d1 d2 : dict V) (k : string) (v : V) :
  ~ In k (dict_keys d1) -> dict_get (d1 ++ (k, v) :: d2) k = Some v.
Proof.
  induction d1 as [|[k0 v0] d1 IH]; simpl; intros H.
  - now rewrite String.eqb_refl.
  - destruct (String.eqb_spec k k0) as [->|_]; [exfalso; auto|].
    apply IH. auto.
Qed.

Section LoopInvariant.

Variable fitter : Fitter.
Variables w f : list float.
Variable pw : float.

(** [I loc s items loc' s']: from the locals [loc] and the state [s], the
    loop has taken the groups [items] and reached [loc'] and [s']. *)
Variable I : locals -> world -> list (string * group) -> locals -> world -> Prop.

Hypothesis I_start : forall loc s, I loc s [] loc s.
Hypothesis I_step :
  forall loc s items loc1 s1 ion_name g loc2 s2,
    I loc s items loc1 s1 ->
    process_group fitter w f pw ion_name g loc1 s1 = Returns loc2 s2 ->
    I loc s (items ++ [(ion_name, g)]) loc2 s2.

Lemma groups_loop_invariant (ion_name : string) (groups : list group) :
  forall loc s items loc1 s1 loc2 s2,
    I loc s items loc1 s1 ->
    groups_loop fitter w f pw ion_name groups loc1 s1 = Returns loc2 s2 ->
    I loc s (items ++ map (pair ion_name) groups) loc2 s2.
Proof.
  induction groups as [|g groups IH]; intros loc s items loc1 s1 loc2 s2 HI;
    simpl.
  - intros [= <- <-]. now rewrite app_nil_r.
  - unfold bind.
    destruct (process_group fitter w f pw ion_name g loc1 s1) as [loc3 s3|]
      eqn:E; [|discriminate].
    intros Hloop.
    change (items ++ (ion_name, g) :: map (pair ion_name) groups)
      with (items ++ [(ion_name, g)] ++ map (pair ion_name) groups).
    rewrite app_assoc. apply (IH _ _ _ loc3 s3); [|exact Hloop].
    now apply (I_step _ _ _ loc1 s1).
Qed.

Lemma ions_loop_invariant (d1 d2 : dict (list group)) :
  NoDup (dict_keys (d1 ++ d2)) ->
  forall loc s items loc1 s1 loc2 s2,
    I loc s items loc1 s1 ->
    ions_loop fitter w f pw (d1 ++ d2) (dict_keys d2) loc1 s1
      = Returns loc2 s2 ->
    I loc s (items ++ all_groups d2) loc2 s2.
Proof.
  revert d1. induction d2 as [|[k groups] d2 IH];
    intros d1 Hnd loc s items loc1 s1 loc2 s2 HI; simpl.
  - intros [= <- <-]. now rewrite app_nil_r.
  - rewrite dict_get_app_new.
    + unfold bind.
      destruct (groups_loop fitter w f pw k groups loc1 s1) as [loc3 s3|]
        eqn:E; [|discriminate].
      intros Hloop. unfold all_groups. simpl.
      rewrite app_assoc.
      change (d1 ++ (k, groups) :: d2) with (d1 ++ [(k, groups)] ++ d2) in *.
      rewrite app_assoc in *.
      apply (IH _ Hnd _ _ _ loc3 s3); [|exact Hloop].
      now apply (groups_loop_invariant k groups _ _ _ loc1 s1).
    + unfold dict_keys in Hnd. rewrite map_app in Hnd. simpl in Hnd.
      now apply NoDup_remove_2 in Hnd; intros Hin; apply Hnd, in_or_app; left.
Qed.

Lemma fitting_loop_invariant (grouped_lines : dict (list group))
    (loc loc' : locals) (s s' : world) :
  NoDup (dict_keys grouped_lines) ->
  ions_loop fitter w f pw grouped_lines (dict_keys grouped_lines) loc s
    = Returns loc' s' ->
  I loc s (all_groups grouped_lines) loc' s'.
Proof.
  intros Hnd Hloop.
  apply (ions_loop_invariant [] grouped_lines Hnd loc s [] loc s);
    [apply I_start | exact Hloop].
Qed.

End LoopInvariant.

Lemma shown_outcome_same_objects (s1 s2 : world) :
  shown_outcome s1 s2 ->
  objects s2 = objects s1 /\ emission_line_list s2 = emission_line_list s1.
Proof.
  intros [[_ ->]|[(later & _ & ->)|(accept & later & _ & ->)]]; now split.
Qed.

Lemma process_group_record (fitter : Fitter) (w f : list float) (pw : float)
    (ion_name : string) (g : group) (loc loc' : locals) (s s' : world) :
  process_group fitter w f pw ion_name g loc s = Returns loc' s' ->
  exists record,
    group_record w f pw (ion_name, g) = Ok record /\
    objects s' = objects s ++ [record] /\
    emission_line_list s' = emission_line_list s ++ [length (objects s)].
Proof.
  intros H. destruct (process_group_returns _ _ _ _ _ _ _ _ _ _ H)
    as (record & Hrec & [[_ ->]|(fitted & r & o & _ & _ & Hshown)]).
  - exists record. now repeat split.
  - destruct (shown_outcome_same_objects _ _ Hshown) as [-> ->].
    exists record. now repeat split.
Qed.

Lemma group_record_fields (w f : list float) (pw : float) (ion_name : string)
    (g : group) (record : emission_line) :
  group_record w f pw (ion_name, g) = Ok record ->
  wavelength_group record = g /\ ion record = ion_name /\
  fitted_model record = None /\ obs_lam record = None /\
  noise_bool record = None /\ continuum record = None.
Proof.
  unfold group_record. simpl.
  destruct (prepare_group w f pw g) as [[[[mask composite] mw] mf]|];
    [|discriminate].
  simpl. intros [= <-]. now repeat split.
Qed.

Lemma fitting_loop_records_created (fitter : Fitter) (w f : list float)
    (peak_width : float) (grouped_lines : dict (list group))
    (loc loc' : locals) (s s' : world) :
  NoDup (dict_keys grouped_lines) ->
  ions_loop fitter w f peak_width grouped_lines (dict_keys grouped_lines)
    loc s = Returns loc' s' ->
  records_created w f peak_width loc s (all_groups grouped_lines) loc' s'.
Proof.
  intros Hnd Hloop.
  apply (fitting_loop_invariant fitter w f peak_width
           (records_created w f peak_width))
    with (grouped_lines := grouped_lines); auto.
  - intros loc0 s0. exists []. repeat split; [constructor | |];
      simpl; now rewrite app_nil_r.
  - intros loc0 s0 items loc1 s1 ion_name g loc2 s2
      (records & Hrecs & Hobjs & Hlist) Hstep.
    destruct (process_group_record _ _ _ _ _ _ _ _ _ _ Hstep)
      as (record & Hrec & Hobjs2 & Hlist2).
    exists (records ++ [record]). split; [|split].
    + apply Forall2_app; [exact Hrecs | now repeat constructor].
    + now rewrite Hobjs2, Hobjs, app_assoc.
    + rewrite Hlist2, Hlist, Hobjs, !length_app, <- app_assoc. simpl.
      rewrite seq_app. simpl.
      now rewrite (Forall2_length Hrecs).
Qed.

(** X9.  A fitting loop that returns has created one [emission_line]
    instance for every group of the dictionary, in processing order and
    whether or not the group could be fitted, and has appended the
    references to them, in that order, to [emission_line_list]; every such
    instance holds its group and its ion, and no fitted model yet. *)
Theorem fitting_loop_lists_every_group (fitter : Fitter) (w f : list float)
    (peak_width : float) (grouped_lines : dict (list group))
    (loc loc' : locals) (s s' : world) :
  NoDup (dict_keys grouped_lines) ->
  ions_loop fitter w f peak_width grouped_lines (dict_keys grouped_lines)
    loc s = Returns loc' s' ->
  exists records,
    objects s' = objects s ++ records /\
    emission_line_list s'
      = emission_line_list s
        ++ seq (length (objects s)) (length (all_groups grouped_lines)) /\
    Forall2 (fun ion_group record =>
               wavelength_group record = snd ion_group /\
               ion record = fst ion_group /\
               fitted_model record = None /\
               obs_lam record = None)
            (all_groups grouped_lines) records.
Proof.
  intros Hnd Hloop.
  destruct (fitting_loop_records_created _ _ _ _ _ _ _ _ _ Hnd Hloop)
    as (records & Hrecs & Hobjs & Hlist).
  exists records. split; [exact Hobjs|]. split; [exact Hlist|].
  clear - Hrecs. induction Hrecs as [|[i g] record items records H _ IH];
    constructor; [|exact IH].
  destruct (group_record_fields _ _ _ _ _ _ H) as (A & B & C & D & _).
  now repeat split.
Qed.

Lemma fitting_loop_lists_every_group_witness :
  exists records,
    objects scenario_world = objects scenario_start ++ records /\
    emission_line_list scenario_world
      = emission_line_list scenario_start
        ++ seq (length (objects scenario_start))
               (length (all_groups scenario_lines)) /\
    Forall2 (fun ion_group record =>
               wavelength_group record = snd ion_group /\
               ion record = fst ion_group /\
               fitted_model record = None /\
               obs_lam record = None)
            (all_groups scenario_lines) records.
Proof.
  apply (fitting_loop_lists_every_group (fits_shifted_by 1) example_w
           example_f 2 scenario_lines no_locals scenario_locals
           scenario_start scenario_world).
  - repeat constructor. intros [].
  - vm_compute. reflexivity.
Defined.

(** X10.  The blended flag of a candidate does not count the lines of its
    group: it is true exactly when the fit window (w_min - half_width,
    w_max + half_width) holds more than one sample, so a single line is
    flagged as blended as soon as two samples fall in its window. *)
Theorem blended_flag_counts_samples (fitter : Fitter) (w f : list float)
    (peak_width : float) (ion_name : string) (g : group)
    (w_min w_max : float) (loc loc' : locals) (s s' : world) :
  length f = length w ->
  spans g w_min w_max ->
  process_group fitter w f peak_width ion_name g loc s = Returns loc' s' ->
  exists record,
    objects s' = objects s ++ [record] /\
    wavelength_group record = g /\
    flux_mask record
      = map (in_open_interval (w_min - peak_width) (w_max + peak_width)) w /\
    blended_bool record
      = (1 <? length (samples_within (w_min - peak_width)
                                     (w_max + peak_width) w f))%nat.
Proof.
  intros Hlen Hspan Hrun.
  destruct (process_group_record _ _ _ _ _ _ _ _ _ _ Hrun)
    as (record & Hrec & Hobjs & _).
  exists record. split; [exact Hobjs|].
  unfold group_record, prepare_group in Hrec. simpl in Hrec.
  rewrite (group_mask_of_spans w g w_min w_max peak_width Hspan) in Hrec.
  simpl in Hrec.
  destruct (build_composite_model w f peak_width g); simpl in Hrec;
    [|discriminate].
  rewrite np_select_between_self, np_select_between in Hrec by assumption.
  simpl in Hrec. injection Hrec as <-. simpl.
  split; [reflexivity|]. split; [reflexivity|].
  unfold samples_within, samples. now rewrite length_map.
Qed.

Lemma blended_flag_counts_samples_witness :
  exists record,
    objects
      (final_state
         (process_group fits_as_seeded example_w example_f 2 "O_I" [1304.5]
            no_locals scenario_start))
    = objects scenario_start ++ [record] /\
    wavelength_group record = [1304.5] /\
    flux_mask record
      = map (in_open_interval (1304.5 - 2) (1304.5 + 2)) example_w /\
    blended_bool record
      = (1 <? length (samples_within (1304.5 - 2) (1304.5 + 2)
                        example_w example_f))%nat.
Proof.
  apply (blended_flag_counts_samples fits_as_seeded example_w example_f 2
           "O_I" [1304.5] 1304.5 1304.5 no_locals
           (with_candidate no_locals [1304.5] [1304.5] 0
              (Voigt (seeded_component 1304.5 4.0)))
           scenario_start).
  - reflexivity.
  - split; reflexivity.
  - vm_compute. reflexivity.
Defined.

(** The single line 1304.5 of the witness is flagged as blended. *)
Example single_line_flagged_blended :
  option_map blended_bool
    (nth_error
       (objects
          (final_state
             (process_group fits_as_seeded example_w example_f 2 "O_I"
                [1304.5] no_locals scenario_start))) 0)
  = Some true.
Proof. vm_compute. reflexivity. Qed.

(* ------------------------------------------------------------------ *)
(** ** Figures, user actions and decisions *)

Lemma skipn_next {A : Type} (n : nat) (l : list A) (a : A) (later : list A) :
  skipn n l = a :: later ->
  skipn (S n) l = later /\ firstn (S n) l = firstn n l ++ [a].
Proof.
  revert l. induction n as [|n IH]; intros [|x l] H; simpl in H;
    try discriminate.
  - injection H as -> ->. now split.
  - destruct (IH _ H) as [H1 H2]. split; [exact H1|].
    change (firstn (S (S n)) (x :: l)) with (x :: firstn (S n) l).
    now rewrite H2.
Qed.

Lemma skipn_done {A : Type} (n : nat) (l : list A) :
  skipn n l = [] ->
  skipn (S n) l = [] /\ firstn (S n) l = firstn n l.
Proof.
  revert l. induction n as [|n IH]; intros [|x l] H; simpl in H;
    try discriminate; try (now split).
  destruct (IH _ H) as [H1 H2]. split; [exact H1|].
  change (firstn (S (S n)) (x :: l)) with (x :: firstn (S n) l).
  now rewrite H2.
Qed.

Lemma decision_of_length (actions : list ui_action) :
  length (flat_map decision_of actions)
  = length (filter is_key_press actions).
Proof.
  induction actions as [|[|key] actions IH]; simpl; congruence.
Qed.

Lemma fitting_loop_figures_shown (fitter : Fitter) (w f : list float)
    (peak_width : float) (grouped_lines : dict (list group))
    (loc loc' : locals) (s s' : world) :
  NoDup (dict_keys grouped_lines) ->
  ions_loop fitter w f peak_width grouped_lines (dict_keys grouped_lines)
    loc s = Returns loc' s' ->
  figures_shown loc s (all_groups grouped_lines) loc' s'.
Proof.
  intros Hnd Hloop.
  apply (fitting_loop_invariant fitter w f peak_width figures_shown)
    with (grouped_lines := grouped_lines); auto.
  - intros loc0 s0. exists 0%nat. simpl. rewrite app_nil_r.
    repeat split; auto.
  - intros loc0 s0 items loc1 s1 ion_name g loc2 s2
      (shown & Hn & Hle & Hev & Hdec) Hstep.
    destruct (process_group_returns _ _ _ _ _ _ _ _ _ _ Hstep)
      as (record & _ & [[-> ->]|(fitted & r & o & _ & -> & Hshown)]).
    + exists shown. rewrite length_app. simpl. repeat split; auto. lia.
    + assert (Hev1 : key_events (with_emission_line s1 record)
                     = skipn shown (key_events s0)) by exact Hev.
      assert (Hdec1 : doppler_bool_list (with_emission_line s1 record)
                      = doppler_bool_list s0
                        ++ flat_map decision_of (firstn shown (key_events s0)))
        by exact Hdec.
      exists (S shown).
      split; [unfold with_candidate; cbn [rest_candidates];
              rewrite length_app; cbn [length]; lia|].
      split; [rewrite length_app; cbn [length]; lia|].
      destruct Hshown as [[He ->]|[(later & He & ->)|(b & later & He & ->)]];
        rewrite Hev1 in He.
      * destruct (skipn_done _ _ He) as [H1 H2].
        rewrite H2, Hev1, Hdec1, He. now split.
      * destruct (skipn_next _ _ _ _ He) as [H1 H2].
        rewrite H2, flat_map_app. cbn [flat_map decision_of].
        rewrite !app_nil_r.
        unfold with_key_events; cbn [key_events doppler_bool_list].
        rewrite Hdec1. now split.
      * destruct (skipn_next _ _ _ _ He) as [H1 H2].
        rewrite H2, flat_map_app. cbn [flat_map decision_of].
        rewrite !app_nil_r.
        unfold with_decision; cbn [key_events doppler_bool_list].
        rewrite Hdec1, <- app_assoc. split; [now symmetry|].
        now destruct b.
Qed.

(** X11.  A fitting loop that returns has shown one figure for every
    candidate it recorded, at most one per group.  The figures took the
    user's actions in order, as far as there were any, and
    [doppler_bool_list] got one decision for every key press among them
    (true for 'y') and none for a figure that was closed. *)
Theorem decisions_follow_the_user_actions (fitter : Fitter) (w f : list float)
    (peak_width : float) (grouped_lines : dict (list group))
    (loc loc' : locals) (s s' : world) :
  NoDup (dict_keys grouped_lines) ->
  ions_loop fitter w f peak_width grouped_lines (dict_keys grouped_lines)
    loc s = Returns loc' s' ->
  exists shown,
    length (rest_candidates loc') = (length (rest_candidates loc) + shown)%nat /\
    (shown <= length (all_groups grouped_lines))%nat /\
    key_events s' = skipn shown (key_events s) /\
    doppler_bool_list s'
      = doppler_bool_list s
        ++ flat_map decision_of (firstn shown (key_events s)).
Proof.
  intros Hnd Hloop.
  exact (fitting_loop_figures_shown _ _ _ _ _ _ _ _ _ Hnd Hloop).
Qed.

Lemma decisions_follow_the_user_actions_witness :
  exists shown,
    length (rest_candidates scenario_locals)
      = (length (rest_candidates no_locals) + shown)%nat /\
    (shown <= length (all_groups scenario_lines))%nat /\
    key_events scenario_world = skipn shown (key_events scenario_start) /\
    doppler_bool_list scenario_world
      = doppler_bool_list scenario_start
        ++ flat_map decision_of (firstn shown (key_events scenario_start)).
Proof.
  apply (decisions_follow_the_user_actions (fits_shifted_by 1) example_w
           example_f 2 scenario_lines no_locals scenario_locals
           scenario_start scenario_world).
  - repeat constructor. intros [].
  - vm_compute. reflexivity.
Defined.

(** X12.  [doppler_shift_calc] needs exactly one decision per figure.  When
    its fitting loop returns, the number of decisions is the length
    [doppler_bool_list] had at the call plus the number of figures answered
    with a key.  With no decision at all the run stops at the first
    assertion; with a number of decisions other than the number of figures
    shown (a figure was closed, or the list was not empty at the call) it
    stops at the second.  Both leave the state as the fitting loop made
    it. *)
Theorem run_needs_one_decision_per_figure (fitter : Fitter)
    (grouped_lines : dict (list group)) (w f : list float)
    (flux_range peak_width : float) (loc : locals) (s s1 : world) :
  NoDup (dict_keys grouped_lines) ->
  ions_loop fitter w f peak_width grouped_lines (dict_keys grouped_lines)
    no_locals s = Returns loc s1 ->
  let shown := length (rest_candidates loc) in
  let decisions :=
    (length (doppler_bool_list s)
     + length (filter is_key_press (firstn shown (key_events s))))%nat in
  length (doppler_bool_list s1) = decisions /\
  (decisions = 0%nat ->
   doppler_shift_calc fitter grouped_lines w f flux_range peak_width s
   = Raises no_decision_error s1) /\
  (decisions <> 0%nat -> decisions <> shown ->
   doppler_shift_calc fitter grouped_lines w f flux_range peak_width s
   = Raises decision_count_error s1).
Proof.
  intros Hnd Hloop shown decisions.
  destruct (fitting_loop_figures_shown _ _ _ _ _ _ _ _ _ Hnd Hloop)
    as (n & Hn & _ & _ & Hdec).
  simpl in Hn. fold shown in Hn. subst n.
  assert (Hlen : length (doppler_bool_list s1) = decisions).
  { rewrite Hdec, length_app, decision_of_length. reflexivity. }
  split; [exact Hlen|].
  unfold doppler_shift_calc, bind. rewrite Hloop.
  unfold doppler_aggregate. rewrite Hlen. fold shown.
  split.
  - intros ->. reflexivity.
  - intros H0 Hne.
    destruct (Nat.ltb_spec 0 decisions) as [_|]; [|lia]. simpl.
    destruct (Nat.eqb_spec decisions shown) as [|_]; [contradiction|].
    reflexivity.
Qed.

Lemma run_needs_one_decision_per_figure_witness :
  let s := empty_world [CloseFigure] in
  let out :=
    ions_loop (fits_shifted_by 1) example_w example_f 2 scenario_lines
      (dict_keys scenario_lines) no_locals s in
  let loc := match out with Returns loc _ => loc | Raises _ _ => no_locals end in
  let shown := length (rest_candidates loc) in
  let decisions :=
    (length (doppler_bool_list s)
     + length (filter is_key_press (firstn shown (key_events s))))%nat in
  length (doppler_bool_list (final_state out)) = decisions /\
  (decisions = 0%nat ->
   doppler_shift_calc (fits_shifted_by 1) scenario_lines example_w example_f
     4 2 s
   = Raises no_decision_error (final_state out)) /\
  (decisions <> 0%nat -> decisions <> shown ->
   doppler_shift_calc (fits_shifted_by 1) scenario_lines example_w example_f
     4 2 s
   = Raises decision_count_error (final_state out)).
Proof.
  intros s out loc.
  apply (run_needs_one_decision_per_figure (fits_shifted_by 1)
           scenario_lines example_w example_f 4 2 loc s (final_state out)).
  - repeat constructor. intros [].
  - vm_compute. reflexivity.
Defined.

(* ------------------------------------------------------------------ *)
(** ** The instances shared with [emission_line_list] *)

Lemma nth_error_update_nth_same {A : Type} (xs : list A) (i : nat)
    (f : A -> A) (x : A) :
  nth_error xs i = Some x -> nth_error (update_nth xs i f) i = Some (f x).
Proof.
  revert i. induction xs as [|y xs IH]; intros [|i]; simpl; try discriminate.
  - now intros [= ->].
  - apply IH.
Qed.

Lemma nth_error_update_nth_other {A : Type} (xs : list A) (i j : nat)
    (f : A -> A) :
  i <> j -> nth_error (update_nth xs i f) j = nth_error xs j.
Proof.
  revert i j. induction xs as [|y xs IH]; intros [|i] [|j] H; simpl; auto.
  contradiction.
Qed.

Lemma StronglySorted_lt_snoc (refs : list nat) (ref : nat) :
  StronglySorted lt refs -> Forall (fun r => (r < ref)%nat) refs ->
  StronglySorted lt (refs ++ [ref]).
Proof.
  induction 1 as [|r refs Hs IH Hr]; intros Hall; simpl.
  - repeat constructor.
  - inversion Hall as [|? ? Hlt Hall']; subst. constructor.
    + now apply IH.
    + apply Forall_app. split; [exact Hr | now repeat constructor].
Qed.

Lemma StronglySorted_lt_NoDup (refs : list nat) :
  StronglySorted lt refs -> NoDup refs.
Proof.
  induction 1 as [|r refs Hs IH Hr]; constructor; [|exact IH].
  intros Hin. rewrite Forall_forall in Hr. specialize (Hr _ Hin). lia.
Qed.

Lemma fitting_loop_candidates_refer (fitter : Fitter) (w f : list float)
    (peak_width : float) (grouped_lines : dict (list group))
    (loc loc' : locals) (s s' : world) :
  NoDup (dict_keys grouped_lines) ->
  ions_loop fitter w f peak_width grouped_lines (dict_keys grouped_lines)
    loc s = Returns loc' s' ->
  candidates_refer loc s (all_groups grouped_lines) loc' s'.
Proof.
  intros Hnd Hloop.
  apply (fitting_loop_invariant fitter w f peak_width candidates_refer)
    with (grouped_lines := grouped_lines); auto.
  - intros loc0 s0. exists []. rewrite app_nil_r.
    repeat split; auto; constructor.
  - intros loc0 s0 items loc1 s1 ion_name g loc2 s2
      (refs & Hrefs & Hsorted & Hbound & Hle) Hstep.
    destruct (process_group_record _ _ _ _ _ _ _ _ _ _ Hstep)
      as (record & _ & Hobjs & _).
    assert (Hlen : length (objects s2) = S (length (objects s1))).
    { rewrite Hobjs, length_app. simpl. lia. }
    destruct (process_group_returns _ _ _ _ _ _ _ _ _ _ Hstep)
      as (record' & _ & [[-> _]|(fitted & r & o & _ & -> & _)]).
    + exists refs. repeat split; auto; [|lia].
      eapply Forall_impl; [|exact Hbound]. simpl. intros; lia.
    + exists (refs ++ [length (objects s1)]). simpl.
      split; [now rewrite Hrefs, app_assoc|]. split; [|split; [|lia]].
      * apply StronglySorted_lt_snoc; [exact Hsorted|].
        eapply Forall_impl; [|exact Hbound]. simpl. intros; lia.
      * apply Forall_app. split.
        -- eapply Forall_impl; [|exact Hbound]. simpl. intros; lia.
        -- repeat constructor; lia.
Qed.

Lemma decisions_loop_objects (loc : locals) :
  NoDup (emission_line_objs loc) ->
  forall decisions i dv s dv' s',
    decisions_loop loc i decisions dv s = Returns dv' s' ->
    same_lists s s' /\
    (forall ref record,
       nth_error (objects s) ref = Some record ->
       (forall j, nth_error decisions j = Some true ->
                  nth_error (emission_line_objs loc) (i + j) <> Some ref) ->
       nth_error (objects s') ref = Some record) /\
    (forall j ref fitted record,
       nth_error decisions j = Some true ->
       nth_error (emission_line_objs loc) (i + j) = Some ref ->
       nth_error (all_fitted_models loc) (i + j) = Some fitted ->
       nth_error (objects s) ref = Some record ->
       nth_error (objects s') ref = Some (with_fitted_model record fitted)).
Proof.
  intros Hnd.
  assert (Hdistinct : forall a b ref,
            nth_error (emission_line_objs loc) a = Some ref ->
            nth_error (emission_line_objs loc) b = Some ref -> a = b).
  { intros a b ref Ha Hb.
    apply (proj1 (NoDup_nth_error (emission_line_objs loc)) Hnd).
    - apply nth_error_Some. congruence.
    - congruence. }
  induction decisions as [|b ds IH]; intros i dv s dv' s' Hrun.
  - simpl in Hrun. injection Hrun as <- <-.
    split; [apply same_lists_refl|]. split.
    + auto.
    + intros [|j]; discriminate.
  - simpl in Hrun. destruct b.
    + unfold bind, py_index in Hrun.
      destruct (nth_error (emission_line_objs loc) i) as [obj|] eqn:Hobj;
        [|discriminate].
      destruct (nth_error (all_fitted_models loc) i) as [fm|] eqn:Hfm;
        [|discriminate].
      simpl in Hrun.
      destruct (nth_error (rest_candidates loc) i) as [rests|];
        [|discriminate].
      simpl in Hrun.
      destruct (group_doppler_loop (obs_candidates loc) i 0 rests [])
        as [gd|]; [|discriminate].
      simpl in Hrun. destruct (py_mean gd) as [v|]; [|discriminate].
      simpl in Hrun.
      destruct (update_fitted_model_same_lists obj fm s) as (s1 & Hs1 & Hsame).
      injection Hs1 as Hs1.
      rewrite Hs1 in Hrun.
      assert (Hobjs1 : objects s1
                = update_nth (objects s) obj
                    (fun o => with_fitted_model o fm)).
      { rewrite <- Hs1. reflexivity. }
      destruct (IH _ _ _ _ _ Hrun) as (Hsame' & Hkeep & Hset).
      split; [eapply same_lists_trans; eassumption|]. split.
      * intros ref record Href Hfree. apply Hkeep.
        -- rewrite Hobjs1, nth_error_update_nth_other; [exact Href|].
           intros ->. apply (Hfree 0%nat); [reflexivity|].
           now rewrite Nat.add_0_r.
        -- intros j Hj. specialize (Hfree (S j) Hj).
           now rewrite Nat.add_succ_r in Hfree.
      * intros [|j] ref fitted record Hj Href Hfitted Hrec.
        -- rewrite Nat.add_0_r in Href, Hfitted.
           assert (ref = obj) by congruence. subst ref.
           assert (fitted = fm) by congruence. subst fitted.
           apply Hkeep.
           ++ rewrite Hobjs1.
              exact (nth_error_update_nth_same _ _
                       (fun o => with_fitted_model o fm) _ Hrec).
           ++ intros j Hj' Hother.
              pose proof (Hdistinct _ _ _ Hobj Hother). lia.
        -- simpl in Hj. rewrite Nat.add_succ_r in Href, Hfitted.
           apply (Hset j); auto.
           rewrite Hobjs1, nth_error_update_nth_other; [exact Hrec|].
           intros ->. pose proof (Hdistinct _ _ _ Hobj Href). lia.
    + destruct (IH _ _ _ _ _ Hrun) as (Hsame' & Hkeep & Hset).
      split; [exact Hsame'|]. split.
      * intros ref record Href Hfree. apply Hkeep; [exact Href|].
        intros j Hj. specialize (Hfree (S j) Hj).
        now rewrite Nat.add_succ_r in Hfree.
      * intros [|j] ref fitted record Hj Href Hfitted Hrec; [discriminate|].
        simpl in Hj. rewrite Nat.add_succ_r in Href, Hfitted.
        now apply (Hset j).
Qed.

Lemma doppler_aggregate_returns (loc : locals) (s : world) (v : float)
    (s' : world) :
  doppler_aggregate loc s = Returns v s' ->
  exists dv s2,
    decisions_loop loc 0 (doppler_bool_list s) [] s = Returns dv s2 /\
    py_mean dv = Ok v /\
    objects s' = objects s2 /\
    emission_line_list s' = emission_line_list s2 /\
    doppler_bool_list s' = doppler_bool_list s2.
Proof.
  unfold doppler_aggregate.
  destruct (negb (0 <? length (doppler_bool_list s))%nat); [discriminate|].
  destruct (negb (length (doppler_bool_list s)
                  =? length (rest_candidates loc))%nat); [discriminate|].
  unfold bind.
  destruct (decisions_loop loc 0 (doppler_bool_list s) [] s) as [dv s2|];
    [|discriminate].
  destruct (py_mean dv) as [v'|] eqn:Hmean; [|discriminate].
  simpl. intros [= <- <-]. exists dv, s2. now repeat split.
Qed.

(** X13.  The records of [emission_line_list] are the very instances the
    candidates refer to.  After a run that returns, the record of every
    candidate accepted with 'y' carries the fitted model of that candidate
    (its other fields are as the fitting loop set them), the record of a
    rejected candidate still has no fitted model, and every other instance,
    among them the records of the groups whose fit failed, is unchanged.
    Each candidate's record is listed in [emission_line_list]. *)
Theorem accepted_candidates_share_their_fit (fitter : Fitter)
    (grouped_lines : dict (list group)) (w f : list float)
    (flux_range peak_width : float) (s : world) (v : float) (s' : world) :
  NoDup (dict_keys grouped_lines) ->
  doppler_shift_calc fitter grouped_lines w f flux_range peak_width s
  = Returns v s' ->
  exists loc s1,
    ions_loop fitter w f peak_width grouped_lines (dict_keys grouped_lines)
      no_locals s = Returns loc s1 /\
    emission_line_list s' = emission_line_list s1 /\
    length (objects s') = length (objects s1) /\
    (forall i ref fitted accept,
       nth_error (emission_line_objs loc) i = Some ref ->
       nth_error (all_fitted_models loc) i = Some fitted ->
       nth_error (doppler_bool_list s') i = Some accept ->
       In ref (emission_line_list s') /\
       exists record,
         nth_error (objects s1) ref = Some record /\
         fitted_model record = None /\
         nth_error (objects s') ref
         = Some (if accept then with_fitted_model record fitted
                 else record)) /\
    (forall ref record,
       nth_error (objects s1) ref = Some record ->
       ~ In ref (emission_line_objs loc) ->
       nth_error (objects s') ref = Some record).
Proof.
  intros Hnd Hrun. unfold doppler_shift_calc, bind in Hrun.
  destruct (ions_loop fitter w f peak_width grouped_lines
              (dict_keys grouped_lines) no_locals s) as [loc s1|] eqn:Hloop;
    [|discriminate].
  exists loc, s1. split; [reflexivity|].
  destruct (doppler_aggregate_returns _ _ _ _ Hrun)
    as (dv & s2 & Hdec & _ & Hobjs & Hlist & Hbools).
  destruct (fitting_loop_candidates_refer _ _ _ _ _ _ _ _ _ Hnd Hloop)
    as (refs & Hrefs & Hsorted & Hbound & _).
  simpl in Hrefs.
  destruct (fitting_loop_records_created _ _ _ _ _ _ _ _ _ Hnd Hloop)
    as (records & Hrecs & Hobjs1 & Hlist1).
  assert (Hnd' : NoDup (emission_line_objs loc)).
  { rewrite Hrefs. now apply StronglySorted_lt_NoDup. }
  destruct (decisions_loop_objects loc Hnd' _ _ _ _ _ _ Hdec)
    as (Hsame & Hkeep & Hset).
  destruct Hsame as (_ & Hb & Hl & _ & _ & Hlen).
  rewrite Hobjs, Hlist, Hbools, Hb, Hl.
  split; [reflexivity|]. split.
  { exact Hlen. }
  split.
  - intros i ref fitted accept Href Hfitted Haccept.
    assert (Hin : In ref refs).
    { rewrite <- Hrefs. eapply nth_error_In; eassumption. }
    rewrite Forall_forall in Hbound. specialize (Hbound _ Hin).
    split.
    { rewrite Hlist1. apply in_or_app. right. apply in_seq.
      rewrite Hobjs1, length_app in Hbound.
      rewrite <- (Forall2_length Hrecs) in Hbound. lia. }
    destruct (nth_error_in_range (objects s1) ref) as [record Hrec]; [lia|].
    exists record. split; [exact Hrec|]. split.
    + rewrite Hobjs1, nth_error_app2 in Hrec by lia.
      apply nth_error_In in Hrec.
      clear - Hrecs Hrec.
      induction Hrecs as [|[i g] r items records H _ IH]; [contradiction|].
      destruct Hrec as [->|Hrec]; [|now apply IH].
      now destruct (group_record_fields _ _ _ _ _ _ H) as (_ & _ & C & _).
    + destruct accept.
      * now apply (Hset i ref fitted record).
      * apply Hkeep; [exact Hrec|].
        intros j Hj Hother. simpl in Hother.
        assert (i = j).
        { apply (proj1 (NoDup_nth_error (emission_line_objs loc)) Hnd').
          - apply nth_error_Some. congruence.
          - congruence. }
        subst j. congruence.
  - intros ref record Hrec Hfree. apply Hkeep; [exact Hrec|].
    intros j _ Hother. apply Hfree. eapply nth_error_In; eassumption.
Qed.

Lemma accepted_candidates_share_their_fit_witness :
  exists loc s1,
    ions_loop (fits_shifted_by 1) example_w example_f 2 scenario_lines
      (dict_keys scenario_lines) no_locals scenario_start
    = Returns loc s1 /\
    emission_line_list
      (final_state
         (doppler_shift_calc (fits_shifted_by 1) scenario_lines example_w
            example_f 4 2 scenario_start))
    = emission_line_list s1 /\
    length
      (objects
         (final_state
            (doppler_shift_calc (fits_shifted_by 1) scenario_lines example_w
               example_f 4 2 scenario_start)))
    = length (objects s1) /\
    (forall i ref fitted accept,
       nth_error (emission_line_objs loc) i = Some ref ->
       nth_error (all_fitted_models loc) i = Some fitted ->
       nth_error
         (doppler_bool_list
            (final_state
               (doppler_shift_calc (fits_shifted_by 1) scenario_lines
                  example_w example_f 4 2 scenario_start))) i
       = Some accept ->
       In ref
         (emission_line_list
            (final_state
               (doppler_shift_calc (fits_shifted_by 1) scenario_lines
                  example_w example_f 4 2 scenario_start))) /\
       exists record,
         nth_error (objects s1) ref = Some record /\
         fitted_model record = None /\
         nth_error
           (objects
              (final_state
                 (doppler_shift_calc (fits_shifted_by 1) scenario_lines
                    example_w example_f 4 2 scenario_start))) ref
         = Some (if accept then with_fitted_model record fitted
                 else record)) /\
    (forall ref record,
       nth_error (objects s1) ref = Some record ->
       ~ In ref (emission_line_objs loc) ->
       nth_error
         (objects
            (final_state
               (doppler_shift_calc (fits_shifted_by 1) scenario_lines
                  example_w example_f 4 2 scenario_start))) ref
       = Some record).
Proof.
  apply (accepted_candidates_share_their_fit (fits_shifted_by 1)
           scenario_lines example_w example_f 4 2 scenario_start
           (match value_of
                    (doppler_shift_calc (fits_shifted_by 1) scenario_lines
                       example_w example_f 4 2 scenario_start) with
            | Ok v => v
            | Raise _ => 0
            end)).
  - repeat constructor. intros [].
  - vm_compute. reflexivity.
Defined.

(* ------------------------------------------------------------------ *)
(** ** The peak width at the edges *)

Lemma is_finite_Prim2SF (x : float) :
  is_finite x = true ->
  (exists s, Prim2SF x = S754_zero s) \/
  (exists s m e, Prim2SF x = S754_finite s m e).
Proof.
  unfold is_finite, is_nan, is_infinity.
  rewrite !FloatAxioms.eqb_spec, abs_spec.
  change (Prim2SF infinity) with (S754_infinity false).
  destruct (Prim2SF x) as [s|s| |s m e]; simpl; try discriminate; eauto.
  destruct s; discriminate.
Qed.

Lemma float_sub_self (x : float) : is_finite x = true -> x - x = 0.
Proof.
  intros H. destruct (is_finite_Prim2SF x H) as [[s Hs]|(s & m & e & Hs)].
  - apply Prim2SF_inj. rewrite FloatAxioms.sub_spec, Hs. now destruct s.
  - exact (float_sub_diag x s m e Hs).
Qed.

Lemma float_div_nan (x y : float) :
  Prim2SF y = S754_nan -> Prim2SF (x / y) = S754_nan.
Proof.
  intros H. rewrite FloatAxioms.div_spec, H. unfold SF64div.
  now destruct (Prim2SF x).
Qed.

Lemma half_widths_differ : 5.0 <> 0.5.
Proof.
  intros H. apply (f_equal (fun x => x <? 1)) in H. vm_compute in H.
  discriminate.
Qed.

(** X14.  The edges of the peak width.  With fewer than two wavelengths both
    implementations raise [IndexError].  When the first two wavelengths are
    the same finite number the step is 0, the quotient is infinite and
    [math.floor] raises [OverflowError]; when one of them is NaN the quotient
    is NaN and [math.floor] raises [ValueError].  No half-width is returned
    in any of these cases. *)
Theorem peak_width_finder_edges (grating : string) (self : SpectrumData.t)
    (wavelength_data : list float) :
  SpectrumData.wavelength_data self = wavelength_data ->
  ((length wavelength_data < 2)%nat ->
   peak_width_finder grating wavelength_data = Raise IndexError /\
   SpectrumData.peak_width_finder self = Raise IndexError) /\
  (forall w0 w1 later,
     wavelength_data = w0 :: w1 :: later ->
     is_finite w0 = true -> w1 = w0 ->
     peak_width_finder grating wavelength_data = Raise OverflowError /\
     SpectrumData.peak_width_finder self = Raise OverflowError) /\
  (forall w0 w1 later,
     wavelength_data = w0 :: w1 :: later ->
     is_nan w1 || is_nan w0 = true ->
     peak_width_finder grating wavelength_data = Raise ValueError /\
     SpectrumData.peak_width_finder self = Raise ValueError).
Proof.
  intros Hself. unfold SpectrumData.peak_width_finder. rewrite Hself.
  unfold peak_width_finder, PEAK_WIDTH_LOW_RES, PEAK_WIDTH_HIGH_RES.
  split; [|split].
  - intros Hlen. destruct wavelength_data as [|w0 [|w1 later]];
      simpl in Hlen; try lia; now split.
  - intros w0 w1 later -> Hfin ->. simpl.
    rewrite (float_sub_self w0 Hfin).
    split; [destruct (py_in_str "L" grating)
           | destruct (String.eqb (SpectrumData.resolution self) "HIGH")];
      reflexivity.
  - intros w0 w1 later -> Hnan. simpl.
    pose proof (float_sub_nan w1 w0 Hnan) as Hstep.
    unfold py_floor.
    split; [destruct (py_in_str "L" grating)
           | destruct (String.eqb (SpectrumData.resolution self) "HIGH")];
      now rewrite (float_div_nan _ _ Hstep).
Qed.

Lemma peak_width_finder_edges_witness :
  is_finite 1300.0 = true /\
  peak_width_finder "G130M" repeated_w = Raise OverflowError /\
  SpectrumData.peak_width_finder repeated_spectrum = Raise OverflowError.
Proof.
  split; [reflexivity|].
  apply (proj1 (proj2 (peak_width_finder_edges "G130M" repeated_spectrum
                         repeated_w eq_refl))
           1300.0 1300.0 [1301.0]); reflexivity.
Defined.

(** X15.  The free function chooses the half-width by the letter L in the
    grating, the method of [SpectrumData] by the resolution being 'HIGH'
    (which gets the low-resolution width 5.0).  On the same wavelengths the
    two give the same result, value or error, when the two tests agree; when
    they disagree and both return, the half-widths differ: one is 5.0 and
    the other 0.5. *)
Theorem peak_width_finders_agree (grating : string) (self : SpectrumData.t) :
  (py_in_str "L" grating = String.eqb (SpectrumData.resolution self) "HIGH" ->
   peak_width_finder grating (SpectrumData.wavelength_data self)
   = SpectrumData.peak_width_finder self) /\
  (py_in_str "L" grating <> String.eqb (SpectrumData.resolution self) "HIGH" ->
   forall widths widths',
     peak_width_finder grating (SpectrumData.wavelength_data self)
     = Ok widths ->
     SpectrumData.peak_width_finder self = Ok widths' ->
     fst (fst widths) <> fst (fst widths') /\
     (fst (fst widths) = 5.0 \/ fst (fst widths) = 0.5) /\
     (fst (fst widths') = 5.0 \/ fst (fst widths') = 0.5)).
Proof.
  unfold SpectrumData.peak_width_finder, peak_width_finder,
    PEAK_WIDTH_LOW_RES, PEAK_WIDTH_HIGH_RES.
  split.
  - intros ->. reflexivity.
  - intros Hne widths widths'.
    destruct (py_index (SpectrumData.wavelength_data self) 1) as [w1|];
      [|discriminate].
    destruct (py_index (SpectrumData.wavelength_data self) 0) as [w0|];
      [|discriminate].
    simpl.
    destruct (py_in_str "L" grating),
             (String.eqb (SpectrumData.resolution self) "HIGH");
      try congruence;
      destruct (py_floor _) as [p|]; try discriminate;
      destruct (py_floor _) as [p'|]; try discriminate;
      intros [= <-] [= <-]; simpl;
      (split; [|auto]);
      intros H; apply half_widths_differ; congruence.
Qed.

(** A low-resolution grating whose resolution is entered as 'LOW': the free
    function takes the wide half-width, the method the narrow one. *)
Example peak_width_finders_disagree :
  let self :=
    {| SpectrumData.grating := "G140L";
       SpectrumData.resolution := "LOW";
       SpectrumData.min_wavelength := 1200;
       SpectrumData.max_wavelength := 1400;
       SpectrumData.wavelength_data := example_w;
       SpectrumData.flux_data := example_f;
       SpectrumData.error_data := example_f;
       SpectrumData.rest_lam_data := [] |} in
  option_map (fun r => fst (fst r))
    (match peak_width_finder "G140L" example_w with
     | Ok r => Some r | Raise _ => None end) = Some 5.0 /\
  option_map (fun r => fst (fst r))
    (match SpectrumData.peak_width_finder self with
     | Ok r => Some r | Raise _ => None end) = Some 0.5.
Proof. vm_compute. split; reflexivity. Qed.

(* ------------------------------------------------------------------ *)
(** ** The wavelength mask of [_load_data] *)

Lemma np_select_shape {A : Type} (mask : list bool) (a : list A) :
  length a <> length mask -> np_select mask a = Raise IndexError.
Proof.
  revert a. induction mask as [|b mask IH]; intros [|x a] H; simpl in *;
    try reflexivity; try congruence.
  rewrite IH by congruence. reflexivity.
Qed.

Lemma np_between_length (w : list float) (lo hi : float) :
  length (np_between w lo hi) = length w.
Proof. apply length_map. Qed.

Lemma np_select_file_samples (lo hi : float) (w f e : list float) :
  length f = length w -> length e = length w ->
  exists mf me,
    np_select (np_between w lo hi) f = Ok mf /\
    np_select (np_between w lo hi) e = Ok me /\
    length mf = length (filter (in_open_interval lo hi) w) /\
    length me = length (filter (in_open_interval lo hi) w) /\
    file_samples (filter (in_open_interval lo hi) w) mf me
    = filter (fun sample => in_open_interval lo hi (fst sample))
             (file_samples w f e).
Proof.
  revert f e. induction w as [|x w IH]; intros [|y f] [|z e] Hf He;
    try discriminate.
  - exists [], []. now repeat split.
  - destruct (IH f e) as (mf & me & Hmf & Hme & Hlf & Hle & Hrows);
      [simpl in Hf; lia | simpl in He; lia |].
    simpl. rewrite Hmf, Hme. simpl.
    change ((lo <? x) && (x <? hi)) with (in_open_interval lo hi x).
    destruct (in_open_interval lo hi x).
    + exists (y :: mf), (z :: me). simpl. repeat split; try congruence.
      unfold file_samples in *. simpl. now rewrite Hrows.
    + exists mf, me. now repeat split.
Qed.

(** X16.  When [_load_data] returns, the stored arrays hold exactly the
    samples of the file whose wavelength lies strictly between
    [min_wavelength] and [max_wavelength], in file order: wavelength, flux
    and error of a sample stay together, the three arrays have one length,
    and at least two samples were kept.  The configuration attributes are
    unchanged and the catalog is stored as read. *)
Theorem load_data_keeps_the_samples_inside (self self' : SpectrumData.t)
    (wavelength_data flux_data error_data : list float)
    (rest_lam_data : list row) (widths : float * Z * float) :
  length flux_data = length wavelength_data ->
  length error_data = length wavelength_data ->
  _load_data self wavelength_data flux_data error_data rest_lam_data
  = Ok (self', widths) ->
  let inside :=
    in_open_interval (SpectrumData.min_wavelength self)
                     (SpectrumData.max_wavelength self) in
  file_samples (SpectrumData.wavelength_data self')
               (SpectrumData.flux_data self') (SpectrumData.error_data self')
  = filter (fun sample => inside (fst sample))
           (file_samples wavelength_data flux_data error_data) /\
  SpectrumData.wavelength_data self' = filter inside wavelength_data /\
  length (SpectrumData.flux_data self')
  = length (SpectrumData.wavelength_data self') /\
  length (SpectrumData.error_data self')
  = length (SpectrumData.wavelength_data self') /\
  (2 <= length (SpectrumData.wavelength_data self'))%nat /\
  SpectrumData.rest_lam_data self' = rest_lam_data /\
  SpectrumData.grating self' = SpectrumData.grating self /\
  SpectrumData.resolution self' = SpectrumData.resolution self /\
  SpectrumData.min_wavelength self' = SpectrumData.min_wavelength self /\
  SpectrumData.max_wavelength self' = SpectrumData.max_wavelength self /\
  SpectrumData.peak_width_finder self' = Ok widths.
Proof.
  intros Hf He. unfold _load_data.
  rewrite np_select_between_self.
  destruct (np_select_file_samples (SpectrumData.min_wavelength self)
              (SpectrumData.max_wavelength self) wavelength_data flux_data
              error_data Hf He) as (mf & me & -> & -> & Hlf & Hle & Hrows).
  simpl.
  match goal with
  | |- context [SpectrumData.peak_width_finder ?s] => set (loaded := s)
  end.
  destruct (SpectrumData.peak_width_finder loaded) as [r|] eqn:Hwidths;
    [|discriminate].
  simpl. intros [= <- <-]. simpl.
  repeat split; try assumption.
  unfold SpectrumData.peak_width_finder in Hwidths. simpl in Hwidths.
  destruct (filter _ wavelength_data) as [|w0 [|w1 later]];
    try discriminate. simpl. lia.
Qed.

Lemma load_data_keeps_the_samples_inside_witness :
  let self' :=
    match _load_data example_spectrum example_w example_f example_f
            O_I_catalog with
    | Ok (self', _) => self'
    | Raise _ => example_spectrum
    end in
  let inside :=
    in_open_interval (SpectrumData.min_wavelength example_spectrum)
                     (SpectrumData.max_wavelength example_spectrum) in
  file_samples (SpectrumData.wavelength_data self')
               (SpectrumData.flux_data self') (SpectrumData.error_data self')
  = filter (fun sample => inside (fst sample))
           (file_samples example_w example_f example_f) /\
  SpectrumData.wavelength_data self' = filter inside example_w /\
  length (SpectrumData.flux_data self')
  = length (SpectrumData.wavelength_data self') /\
  length (SpectrumData.error_data self')
  = length (SpectrumData.wavelength_data self') /\
  (2 <= length (SpectrumData.wavelength_data self'))%nat /\
  SpectrumData.rest_lam_data self' = O_I_catalog /\
  SpectrumData.grating self' = SpectrumData.grating example_spectrum /\
  SpectrumData.resolution self' = SpectrumData.resolution example_spectrum /\
  SpectrumData.min_wavelength self'
  = SpectrumData.min_wavelength example_spectrum /\
  SpectrumData.max_wavelength self'
  = SpectrumData.max_wavelength example_spectrum /\
  SpectrumData.peak_width_finder self'
  = Ok (match _load_data example_spectrum example_w example_f example_f
                O_I_catalog with
        | Ok (_, widths) => widths
        | Raise _ => (0, 0%Z, 0)
        end).
Proof.
  intros self'.
  apply (load_data_keeps_the_samples_inside example_spectrum self' example_w
           example_f example_f O_I_catalog).
  - reflexivity.
  - reflexivity.
  - vm_compute. reflexivity.
Defined.

(** X17.  [_load_data] raises [IndexError], and builds no spectrum, when the
    flux or the error array has another length than the wavelength array,
    and when fewer than two wavelengths lie strictly between
    [min_wavelength] and [max_wavelength] (the peak width needs the first
    two). *)
Theorem load_data_index_errors (self : SpectrumData.t)
    (wavelength_data flux_data error_data : list float)
    (rest_lam_data : list row) :
  length flux_data <> length wavelength_data \/
  length error_data <> length wavelength_data \/
  (length (filter (in_open_interval (SpectrumData.min_wavelength self)
                                    (SpectrumData.max_wavelength self))
                  wavelength_data) < 2)%nat ->
  _load_data self wavelength_data flux_data error_data rest_lam_data
  = Raise IndexError.
Proof.
  intros H. unfold _load_data. rewrite np_select_between_self. simpl.
  destruct (Nat.eq_dec (length flux_data) (length wavelength_data)) as [Hf|Hf];
    [|rewrite np_select_shape by (now rewrite np_between_length);
      reflexivity].
  destruct (Nat.eq_dec (length error_data) (length wavelength_data))
    as [He|He].
  - destruct (np_select_file_samples (SpectrumData.min_wavelength self)
                (SpectrumData.max_wavelength self) wavelength_data flux_data
                error_data Hf He) as (mf & me & -> & -> & _).
    simpl. destruct H as [H|[H|H]]; try contradiction.
    unfold SpectrumData.peak_width_finder. simpl.
    destruct (filter _ wavelength_data) as [|w0 [|w1 later]];
      simpl in H; try lia; reflexivity.
  - rewrite (np_select_between _ _ _ _ Hf). simpl.
    rewrite np_select_shape by (now rewrite np_between_length).
    reflexivity.
Qed.

Lemma load_data_index_errors_witness :
  _load_data example_spectrum example_w example_f example_f O_I_catalog
  <> Raise IndexError /\
  _load_data example_spectrum example_w (tl example_f) example_f O_I_catalog
  = Raise IndexError.
Proof.
  split; [vm_compute; discriminate|].
  apply (load_data_index_errors example_spectrum example_w (tl example_f)
           example_f O_I_catalog).
  left. vm_compute. lia.
Defined.

(* ------------------------------------------------------------------ *)
(** ** The instances of [Emission_Line] *)

Lemma dict_get_not_key {V : Type} (d : dict V) (k : string) :
  ~ In k (dict_keys d) -> dict_get d k = None.
Proof.
  induction d as [|[k0 v0] d IH]; simpl; intros H; [reflexivity|].
  destruct (String.eqb_spec k k0) as [->|_]; [exfalso; auto|].
  apply IH. auto.
Qed.

Lemma dict_get_key {V : Type} (d : dict V) (k : string) :
  In k (dict_keys d) -> exists v, dict_get d k = Some v.
Proof.
  intros H. destruct (dict_get d k) as [v|] eqn:E; [eauto|].
  now apply dict_get_none_not_key in E.
Qed.

Lemma dict_keys_set_key {V : Type} (d : dict V) (k : string) (v : V) :
  In k (dict_keys d) -> dict_keys (dict_set d k v) = dict_keys d.
Proof.
  intros H. destruct (dict_get_key d k H) as [v0 Hv0].
  exact (dict_keys_set_present d k v v0 Hv0).
Qed.

Lemma constructed_attributes (self : Emission_Line.t) :
  Emission_Line.constructed self ->
  dict_keys self = Emission_Line_attributes.
Proof.
  induction 1 as [| self v _ IH | self new_flux new_error _ IH].
  - reflexivity.
  - unfold Emission_Line.update_doppler_candidate.
    rewrite dict_keys_set_key; [exact IH|].
    rewrite IH. simpl. tauto.
  - unfold Emission_Line.update_flux_error.
    rewrite dict_keys_set_key; [exact IH|].
    rewrite IH. simpl. tauto.
Qed.

Lemma measured_constructed (line : Emission_Line.t) (flux error : pyval) :
  Emission_Line.measured line flux error -> Emission_Line.constructed line.
Proof.
  induction 1; now constructor.
Qed.

Lemma measured_flux_error (line : Emission_Line.t) (flux error : pyval) :
  Emission_Line.measured line flux error ->
  dict_get line "flux_error" = Some (PyList [flux; error]).
Proof.
  induction 1 as [self flux error _ | self flux error v _ IH].
  - unfold Emission_Line.update_flux_error. rewrite dict_get_set.
    reflexivity.
  - unfold Emission_Line.update_doppler_candidate. rewrite dict_get_set.
    exact IH.
Qed.

(** X18.  [emission_line_to_dict] cannot return: it reads
    [self.wavelength_group] first, an attribute that neither the constructor
    nor an update method of [Emission_Line] ever assigns (the group is kept
    as [group_lam]).  For every instance the class produces the call raises
    [AttributeError], whatever the instance holds. *)
Theorem emission_line_to_dict_raises (self : Emission_Line.t)
    (str_to_float : string -> result float) :
  Emission_Line.constructed self ->
  Emission_Line.emission_line_to_dict str_to_float self
  = Raise AttributeError.
Proof.
  intros H. unfold Emission_Line.emission_line_to_dict, getattr.
  rewrite dict_get_not_key; [reflexivity|].
  rewrite (constructed_attributes self H). simpl.
  intros [E|[E|[E|[E|[E|[E|[E|[E|[E|[]]]]]]]]]]; discriminate.
Qed.

Lemma emission_line_to_dict_raises_witness :
  Emission_Line.emission_line_to_dict (fun _ => Raise ValueError)
    (Emission_Line.update_flux_error example_line (PyFloat 2.0) (PyFloat 0.1))
  = Raise AttributeError.
Proof.
  apply (emission_line_to_dict_raises
           (Emission_Line.update_flux_error example_line (PyFloat 2.0)
              (PyFloat 0.1))
           (fun _ => Raise ValueError)).
  apply Emission_Line.constructed_update_flux_error.
  apply Emission_Line.constructed_init.
Defined.

Lemma nth_error_last {A : Type} (xs : list A) (d : A) :
  xs <> [] -> nth_error xs (length xs - 1) = Some (last xs d).
Proof.
  induction xs as [|x [|y xs] IH]; intros H; [contradiction|reflexivity|].
  replace (length (x :: y :: xs) - 1)%nat with (S (length (y :: xs) - 1))
    by (simpl; lia).
  change (last (x :: y :: xs) d) with (last (y :: xs) d).
  exact (IH ltac:(discriminate)).
Qed.

Lemma py_getitem_last (items : list pyval) :
  items <> [] -> py_getitem (PyList items) (-1) = Ok (last items PyNone).
Proof.
  intros Hne. unfold py_getitem, py_getitem_seq. cbv zeta.
  assert (Hn : (1 <= Z.of_nat (length items))%Z).
  { destruct items; [contradiction|]. simpl length. lia. }
  change (-1 <? 0)%Z with true. cbv iota.
  destruct (Z.ltb_spec (-1 + Z.of_nat (length items)) 0) as [Hneg|_]; [lia|].
  destruct (Z.leb_spec (Z.of_nat (length items))
              (-1 + Z.of_nat (length items))) as [Hle|_]; [lia|].
  cbn [orb]. unfold py_index.
  replace (Z.to_nat (-1 + Z.of_nat (length items)))
    with (length items - 1)%nat by lia.
  now rewrite (nth_error_last items PyNone Hne).
Qed.

Lemma prepare_data_row_measured (line : Emission_Line.t)
    (measurement : pyval * pyval) :
  measured_line line measurement ->
  exists data,
    prepare_data_row line = Ok data /\
    dict_get data "Flux" = Some (fst measurement) /\
    dict_get data "Error" = Some (snd measurement) /\
    row_of_line data line.
Proof.
  intros (Hm & g & Hg & Hne).
  pose proof (measured_flux_error _ _ _ Hm) as Hfe.
  pose proof (constructed_attributes _ (measured_constructed _ _ _ Hm))
    as Hkeys.
  destruct (dict_get_key line "ion") as [ion Hion];
    [rewrite Hkeys; simpl; tauto|].
  destruct (dict_get_key line "blended_bool") as [blended Hblended];
    [rewrite Hkeys; simpl; tauto|].
  unfold prepare_data_row, getattr.
  rewrite Hion, Hg, Hfe, Hblended. cbn [rbind].
  rewrite (py_getitem_last g Hne). simpl.
  eexists. split; [reflexivity|]. simpl.
  split; [reflexivity|]. split; [reflexivity|].
  unfold row_of_line. simpl. rewrite Hion, Hblended.
  repeat split. exists g. now split.
Qed.

(** X19.  The round trip of a flux measurement.  When every line of the
    list was built by the class, holds at least one wavelength and has had
    [update_flux_error(flux, error)] called ([update_doppler_candidate] may
    follow), [_prepare_data_list] returns one row per line, in order, whose
    Flux and Error are the values of that call; Ion and Blended Line are the
    line's attributes and Rest Wavelength is the last wavelength of its
    group. *)
Theorem saved_rows_carry_the_measurements
    (line_list : list Emission_Line.t)
    (measurements : list (pyval * pyval)) :
  Forall2 measured_line line_list measurements ->
  exists rows,
    _prepare_data_list line_list = Ok rows /\
    Forall2 (fun data measurement =>
               dict_get data "Flux" = Some (fst measurement) /\
               dict_get data "Error" = Some (snd measurement))
            rows measurements /\
    Forall2 row_of_line rows line_list.
Proof.
  induction 1 as [|line m lines ms Hline _ (rows & Hrows & Hms & Hlines)].
  - exists []. repeat split; constructor.
  - destruct (prepare_data_row_measured line m Hline)
      as (data & Hdata & Hflux & Herror & Hrow).
    exists (data :: rows). simpl. rewrite Hdata, Hrows. simpl.
    repeat split; constructor; auto.
Qed.

Lemma saved_rows_carry_the_measurements_witness :
  exists rows,
    _prepare_data_list
      [Emission_Line.update_doppler_candidate
         (Emission_Line.update_flux_error
            (Emission_Line.update_flux_error example_line (PyFloat 2.0)
               (PyFloat 0.1))
            (PyFloat 3.0) (PyFloat 0.2))
         (PyBool true)]
    = Ok rows /\
    Forall2 (fun data measurement =>
               dict_get data "Flux" = Some (fst measurement) /\
               dict_get data "Error" = Some (snd measurement))
            rows [(PyFloat 3.0, PyFloat 0.2)] /\
    Forall2 row_of_line rows
      [Emission_Line.update_doppler_candidate
         (Emission_Line.update_flux_error
            (Emission_Line.update_flux_error example_line (PyFloat 2.0)
               (PyFloat 0.1))
            (PyFloat 3.0) (PyFloat 0.2))
         (PyBool true)].
Proof.
  apply (saved_rows_carry_the_measurements
           [Emission_Line.update_doppler_candidate
              (Emission_Line.update_flux_error
                 (Emission_Line.update_flux_error example_line (PyFloat 2.0)
                    (PyFloat 0.1))
                 (PyFloat 3.0) (PyFloat 0.2))
              (PyBool true)]
           [(PyFloat 3.0, PyFloat 0.2)]).
  constructor; [|constructor].
  split.
  - apply Emission_Line.measured_update_doppler_candidate.
    apply Emission_Line.measured_update_flux_error.
    apply Emission_Line.constructed_update_flux_error.
    apply Emission_Line.constructed_init.
  - exists [PyFloat 1302.0; PyFloat 1304.5]. split; [reflexivity|discriminate].
Defined.

Lemma prepare_data_list_app_raises (before after : list Emission_Line.t)
    (line : Emission_Line.t) (rows : list (dict pyval)) (e : exn) :
  _prepare_data_list before = Ok rows ->
  prepare_data_row line = Raise e ->
  _prepare_data_list (before ++ line :: after) = Raise e.
Proof.
  revert rows. induction before as [|l before IH]; intros rows Hrows Hline.
  - simpl. now rewrite Hline.
  - simpl in *. destruct (prepare_data_row l) as [data|]; [|discriminate].
    simpl in *.
    destruct (_prepare_data_list before) as [rest|]; [|discriminate].
    now rewrite (IH rest eq_refl Hline).
Qed.

(** X20.  One line that cannot be saved blocks all of them.  When the lines
    before it give their rows, a line built by the class whose [flux_error]
    is still [None] (no [update_flux_error] yet) makes [_prepare_data_list]
    raise [TypeError], and one whose group is the empty list makes it raise
    [IndexError]; no rows are returned, also not those already made. *)
Theorem unsaved_line_blocks_the_rows (before after : list Emission_Line.t)
    (line : Emission_Line.t) (rows : list (dict pyval)) :
  _prepare_data_list before = Ok rows ->
  Emission_Line.constructed line ->
  (dict_get line "group_lam" = Some (PyList []) ->
   _prepare_data_list (before ++ line :: after) = Raise IndexError) /\
  (forall group_lam,
     dict_get line "group_lam" = Some (PyList group_lam) ->
     group_lam <> [] ->
     dict_get line "flux_error" = Some PyNone ->
     _prepare_data_list (before ++ line :: after) = Raise TypeError).
Proof.
  intros Hrows Hline.
  pose proof (constructed_attributes _ Hline) as Hkeys.
  destruct (dict_get_key line "ion") as [ion Hion];
    [rewrite Hkeys; simpl; tauto|].
  split.
  - intros Hg. apply (prepare_data_list_app_raises _ _ _ _ _ Hrows).
    unfold prepare_data_row, getattr. rewrite Hion, Hg. reflexivity.
  - intros g Hg Hne Hfe. apply (prepare_data_list_app_raises _ _ _ _ _ Hrows).
    unfold prepare_data_row, getattr. rewrite Hion, Hg, Hfe.
    cbn [rbind]. rewrite (py_getitem_last g Hne). reflexivity.
Qed.

Lemma unsaved_line_blocks_the_rows_witness :
  _prepare_data_list
    ([Emission_Line.update_flux_error example_line (PyFloat 2.0)
        (PyFloat 0.1)]
     ++ example_line :: [])
  = Raise TypeError.
Proof.
  apply (proj2 (unsaved_line_blocks_the_rows
                  [Emission_Line.update_flux_error example_line (PyFloat 2.0)
                     (PyFloat 0.1)]
                  [] example_line
                  [[("Ion", PyStr "O_I");
                    ("Rest Wavelength", PyFloat 1304.5);
                    ("Flux", PyFloat 2.0);
                    ("Error", PyFloat 0.1);
                    ("Blended Line", PyBool true)]]
                  eq_refl
                  (Emission_Line.constructed_init _ _ _ _ _ _ _ _ _))
           [PyFloat 1302.0; PyFloat 1304.5]).
  - reflexivity.
  - discriminate.
  - reflexivity.
Defined.

(* ------------------------------------------------------------------ *)
(** ** A second run in the same process *)

Lemma decisions_loop_same_lists (loc : locals) (decisions : list bool) :
  forall i dv s dv' s',
    decisions_loop loc i decisions dv s = Returns dv' s' -> same_lists s s'.
Proof.
  induction decisions as [|b ds IH]; intros i dv s dv' s' Hrun.
  - simpl in Hrun. injection Hrun as <- <-. apply same_lists_refl.
  - simpl in Hrun. destruct b; [|now apply (IH _ _ _ _ _ Hrun)].
    unfold bind in Hrun.
    destruct (py_index (emission_line_objs loc) i) as [obj|]; [|discriminate].
    destruct (py_index (all_fitted_models loc) i) as [fm|]; [|discriminate].
    simpl in Hrun.
    destruct (py_index (rest_candidates loc) i) as [rests|]; [|discriminate].
    simpl in Hrun.
    destruct (group_doppler_loop (obs_candidates loc) i 0 rests [])
      as [gd|]; [|discriminate].
    simpl in Hrun. destruct (py_mean gd) as [v|]; [|discriminate].
    simpl in Hrun.
    destruct (update_fitted_model_same_lists obj fm s) as (s1 & Hs1 & Hsame).
    injection Hs1 as Hs1. rewrite Hs1 in Hrun.
    eapply same_lists_trans; [exact Hsame|]. now apply (IH _ _ _ _ _ Hrun).
Qed.

Lemma run_returns_with_decisions (fitter : Fitter)
    (grouped_lines : dict (list group)) (w f : list float)
    (flux_range peak_width : float) (s : world) (v : float) (s' : world) :
  doppler_shift_calc fitter grouped_lines w f flux_range peak_width s
  = Returns v s' ->
  (0 < length (doppler_bool_list s'))%nat.
Proof.
  unfold doppler_shift_calc, bind.
  destruct (ions_loop fitter w f peak_width grouped_lines
              (dict_keys grouped_lines) no_locals s) as [loc s1|];
    [|discriminate].
  intros Hrun.
  destruct (doppler_aggregate_returns _ _ _ _ Hrun)
    as (dv & s2 & Hdec & _ & _ & _ & Hbools).
  destruct (decisions_loop_same_lists _ _ _ _ _ _ _ Hdec) as (_ & Hb & _).
  rewrite Hbools, Hb. unfold doppler_aggregate in Hrun.
  destruct (Nat.ltb_spec 0 (length (doppler_bool_list s1))) as [H|_];
    [exact H | discriminate].
Qed.

(** X21.  [doppler_bool_list] is a module-level list that no run empties, so
    a run that returned spoils the next one in the same process: when the
    user answers every figure of the second run with a key, the second run
    has more decisions than figures and stops at the second assertion, with
    nothing written to the Doppler log. *)
Theorem second_run_fails_the_count (fitter fitter' : Fitter)
    (grouped_lines grouped_lines' : dict (list group))
    (w f w' f' : list float)
    (flux_range peak_width flux_range' peak_width' : float)
    (s s1 s2 : world) (v : float) (loc : locals) :
  doppler_shift_calc fitter grouped_lines w f flux_range peak_width s
  = Returns v s1 ->
  NoDup (dict_keys grouped_lines') ->
  ions_loop fitter' w' f' peak_width' grouped_lines'
    (dict_keys grouped_lines') no_locals s1 = Returns loc s2 ->
  Forall (fun action => is_key_press action = true)
         (firstn (length (rest_candidates loc)) (key_events s1)) ->
  (length (rest_candidates loc) <= length (key_events s1))%nat ->
  doppler_shift_calc fitter' grouped_lines' w' f' flux_range' peak_width' s1
  = Raises decision_count_error s2 /\
  doppler_log s2 = doppler_log s1.
Proof.
  intros Hfirst Hnd Hloop Hkeys Hlen.
  pose proof (run_returns_with_decisions _ _ _ _ _ _ _ _ _ Hfirst) as Hpos.
  destruct (fitting_loop_figures_shown _ _ _ _ _ _ _ _ _ Hnd Hloop)
    as (n & Hn & _ & _ & Hdec).
  simpl in Hn. subst n.
  assert (Hcount : length (doppler_bool_list s2)
                   = (length (doppler_bool_list s1)
                      + length (rest_candidates loc))%nat).
  { rewrite Hdec, length_app, decision_of_length.
    rewrite forallb_filter_id.
    - now rewrite length_firstn, Nat.min_l.
    - apply forallb_forall. now apply Forall_forall. }
  split.
  - unfold doppler_shift_calc, bind. rewrite Hloop.
    unfold doppler_aggregate. rewrite Hcount.
    destruct (Nat.ltb_spec 0 (length (doppler_bool_list s1)
                              + length (rest_candidates loc))) as [_|]; [|lia].
    simpl.
    destruct (Nat.eqb_spec (length (doppler_bool_list s1)
                            + length (rest_candidates loc))
                           (length (rest_candidates loc))) as [|_]; [lia|].
    reflexivity.
  - pose proof (fitting_loop_same_noise_and_log fitter' w' f' peak_width'
                  grouped_lines' (dict_keys grouped_lines') no_locals s1)
      as Hkeep.
    rewrite Hloop in Hkeep. simpl in Hkeep. apply Hkeep.
Qed.

Lemma second_run_fails_the_count_witness :
  doppler_shift_calc (fits_shifted_by 1) scenario_lines example_w example_f
    4 2 (final_state first_run)
  = Raises decision_count_error (final_state second_loop) /\
  doppler_log (final_state second_loop) = doppler_log (final_state first_run).
Proof.
  apply (second_run_fails_the_count (fits_shifted_by 1) (fits_shifted_by 1)
           scenario_lines scenario_lines example_w example_f example_w
           example_f 4 2 4 2 two_runs_start (final_state first_run)
           (final_state second_loop)
           (match value_of first_run with Ok v => v | Raise _ => 0 end)
           (match second_loop with
            | Returns loc _ => loc
            | Raises _ _ => no_locals
            end)).
  - vm_compute. reflexivity.
  - repeat constructor. intros [].
  - vm_compute. reflexivity.
  - vm_compute. repeat constructor.
  - vm_compute. lia.
Defined.

(* ------------------------------------------------------------------ *)
(** ** Missing wavelengths in the catalog *)

Lemma nan_ltb (x y : float) : is_nan x = true -> (x <? y) = false.
Proof.
  intros H. rewrite FloatAxioms.ltb_spec, (is_nan_Prim2SF x H). reflexivity.
Qed.

(** X22.  A catalog row whose wavelength is NaN (a missing cell) is never
    dropped by the [min_wavelength] test, and it never shares a group: no
    line joins a group that holds a NaN, and a NaN joins no group.  So every
    group that holds a NaN is that single NaN. *)
Theorem nan_wavelength_stands_alone (min_wavelength : float)
    (rows : list row) (d : dict (list group)) (i : string)
    (groups : list group) (g : group) :
  grouping_emission_lines min_wavelength rows = Ok d ->
  dict_get d i = Some groups -> In g groups ->
  (forall x, In x g -> is_nan x = true -> g = [x]) /\
  (forall r, In r rows -> is_nan (Wavelength r) = true ->
             kept min_wavelength r = true).
Proof.
  intros Hd Hi Hg. split.
  - destruct (grouping_emission_lines_invariant min_wavelength
                (fun g => (2 <= length g)%nat ->
                          Forall (fun x => is_nan x = false) g))
      with (rows := rows) (d := d) (i := i) (groups := groups) (g := g)
      as [Hne HP]; auto.
    + intros w _ Hlen. simpl in Hlen. lia.
    + intros w g0 _ Hne HP Htol _.
      unfold joins_group in Htol.
      destruct (tolerance_test_no_nan _ _ Htol) as [Hm Hw].
      apply Forall_app. split; [|now repeat constructor].
      destruct g0 as [|x [|y g0]]; [contradiction| |].
      * repeat constructor. exact Hm.
      * apply HP. simpl. lia.
    + intros x Hx Hnan.
      destruct g as [|y [|z g]]; [contradiction| |].
      * destruct Hx as [->|[]]. reflexivity.
      * assert (Hall : Forall (fun x => is_nan x = false) (y :: z :: g))
          by (apply HP; simpl; lia).
        rewrite Forall_forall in Hall. specialize (Hall x Hx). congruence.
  - intros r _ Hnan. unfold kept. now rewrite (nan_ltb _ _ Hnan).
Qed.

Lemma nan_wavelength_stands_alone_witness :
  (forall x, In x [nan] -> is_nan x = true -> [nan] = [x]) /\
  (forall r, In r catalog_with_nan -> is_nan (Wavelength r) = true ->
             kept 1160.0 r = true).
Proof.
  apply (nan_wavelength_stands_alone 1160.0 catalog_with_nan
           [("O_I", [[1302.0; 1304.0]; [nan]])] "O_I"
           [[1302.0; 1304.0]; [nan]] [nan]).
  - vm_compute. reflexivity.
  - reflexivity.
  - right. left. reflexivity.
Defined.
